(** * Maketon: the daily check-in streak and danger-zone engine

    A shallow embedding of [server/time.js] and [server/logic.js]
    (together with the [users] map and the [makeId] generator of
    [server/state.js]), and the properties of the engine that the
    design specification states about them.

    Conventions of the embedding:
    - a JavaScript string is the list of its UTF-16 code units, so that
      [slice] and [trim] count what the engine counts;
    - in the first part the fields [userId], [name] and [note] of a
      request are strings or absent ([null] or [undefined]), and
      [location] is absent or an object with two numbers, which is what
      the client sends; module [Raw] then has [checkIn] on any request,
      with the conversions that throw and what a call has done by then;
    - a [Date] object is its time value, the number of milliseconds since
      the epoch; every caller passes [new Date()], so the Invalid Date is
      outside the model, and the methods of [Date] are the time-value
      functions of ECMAScript, without the [TimeClip] that makes an
      Invalid Date of a time beyond the range of [Date];
    - a JavaScript number that is only tested for finiteness and stored
      is an IEEE-754 datum ([spec_float]);
    - the [Map] of users is a list of entries in insertion order, which
      is the order in which [Map.prototype.values] enumerates them; a
      user object that is mutated is written back where it is stored;
    - an identifier that [nanoid] returns is the index of its draw;
    - an exception is the [Throw] case of the result type; in module
      [Raw] a call gives the state that it leaves together with what it
      returns or throws. *)

From Stdlib Require Import ZArith NArith List String Ascii Bool Lia.
From Stdlib Require Import DecimalString.
From Stdlib Require DecimalPos DecimalZ.
From Stdlib Require Import Floats.SpecFloat.
From stdpp Require Import base list.

Open Scope Z_scope.

(** ** JavaScript strings *)

Abbreviation jsstring := (list N).

Module JS.

(** A literal of the source, as code units. *)
Definition lit (s : string) : jsstring :=
  map N_of_ascii (list_ascii_of_string s).

(** WhiteSpace and LineTerminator code points of ECMAScript, the
    characters that [String.prototype.trim] removes. *)
Definition isWhiteSpace (c : N) : bool :=
  ((c =? 9) || (c =? 10) || (c =? 11) || (c =? 12) || (c =? 13)
   || (c =? 32) || (c =? 160) || (c =? 5760)
   || ((8192 <=? c) && (c <=? 8202))
   || (c =? 8232) || (c =? 8233) || (c =? 8239) || (c =? 8287)
   || (c =? 12288) || (c =? 65279))%N.

Fixpoint trimStart (s : jsstring) : jsstring :=
  match s with
  | c :: r => if isWhiteSpace c then trimStart r else s
  | [] => []
  end.

Definition trimEnd (s : jsstring) : jsstring := rev (trimStart (rev s)).

Definition trim (s : jsstring) : jsstring := trimEnd (trimStart s).

(** [s.slice(0, n)] *)
Definition slice0 (n : nat) (s : jsstring) : jsstring := take n s.

(** [String(z)] for an integral number [z]. *)
Definition ofInt (z : Z) : jsstring :=
  lit (NilZero.string_of_int (Z.to_int z)).

(** [s.padStart(n, "0")] *)
Definition padStart0 (n : nat) (s : jsstring) : jsstring :=
  replicate (n - length s)%nat 48%N ++ s.

(** [value || dflt] followed by [String(...)], for a value that is a
    string, [null] or [undefined]: the empty string is falsy. *)
Definition orElse (value : option jsstring) (dflt : jsstring) : jsstring :=
  match value with
  | Some (c :: r) => c :: r
  | _ => dflt
  end.

(** Truthiness of a value that is a string, [null] or [undefined]. *)
Definition truthy (value : option jsstring) : bool :=
  match value with
  | Some (_ :: _) => true
  | _ => false
  end.

End JS.

(** ** Dates: the time-value functions of ECMAScript (sec. 21.4.1) *)

Abbreviation Date := Z (only parsing).

Module DateFn.

Definition msPerDay : Z := 86400000.

Definition Day (t : Z) : Z := t / msPerDay.
Definition TimeWithinDay (t : Z) : Z := t mod msPerDay.

Definition DaysInYear (y : Z) : Z :=
  if negb (y mod 4 =? 0) then 365
  else if negb (y mod 100 =? 0) then 366
  else if negb (y mod 400 =? 0) then 365
  else 366.

Definition DayFromYear (y : Z) : Z :=
  365 * (y - 1970) + (y - 1969) / 4 - (y - 1901) / 100 + (y - 1601) / 400.

(** The largest [y] with [DayFromYear y <= d]: an estimate from the mean
    length of a Gregorian year, corrected by at most one. *)
Definition YearFromDay (d : Z) : Z :=
  let y := 1970 + (d * 400) / 146097 in
  if d <? DayFromYear y then y - 1
  else if DayFromYear (y + 1) <=? d then y + 1
  else y.

Definition YearFromTime (t : Z) : Z := YearFromDay (Day t).

Definition InLeapYear (t : Z) : Z :=
  if DaysInYear (YearFromTime t) =? 366 then 1 else 0.

Definition DayWithinYear (t : Z) : Z :=
  Day t - DayFromYear (YearFromTime t).

(** The month table, on the day within the year and the leap flag. *)
Definition monthOf (dwy leap : Z) : Z :=
  if dwy <? 31 then 0
  else if dwy <? 59 + leap then 1
  else if dwy <? 90 + leap then 2
  else if dwy <? 120 + leap then 3
  else if dwy <? 151 + leap then 4
  else if dwy <? 181 + leap then 5
  else if dwy <? 212 + leap then 6
  else if dwy <? 243 + leap then 7
  else if dwy <? 273 + leap then 8
  else if dwy <? 304 + leap then 9
  else if dwy <? 334 + leap then 10
  else 11.

(** Number of days of the year before the first of month [m]. *)
Definition monthStart (m leap : Z) : Z :=
  match m with
  | 0 => 0
  | 1 => 31
  | 2 => 59 + leap
  | 3 => 90 + leap
  | 4 => 120 + leap
  | 5 => 151 + leap
  | 6 => 181 + leap
  | 7 => 212 + leap
  | 8 => 243 + leap
  | 9 => 273 + leap
  | 10 => 304 + leap
  | _ => 334 + leap
  end.

Definition MonthFromTime (t : Z) : Z :=
  monthOf (DayWithinYear t) (InLeapYear t).

Definition DateFromTime (t : Z) : Z :=
  DayWithinYear t - monthStart (MonthFromTime t) (InLeapYear t) + 1.

Definition HourFromTime (t : Z) : Z := (t / 3600000) mod 24.
Definition MinFromTime (t : Z) : Z := (t / 60000) mod 60.
Definition SecFromTime (t : Z) : Z := (t / 1000) mod 60.
Definition msFromTime (t : Z) : Z := t mod 1000.

Definition MakeDay (year month date : Z) : Z :=
  let ym := year + month / 12 in
  let mn := month mod 12 in
  let leap := if DaysInYear ym =? 366 then 1 else 0 in
  DayFromYear ym + monthStart mn leap + date - 1.

Definition MakeDate (day time : Z) : Z := day * msPerDay + time.

Definition getUTCFullYear (d : Date) : Z := YearFromTime d.
Definition getUTCMonth (d : Date) : Z := MonthFromTime d.
Definition getUTCDate (d : Date) : Z := DateFromTime d.

(** [d.setUTCDate(dt)]: the new time value of [d], when it is within the
    range of [Date]. Beyond that range, 8640000000000000 milliseconds
    either side of the epoch, the engine leaves an Invalid Date. *)
Definition setUTCDate (d : Date) (dt : Z) : Date :=
  MakeDate (MakeDay (YearFromTime d) (MonthFromTime d) dt) (TimeWithinDay d).

Definition padInt (n : nat) (z : Z) : jsstring := JS.padStart0 n (JS.ofInt z).

(** [d.toISOString()]: four-digit years from 0 to 9999, otherwise a
    sign and six digits. *)
Definition toISOString (d : Date) : jsstring :=
  let y := YearFromTime d in
  (if (0 <=? y) && (y <=? 9999) then padInt 4 y
   else JS.lit (if y <? 0 then "-" else "+") ++ padInt 6 (Z.abs y))
  ++ JS.lit "-" ++ padInt 2 (MonthFromTime d + 1)
  ++ JS.lit "-" ++ padInt 2 (DateFromTime d)
  ++ JS.lit "T" ++ padInt 2 (HourFromTime d)
  ++ JS.lit ":" ++ padInt 2 (MinFromTime d)
  ++ JS.lit ":" ++ padInt 2 (SecFromTime d)
  ++ JS.lit "." ++ padInt 3 (msFromTime d)
  ++ JS.lit "Z".

End DateFn.

(** ** server/time.js *)

Module Time.

Definition pad2 (n : Z) : jsstring := JS.padStart0 2 (JS.ofInt n).

Definition utcDayKey (date : Date) : jsstring :=
  let y := DateFn.getUTCFullYear date in
  let m := pad2 (DateFn.getUTCMonth date + 1) in
  let d := pad2 (DateFn.getUTCDate date) in
  JS.ofInt y ++ JS.lit "-" ++ m ++ JS.lit "-" ++ d.

Definition utcYesterdayDayKey (date : Date) : jsstring :=
  let d := date in
  let d := DateFn.setUTCDate d (DateFn.getUTCDate d - 1) in
  utcDayKey d.

Definition isOlderThanYesterdayDayKey (lastDayKey : option jsstring) (now : Date)
  : bool :=
  if negb (JS.truthy lastDayKey) then false
  else
    let yesterdayKey := utcYesterdayDayKey now in
    let todayKey := utcDayKey now in
    negb (bool_decide (lastDayKey = Some todayKey))
    && negb (bool_decide (lastDayKey = Some yesterdayKey)).

End Time.

(** ** server/state.js and server/logic.js *)

(** A thrown [Error], carrying its message. *)
Inductive result (A : Type) : Type :=
| Ok (a : A)
| Throw (message : jsstring).
Arguments Ok {A} a.
Arguments Throw {A} message.

(** The [status] field takes the three string values "unknown", "ok" and
    "missing". *)
Inductive Status : Set := unknown | ok | missing.

#[global] Instance Status_eq_dec : EqDecision Status.
Proof. solve_decision. Defined.

(** A number as [Number(...)] returns it. *)
Abbreviation number := spec_float.

Module Number.
Definition isFinite (x : number) : bool :=
  match x with
  | S754_zero _ | S754_finite _ _ _ => true
  | S754_infinity _ | S754_nan => false
  end.
End Number.

Module Location.
Record t : Set := mk { lat : number; lng : number }.
End Location.

Module HistoryEntry.
Record t : Set := mk {
  dayKey : jsstring;
  at_ : jsstring;
  location : option Location.t;
  note : option jsstring
}.
End HistoryEntry.

Module DangerZone.
(** [id] is the index of the draw of [state.makeId] that produced the
    identifier: [nanoid(10)] is a random generator outside the
    repository, taken to return a different identifier at each draw. *)
Record t : Set := mk {
  id : nat;
  type : jsstring;
  reason : jsstring;
  userId : jsstring;
  name : jsstring;
  location : option Location.t;
  lastSeenAt : jsstring
}.
End DangerZone.

Module User.
Record t : Set := mk {
  id : jsstring;
  name : jsstring;
  streak : Z;
  lastCheckInAt : option Date;
  lastCheckInDayKey : option jsstring;
  lastKnownLocation : option Location.t;
  checkInHistory : list HistoryEntry.t;
  status : Status;
  missingSince : option Date;
  dangerZone : option DangerZone.t
}.
End User.

(** The [Map] of [state.users]: entries in insertion order. [get] returns
    the value of the first entry with the key, [set] overwrites that entry
    where it stands or appends a new one. *)
Module UserMap.
Abbreviation t := (list (jsstring * User.t)).

Fixpoint get (m : t) (k : jsstring) : option User.t :=
  match m with
  | [] => None
  | (k', v) :: r => if decide (k' = k) then Some v else get r k
  end.

Fixpoint set (m : t) (k : jsstring) (v : User.t) : t :=
  match m with
  | [] => [(k, v)]
  | (k', v') :: r =>
      if decide (k' = k) then (k, v) :: r else (k', v') :: set r k v
  end.

Definition values (m : t) : list User.t := map snd m.
Definition keys (m : t) : list jsstring := map fst m.
End UserMap.

Module State.
(** The part of the state of [createInitialState] that the engine uses:
    the users and the number of identifiers [makeId] has produced. *)
Record t : Set := mk { users : UserMap.t; made : nat }.
End State.

Definition createInitialState : State.t :=
  {| State.users := []; State.made := 0 |}.

(** [state.makeId()]: the identifier and the generator after the draw. *)
Definition makeId (made : nat) : nat * nat := (made, S made).

(** The argument of [asLocation]: [null]/[undefined], or an object whose
    fields are given as [Number(input.lat)] and [Number(input.lng)]. *)
Definition asLocation (input : option Location.t) : option Location.t :=
  match input with
  | None => None
  | Some input =>
      let lat := Location.lat input in
      let lng := Location.lng input in
      if negb (Number.isFinite lat) || negb (Number.isFinite lng) then None
      else Some {| Location.lat := lat; Location.lng := lng |}
  end.

(** [value || now] for a field that holds a [Date] or [null]: every
    [Date] object is truthy. *)
Definition dateOr (value : option Date) (now : Date) : Date :=
  match value with
  | Some d => d
  | None => now
  end.

(** [markMissing(state, user, now, reason)], on the two things it touches:
    the generator of [state] and the fields of [user]. *)
Definition markMissing (made : nat) (user : User.t) (now : Date) (reason : jsstring)
  : nat * User.t :=
  if decide (User.status user = missing) then (made, user)
  else
    let missingSince := dateOr (User.lastCheckInAt user) now in
    let location := User.lastKnownLocation user in
    let '(newId, made') := makeId made in
    let dz :=
      match location with
      | Some l =>
          {| DangerZone.id := newId;
             DangerZone.type := JS.lit "danger-zone";
             DangerZone.reason := reason;
             DangerZone.userId := User.id user;
             DangerZone.name := User.name user;
             DangerZone.location := Some l;
             DangerZone.lastSeenAt :=
               DateFn.toISOString (dateOr (User.lastCheckInAt user) now) |}
      | None =>
          {| DangerZone.id := newId;
             DangerZone.type := JS.lit "danger-zone";
             DangerZone.reason := reason;
             DangerZone.userId := User.id user;
             DangerZone.name := User.name user;
             DangerZone.location := None;
             DangerZone.lastSeenAt :=
               DateFn.toISOString (dateOr (User.lastCheckInAt user) now) |}
      end in
    (made',
     {| User.id := User.id user;
        User.name := User.name user;
        User.streak := User.streak user;
        User.lastCheckInAt := User.lastCheckInAt user;
        User.lastCheckInDayKey := User.lastCheckInDayKey user;
        User.lastKnownLocation := User.lastKnownLocation user;
        User.checkInHistory := User.checkInHistory user;
        User.status := missing;
        User.missingSince := Some missingSince;
        User.dangerZone := Some dz |}).

Definition setName (user : User.t) (name : jsstring) : User.t :=
  {| User.id := User.id user;
     User.name := name;
     User.streak := User.streak user;
     User.lastCheckInAt := User.lastCheckInAt user;
     User.lastCheckInDayKey := User.lastCheckInDayKey user;
     User.lastKnownLocation := User.lastKnownLocation user;
     User.checkInHistory := User.checkInHistory user;
     User.status := User.status user;
     User.missingSince := User.missingSince user;
     User.dangerZone := User.dangerZone user |}.

(** [user.lastKnownLocation = newLocation] *)
Definition setLocation (user : User.t) (newLocation : Location.t) : User.t :=
  {| User.id := User.id user;
     User.name := User.name user;
     User.streak := User.streak user;
     User.lastCheckInAt := User.lastCheckInAt user;
     User.lastCheckInDayKey := User.lastCheckInDayKey user;
     User.lastKnownLocation := Some newLocation;
     User.checkInHistory := User.checkInHistory user;
     User.status := User.status user;
     User.missingSince := User.missingSince user;
     User.dangerZone := User.dangerZone user |}.

(** [String(userId || "").trim()]: the key under which the user of a
    request is filed in [state.users]. *)
Definition userKey (userId : option jsstring) : jsstring :=
  JS.trim (JS.orElse userId []).

(** [getOrCreateUser(state, { userId, name })]: the state after the call
    and the user object it returns, which is the one filed under
    [userKey userId]. *)
Definition getOrCreateUser (state : State.t) (userId name : option jsstring)
  : result (State.t * User.t) :=
  let id := userKey userId in
  match id with
  | [] => Throw (JS.lit "userId is required")
  | _ :: _ =>
      match UserMap.get (State.users state) id with
      | None =>
          let user :=
            {| User.id := id;
               User.name := JS.slice0 60 (JS.orElse name (JS.lit "Unknown Survivor"));
               User.streak := 0;
               User.lastCheckInAt := None;
               User.lastCheckInDayKey := None;
               User.lastKnownLocation := None;
               User.checkInHistory := [];
               User.status := unknown;
               User.missingSince := None;
               User.dangerZone := None |} in
          Ok ({| State.users := UserMap.set (State.users state) id user;
                 State.made := State.made state |}, user)
      | Some user =>
          if JS.truthy name then
            let user := setName user (JS.slice0 60 (default [] name)) in
            Ok ({| State.users := UserMap.set (State.users state) id user;
                   State.made := State.made state |}, user)
          else Ok (state, user)
      end
  end.

Definition normalizeCheckInNote (value : option jsstring) : option jsstring :=
  let s := JS.trim (JS.orElse value []) in
  match s with
  | [] => None
  | _ :: _ => Some (JS.slice0 180 s)
  end.

(** [pushCheckInHistory(user, { dayKey, at, location, note })], on the
    [checkInHistory] array. *)
Definition pushCheckInHistory (history : list HistoryEntry.t)
    (dayKey : jsstring) (at_ : Date) (location : option Location.t)
    (note : option jsstring) : list HistoryEntry.t :=
  let entry :=
    {| HistoryEntry.dayKey := dayKey;
       HistoryEntry.at_ := DateFn.toISOString at_;
       HistoryEntry.location := location;
       HistoryEntry.note := note |} in
  let history :=
    match list_find (fun x => HistoryEntry.dayKey x = dayKey) history with
    | Some (idx, _) => <[idx := entry]> history
    | None => history ++ [entry]
    end in
  if decide (21 < length history)%nat
  then drop (length history - 21)%nat history
  else history.

(** The body of a check-in request whose fields are what the client of
    the repository sends: [userId], [name] and [note] are strings or
    absent, and [location] is absent or an object with two numbers. No
    conversion throws on such a request; module [Raw], below, has
    [checkIn] on any request. *)
Module Payload.
Record t : Set := mk {
  userId : option jsstring;
  name : option jsstring;
  location : option Location.t;
  note : option jsstring
}.
End Payload.

(** [checkIn(state, { userId, name, location, note }, now)]. The object
    that [getOrCreateUser] returns is mutated where it is stored, under
    [userKey userId]. A streak is an integer, for which [user.streak || 0]
    is [user.streak]; [user.checkInHistory] is always an array. *)
Definition checkIn (state : State.t) (payload : Payload.t) (now : Date)
  : result (State.t * User.t) :=
  match getOrCreateUser state (Payload.userId payload) (Payload.name payload) with
  | Throw e => Throw e
  | Ok (state, user) =>
      let todayKey := Time.utcDayKey now in
      let yesterdayKey := Time.utcYesterdayDayKey now in
      let newLocation := asLocation (Payload.location payload) in
      let lastKnownLocation :=
        match newLocation with
        | Some l => Some l
        | None => User.lastKnownLocation user
        end in
      let cleanNote := normalizeCheckInNote (Payload.note payload) in
      let history :=
        pushCheckInHistory (User.checkInHistory user) todayKey now newLocation cleanNote in
      let streak :=
        if decide (User.lastCheckInDayKey user = Some todayKey) then User.streak user
        else if decide (User.lastCheckInDayKey user = Some yesterdayKey)
             then Z.max 1 (User.streak user + 1)
             else 1 in
      let user :=
        {| User.id := User.id user;
           User.name := User.name user;
           User.streak := streak;
           User.lastCheckInAt := Some now;
           User.lastCheckInDayKey := Some todayKey;
           User.lastKnownLocation := lastKnownLocation;
           User.checkInHistory := history;
           User.status := ok;
           User.missingSince := None;
           User.dangerZone := None |} in
      Ok ({| State.users :=
               UserMap.set (State.users state) (userKey (Payload.userId payload)) user;
             State.made := State.made state |}, user)
  end.

(** The loop of [sweepForBrokenStreaks] over [state.users.values()]. *)
Fixpoint sweepUsers (users : UserMap.t) (made : nat) (now : Date)
  : UserMap.t * nat :=
  match users with
  | [] => ([], made)
  | (k, user) :: rest =>
      let '(made, user) :=
        if decide (User.status user = missing) then (made, user)
        else if Time.isOlderThanYesterdayDayKey (User.lastCheckInDayKey user) now
             then markMissing made user now (JS.lit "streak-broken")
             else (made, user) in
      let '(rest, made) := sweepUsers rest made now in
      ((k, user) :: rest, made)
  end.

Definition sweepForBrokenStreaks (state : State.t) (now : Date) : State.t :=
  let '(users, made) := sweepUsers (State.users state) (State.made state) now in
  {| State.users := users; State.made := made |}.

Fixpoint collectZones (users : list User.t) : list DangerZone.t :=
  match users with
  | [] => []
  | user :: rest =>
      if decide (User.status user = missing) then
        match User.dangerZone user with
        | Some dz => dz :: collectZones rest
        | None => collectZones rest
        end
      else collectZones rest
  end.

(** [dangerZones(state, now)]: the state after the sweep and the list. *)
Definition dangerZones (state : State.t) (now : Date)
  : State.t * list DangerZone.t :=
  let state := sweepForBrokenStreaks state now in
  (state, collectZones (UserMap.values (State.users state))).

(** ** A check-in on any request

    [POST /api/checkin] passes [req.body], and the socket handler its
    [payload], to [checkIn] as they arrive: a field can be any value that
    JSON carries. [checkIn] reads a field [v] of the request with
    [v || d] and [String(v)], and a location [input] with [!input] and
    [Number(input.lat)], [Number(input.lng)]. The values are given here
    by what these operations make of them. A conversion that throws
    leaves behind what [checkIn] has done before it. *)

Module Raw.

(** What a call throws: [new Error(message)], or the exception of the
    engine when it cannot convert or destructure a value. *)
Inductive error : Type :=
| Error (message : jsstring)
| Conversion.

Inductive outcome (A : Type) : Type :=
| Returns (a : A)
| Throws (e : error).
Arguments Returns {A} a.
Arguments Throws {A} e.

(** A field that is read with [v || d] and [String(v)]. [Falsy] is
    [undefined], [null], [false], [0], [NaN] or the empty string. Of a
    truthy value, [String] returns a string, or throws: it does so on
    an object whose own [toString] is not callable, which is what
    [JSON.parse] makes of [{"toString": 1}]. An empty array is truthy,
    and [String] of it is the empty string. *)
Inductive value : Type :=
| Falsy
| Truthy (string : option jsstring).

(** [String(v || dflt)] *)
Definition stringOr (v : value) (dflt : jsstring) : outcome jsstring :=
  match v with
  | Falsy => Returns dflt
  | Truthy (Some s) => Returns s
  | Truthy None => Throws Conversion
  end.

(** A truthy [input] of [asLocation], by what [Number(input.lat)] and
    [Number(input.lng)] make of it: a number, or nothing when [Number]
    throws, as it does where [String] does. *)
Record coordinates : Type := {
  lat : option number;
  lng : option number
}.

(** The object that [checkIn] destructures. *)
Record body : Type := {
  userId : value;
  name : value;
  location : option coordinates;
  note : value
}.

Definition asLocation (input : option coordinates) : outcome (option Location.t) :=
  match input with
  | None => Returns None
  | Some input =>
      match lat input with
      | None => Throws Conversion
      | Some lat =>
          match lng input with
          | None => Throws Conversion
          | Some lng =>
              if negb (Number.isFinite lat) || negb (Number.isFinite lng) then Returns None
              else Returns (Some {| Location.lat := lat; Location.lng := lng |})
          end
      end
  end.

(** [String(userId || "").trim()], the empty string standing in when
    [String] throws and there is no key. *)
Definition userKey (userId : value) : jsstring :=
  match stringOr userId [] with
  | Returns s => JS.trim s
  | Throws _ => []
  end.

(** [getOrCreateUser(state, { userId, name })]. The object literal of the
    new user is evaluated, [String(name || "Unknown Survivor")] with it,
    before [state.users.set]; [String(name)] before the assignment to
    [user.name]. *)
Definition getOrCreateUser (state : State.t) (userId name : value)
  : outcome (State.t * User.t) :=
  match stringOr userId [] with
  | Throws e => Throws e
  | Returns s =>
      let id := JS.trim s in
      match id with
      | [] => Throws (Error (JS.lit "userId is required"))
      | _ :: _ =>
          match UserMap.get (State.users state) id with
          | None =>
              match stringOr name (JS.lit "Unknown Survivor") with
              | Throws e => Throws e
              | Returns n =>
                  let user :=
                    {| User.id := id;
                       User.name := JS.slice0 60 n;
                       User.streak := 0;
                       User.lastCheckInAt := None;
                       User.lastCheckInDayKey := None;
                       User.lastKnownLocation := None;
                       User.checkInHistory := [];
                       User.status := unknown;
                       User.missingSince := None;
                       User.dangerZone := None |} in
                  Returns ({| State.users := UserMap.set (State.users state) id user;
                              State.made := State.made state |}, user)
              end
          | Some user =>
              match name with
              | Falsy => Returns (state, user)
              | Truthy None => Throws Conversion
              | Truthy (Some n) =>
                  let user := setName user (JS.slice0 60 n) in
                  Returns ({| State.users := UserMap.set (State.users state) id user;
                              State.made := State.made state |}, user)
              end
          end
      end
  end.

Definition normalizeCheckInNote (value : value) : outcome (option jsstring) :=
  match stringOr value [] with
  | Throws e => Throws e
  | Returns s =>
      let s := JS.trim s in
      match s with
      | [] => Returns None
      | _ :: _ => Returns (Some (JS.slice0 180 s))
      end
  end.

(** [checkIn(state, request, now)]: the state that the call leaves, and
    what it returns or throws. A request that is [null] or [undefined]
    cannot be destructured. The user object is mutated where it is
    stored: [user.lastKnownLocation] is assigned before
    [normalizeCheckInNote] is called. *)
Definition checkIn (state : State.t) (request : option body) (now : Date)
  : State.t * outcome User.t :=
  match request with
  | None => (state, Throws Conversion)
  | Some request =>
      match getOrCreateUser state (userId request) (name request) with
      | Throws e => (state, Throws e)
      | Returns (state, user) =>
          let id := userKey (userId request) in
          let todayKey := Time.utcDayKey now in
          let yesterdayKey := Time.utcYesterdayDayKey now in
          match asLocation (location request) with
          | Throws e => (state, Throws e)
          | Returns newLocation =>
              let user :=
                match newLocation with
                | Some l => setLocation user l
                | None => user
                end in
              let state :=
                match newLocation with
                | Some _ =>
                    {| State.users := UserMap.set (State.users state) id user;
                       State.made := State.made state |}
                | None => state
                end in
              match normalizeCheckInNote (note request) with
              | Throws e => (state, Throws e)
              | Returns cleanNote =>
                  let history :=
                    pushCheckInHistory (User.checkInHistory user) todayKey now
                      newLocation cleanNote in
                  let streak :=
                    if decide (User.lastCheckInDayKey user = Some todayKey)
                    then User.streak user
                    else if decide (User.lastCheckInDayKey user = Some yesterdayKey)
                         then Z.max 1 (User.streak user + 1)
                         else 1 in
                  let user :=
                    {| User.id := User.id user;
                       User.name := User.name user;
                       User.streak := streak;
                       User.lastCheckInAt := Some now;
                       User.lastCheckInDayKey := Some todayKey;
                       User.lastKnownLocation := User.lastKnownLocation user;
                       User.checkInHistory := history;
                       User.status := ok;
                       User.missingSince := None;
                       User.dangerZone := None |} in
                  ({| State.users := UserMap.set (State.users state) id user;
                      State.made := State.made state |}, Returns user)
              end
          end
      end
  end.

End Raw.

(** * Definitions used by the statements and the proofs *)

(** Day of the month, as a function of the day within the year. *)
Definition dateOf (dwy leap : Z) : Z :=
  dwy - DateFn.monthStart (DateFn.monthOf dwy leap) leap + 1.

(** Reading back the two digits that [pad2] writes. *)
Definition pad2_reads (n : Z) : bool :=
  match Time.pad2 n with
  | [a; b] => n =? 10 * (Z.of_N a - 48) + (Z.of_N b - 48)
  | _ => false
  end.

(** The day keys of a history, in its order. *)
Definition historyKeys (h : list HistoryEntry.t) : list jsstring :=
  HistoryEntry.dayKey <$> h.

(** The [entry] object of [pushCheckInHistory]. *)
Definition newEntry (dayKey : jsstring) (at_ : Date)
    (location : option Location.t) (note : option jsstring) : HistoryEntry.t :=
  {| HistoryEntry.dayKey := dayKey;
     HistoryEntry.at_ := DateFn.toISOString at_;
     HistoryEntry.location := location;
     HistoryEntry.note := note |}.

(** The array of [pushCheckInHistory] before the [splice]. *)
Definition upsert (h : list HistoryEntry.t) (dayKey : jsstring) (at_ : Date)
    (location : option Location.t) (note : option jsstring) : list HistoryEntry.t :=
  match list_find (fun x => HistoryEntry.dayKey x = dayKey) h with
  | Some (idx, _) => <[idx := newEntry dayKey at_ location note]> h
  | None => h ++ [newEntry dayKey at_ location note]
  end.

(** The user object that [getOrCreateUser] returns. *)
Definition resolved (state : State.t) (userId name : option jsstring) : User.t :=
  match UserMap.get (State.users state) (userKey userId) with
  | None =>
      {| User.id := userKey userId;
         User.name := JS.slice0 60 (JS.orElse name (JS.lit "Unknown Survivor"));
         User.streak := 0;
         User.lastCheckInAt := None;
         User.lastCheckInDayKey := None;
         User.lastKnownLocation := None;
         User.checkInHistory := [];
         User.status := unknown;
         User.missingSince := None;
         User.dangerZone := None |}
  | Some user =>
      if JS.truthy name then setName user (JS.slice0 60 (default [] name)) else user
  end.

(** The state once the user object stored under [k] has become [user]. *)
Definition withUser (state : State.t) (k : jsstring) (user : User.t) : State.t :=
  {| State.users := UserMap.set (State.users state) k user;
     State.made := State.made state |}.

(** The user object as [checkIn] leaves it. *)
Definition checkedIn (user : User.t) (payload : Payload.t) (now : Date) : User.t :=
  {| User.id := User.id user;
     User.name := User.name user;
     User.streak :=
       if decide (User.lastCheckInDayKey user = Some (Time.utcDayKey now))
       then User.streak user
       else if decide (User.lastCheckInDayKey user = Some (Time.utcYesterdayDayKey now))
            then Z.max 1 (User.streak user + 1)
            else 1;
     User.lastCheckInAt := Some now;
     User.lastCheckInDayKey := Some (Time.utcDayKey now);
     User.lastKnownLocation :=
       match asLocation (Payload.location payload) with
       | Some l => Some l
       | None => User.lastKnownLocation user
       end;
     User.checkInHistory :=
       pushCheckInHistory (User.checkInHistory user) (Time.utcDayKey now) now
         (asLocation (Payload.location payload))
         (normalizeCheckInNote (Payload.note payload));
     User.status := ok;
     User.missingSince := None;
     User.dangerZone := None |}.

(** The danger-zone record that [markMissing] builds, in either branch. *)
Definition zoneOf (newId : nat) (user : User.t) (now : Date) (reason : jsstring)
  : DangerZone.t :=
  {| DangerZone.id := newId;
     DangerZone.type := JS.lit "danger-zone";
     DangerZone.reason := reason;
     DangerZone.userId := User.id user;
     DangerZone.name := User.name user;
     DangerZone.location := User.lastKnownLocation user;
     DangerZone.lastSeenAt := DateFn.toISOString (dateOr (User.lastCheckInAt user) now) |}.

(** The user object as [markMissing] leaves it when it does not return
    at once. *)
Definition markedMissing (newId : nat) (user : User.t) (now : Date) (reason : jsstring)
  : User.t :=
  {| User.id := User.id user;
     User.name := User.name user;
     User.streak := User.streak user;
     User.lastCheckInAt := User.lastCheckInAt user;
     User.lastCheckInDayKey := User.lastCheckInDayKey user;
     User.lastKnownLocation := User.lastKnownLocation user;
     User.checkInHistory := User.checkInHistory user;
     User.status := missing;
     User.missingSince := Some (dateOr (User.lastCheckInAt user) now);
     User.dangerZone := Some (zoneOf newId user now reason) |}.

(** One turn of the loop of [sweepForBrokenStreaks]. *)
Definition sweepUser (made : nat) (user : User.t) (now : Date) : nat * User.t :=
  if decide (User.status user = missing) then (made, user)
  else if Time.isOlderThanYesterdayDayKey (User.lastCheckInDayKey user) now
       then markMissing made user now (JS.lit "streak-broken")
       else (made, user).

(** The string that [String] returns of a value, when it returns one
    and the value is truthy. *)
Definition stringOf (v : Raw.value) : option jsstring :=
  match v with
  | Raw.Truthy (Some s) => Some s
  | _ => None
  end.

(** The location that [asLocation] is given, when both conversions
    return. *)
Definition locationOf (input : option Raw.coordinates) : option Location.t :=
  match input with
  | Some {| Raw.lat := Some lat; Raw.lng := Some lng |} =>
      Some {| Location.lat := lat; Location.lng := lng |}
  | _ => None
  end.

(** The location and the note of a request, converted. *)
Definition converted (request : Raw.body) : Payload.t :=
  {| Payload.userId := stringOf (Raw.userId request);
     Payload.name := stringOf (Raw.name request);
     Payload.location := locationOf (Raw.location request);
     Payload.note := stringOf (Raw.note request) |}.

(** No conversion of the request throws. *)
Definition converts (request : Raw.body) : bool :=
  match Raw.userId request, Raw.name request, Raw.note request with
  | Raw.Truthy None, _, _ | _, Raw.Truthy None, _ | _, _, Raw.Truthy None => false
  | _, _, _ =>
      match Raw.location request with
      | Some {| Raw.lat := Some _; Raw.lng := Some _ |} | None => true
      | _ => false
      end
  end.

(** A string or absent field, as a value. *)
Definition valueOf (field : option jsstring) : Raw.value :=
  match field with
  | Some (c :: s) => Raw.Truthy (Some (c :: s))
  | _ => Raw.Falsy
  end.

(** A request of strings and numbers, as [checkIn] receives it. *)
Definition bodyOf (payload : Payload.t) : Raw.body :=
  {| Raw.userId := valueOf (Payload.userId payload);
     Raw.name := valueOf (Payload.name payload);
     Raw.location :=
       match Payload.location payload with
       | Some l => Some {| Raw.lat := Some (Location.lat l); Raw.lng := Some (Location.lng l) |}
       | None => None
       end;
     Raw.note := valueOf (Payload.note payload) |}.

(** The user object that [Raw.getOrCreateUser] returns. *)
Definition resolvedRaw (state : State.t) (userId name : Raw.value) : User.t :=
  match UserMap.get (State.users state) (Raw.userKey userId) with
  | None =>
      {| User.id := Raw.userKey userId;
         User.name :=
           JS.slice0 60 (match name with
                         | Raw.Truthy (Some n) => n
                         | _ => JS.lit "Unknown Survivor"
                         end);
         User.streak := 0;
         User.lastCheckInAt := None;
         User.lastCheckInDayKey := None;
         User.lastKnownLocation := None;
         User.checkInHistory := [];
         User.status := unknown;
         User.missingSince := None;
         User.dangerZone := None |}
  | Some user =>
      match name with
      | Raw.Truthy (Some n) => setName user (JS.slice0 60 n)
      | _ => user
      end
  end.

(** The user object once [checkIn] has assigned the new location, if
    there is one. *)
Definition located (user : User.t) (newLocation : option Location.t) : User.t :=
  match newLocation with
  | Some l => setLocation user l
  | None => user
  end.

(** The operations that the server calls on its state. [OpCheckIn] is a
    check-in whose request holds strings and numbers, [OpCheckInRaw] a
    check-in on any request. *)
Inductive Op : Type :=
| OpGetOrCreateUser (userId name : option jsstring)
| OpCheckIn (payload : Payload.t) (now : Date)
| OpSweep (now : Date)
| OpDangerZones (now : Date)
| OpCheckInRaw (request : option Raw.body) (now : Date).

(** The state that an operation leaves. [getOrCreateUser], and [checkIn]
    on strings and numbers, throw only before every mutation; a
    [checkIn] that throws in a conversion leaves what it has done. *)
Definition step (state : State.t) (o : Op) : State.t :=
  match o with
  | OpGetOrCreateUser userId name =>
      match getOrCreateUser state userId name with
      | Ok (state', _) => state'
      | Throw _ => state
      end
  | OpCheckIn payload now =>
      match checkIn state payload now with
      | Ok (state', _) => state'
      | Throw _ => state
      end
  | OpSweep now => sweepForBrokenStreaks state now
  | OpDangerZones now => fst (dangerZones state now)
  | OpCheckInRaw request now => fst (Raw.checkIn state request now)
  end.

(** The state after a sequence of operations on the initial state. *)
Definition run (ops : list Op) : State.t := fold_left step ops createInitialState.

(** What holds of every entry of the map in every reachable state. *)
Record UserInv (made : nat) (entry : jsstring * User.t) : Prop := {
  inv_key : User.id (snd entry) = fst entry;
  inv_length : (length (User.checkInHistory (snd entry)) <= 21)%nat;
  inv_days : NoDup (historyKeys (User.checkInHistory (snd entry)));
  inv_missing :
    User.status (snd entry) = missing ->
    exists dz, User.dangerZone (snd entry) = Some dz
               /\ (User.lastKnownLocation (snd entry) = None ->
                   DangerZone.location dz = None)
               /\ DangerZone.userId dz = User.id (snd entry);
  inv_made :
    forall dz, User.dangerZone (snd entry) = Some dz -> (DangerZone.id dz < made)%nat
}.

Definition Inv (state : State.t) : Prop :=
  NoDup (UserMap.keys (State.users state))
  /\ Forall (UserInv (State.made state)) (State.users state).

(** A string that does not begin with white space. *)
Definition headNotSpace (s : jsstring) : Prop :=
  match s with
  | [] => True
  | c :: _ => JS.isWhiteSpace c = false
  end.

(** A location, when there is one, has finite coordinates. *)
Definition finiteLocation (l : option Location.t) : Prop :=
  match l with
  | None => True
  | Some l =>
      Number.isFinite (Location.lat l) = true /\ Number.isFinite (Location.lng l) = true
  end.

(** A history entry as a check-in at time [t] files it. *)
Definition entryOf (t : Date) (e : HistoryEntry.t) : Prop :=
  HistoryEntry.dayKey e = Time.utcDayKey t /\ HistoryEntry.at_ e = DateFn.toISOString t.

(** A note as [normalizeCheckInNote] leaves it. *)
Definition cleanNote (note : option jsstring) : Prop :=
  match note with
  | None => True
  | Some n => (1 <= length n <= 180)%nat /\ headNotSpace n
  end.

(** The life of a participant, as the operations keep it. *)
Record Life (entry : jsstring * User.t) : Prop := {
  life_key : fst entry <> [] /\ JS.trim (fst entry) = fst entry;
  life_id : User.id (snd entry) = fst entry;
  life_name : (length (User.name (snd entry)) <= 60)%nat;
  life_unknown :
    User.status (snd entry) = unknown ->
    User.lastCheckInAt (snd entry) = None
    /\ User.lastCheckInDayKey (snd entry) = None
    /\ User.streak (snd entry) = 0
    /\ User.checkInHistory (snd entry) = [];
  life_checked :
    User.status (snd entry) <> unknown ->
    exists t e,
      User.lastCheckInAt (snd entry) = Some t
      /\ User.lastCheckInDayKey (snd entry) = Some (Time.utcDayKey t)
      /\ 1 <= User.streak (snd entry)
      /\ e ∈ User.checkInHistory (snd entry) /\ entryOf t e;
  life_ok :
    User.status (snd entry) <> missing ->
    User.missingSince (snd entry) = None /\ User.dangerZone (snd entry) = None;
  life_missing :
    User.status (snd entry) = missing ->
    exists t dz,
      User.lastCheckInAt (snd entry) = Some t
      /\ User.missingSince (snd entry) = Some t
      /\ User.dangerZone (snd entry) = Some dz
      /\ DangerZone.type dz = JS.lit "danger-zone"
      /\ DangerZone.reason dz = JS.lit "streak-broken"
      /\ DangerZone.userId dz = fst entry
      /\ finiteLocation (DangerZone.location dz)
      /\ (User.lastKnownLocation (snd entry) = None -> DangerZone.location dz = None)
      /\ DangerZone.lastSeenAt dz = DateFn.toISOString t;
  life_location : finiteLocation (User.lastKnownLocation (snd entry));
  life_history :
    Forall (fun e => (exists t, entryOf t e)
                     /\ finiteLocation (HistoryEntry.location e)
                     /\ cleanNote (HistoryEntry.note e))
      (User.checkInHistory (snd entry))
}.

(** The participants that a sweep at [now] marks: not yet missing, and
    with a stale day key. *)
Definition toMark (now : Date) (entry : jsstring * User.t) : bool :=
  negb (bool_decide (User.status (snd entry) = missing))
  && Time.isOlderThanYesterdayDayKey (User.lastCheckInDayKey (snd entry)) now.

(** The ids of the missing participants of a map, in its order. *)
Definition missingKeys (users : UserMap.t) : list jsstring :=
  fst <$> filter (fun entry => User.status (snd entry) = missing) users.

(** The identifiers of the danger-zone records of a map, in its order. *)
Definition zoneIds (users : UserMap.t) : list nat :=
  omap (fun entry => DangerZone.id <$> User.dangerZone (snd entry)) users.

(** Times on consecutive UTC days, the first on the day after [t]. *)
Fixpoint consecutiveDays (t : Date) (ts : list Date) : Prop :=
  match ts with
  | [] => True
  | t' :: rest => t' / 86400000 = t / 86400000 + 1 /\ consecutiveDays t' rest
  end.

(** [String(y)] has four code units. *)
Definition fourDigits (y : Z) : bool := (length (JS.ofInt y) =? 4)%nat.

(** [f] holds of the [n] integers from [lo] on. *)
Fixpoint allFrom (f : Z -> bool) (lo : Z) (n : nat) : bool :=
  match n with
  | O => true
  | S n => f lo && allFrom f (lo + 1) n
  end.

(** The streak rule of [dbCheckIn], the check-in of the database path
    (lines 143 to 154): [prevKey] is [row.last_check_in_day_key || null]
    and [prevStreak] the integer [row.streak], or 0 when it is missing. *)
Definition dbNextStreak (last_check_in_day_key : option jsstring) (prevStreak : Z)
    (now : Date) : Z :=
  let todayKey := Time.utcDayKey now in
  let yesterdayKey := Time.utcYesterdayDayKey now in
  let prevKey := if JS.truthy last_check_in_day_key then last_check_in_day_key else None in
  if decide (prevKey = Some todayKey)
  then Z.max 1 (if prevStreak =? 0 then 1 else prevStreak)
  else if decide (prevKey = Some yesterdayKey)
       then Z.max 1 ((if prevStreak =? 0 then 0 else prevStreak) + 1)
       else 1.

(** ** Scenarios *)

Module Scenario.
(** 2024-03-01T00:00:00.000Z *)
Definition day0 : Date := 1709251200000.
Definition hour : Z := 3600000.
Definition days (n : Z) : Z := n * DateFn.msPerDay.

Definition home : Location.t :=
  {| Location.lat := S754_finite false 1 0; Location.lng := S754_finite false 1 1 |}.
Definition nowhere : Location.t :=
  {| Location.lat := S754_nan; Location.lng := S754_infinity false |}.

(** Participant "p1" checks in without a location. *)
Definition p1 : Payload.t :=
  {| Payload.userId := Some (JS.lit " p1 "); Payload.name := None;
     Payload.location := None; Payload.note := None |}.
(** The same participant, with a location. *)
Definition p1_home : Payload.t :=
  {| Payload.userId := Some (JS.lit "p1"); Payload.name := Some (JS.lit "Joyce");
     Payload.location := Some home; Payload.note := Some (JS.lit " safe ") |}.
(** The same participant, with a location that is not finite. *)
Definition p1_nowhere : Payload.t :=
  {| Payload.userId := Some (JS.lit "p1"); Payload.name := None;
     Payload.location := Some nowhere; Payload.note := None |}.
(** The participant "p1" has checked in on day 0 and a sweep three days
    later has marked them missing. *)
Definition lostP1 : State.t :=
  run [OpCheckIn p1_home day0; OpSweep (day0 + days 3)].

(** A request whose id is only white space. *)
Definition blank : Payload.t :=
  {| Payload.userId := Some (JS.lit "   "); Payload.name := None;
     Payload.location := Some home; Payload.note := None |}.

Definition away : Location.t :=
  {| Location.lat := S754_finite false 3 0; Location.lng := S754_finite true 5 0 |}.

(** What [JSON.parse] makes of [{"toString": 1}]: [String] and [Number]
    throw a [TypeError] on it. *)
Definition unconvertible : Raw.value := Raw.Truthy None.

(** Participant "p1" checks in from [away], with a note that cannot be
    converted. *)
Definition p1_stops : Raw.body :=
  {| Raw.userId := Raw.Truthy (Some (JS.lit "p1")); Raw.name := Raw.Falsy;
     Raw.location :=
       Some {| Raw.lat := Some (Location.lat away); Raw.lng := Some (Location.lng away) |};
     Raw.note := unconvertible |}.
(** The same request, with a location that is not finite and no note. *)
Definition p1_adrift : Raw.body :=
  {| Raw.userId := Raw.Truthy (Some (JS.lit "p1")); Raw.name := Raw.Falsy;
     Raw.location :=
       Some {| Raw.lat := Some S754_nan; Raw.lng := Some (Location.lng away) |};
     Raw.note := Raw.Falsy |}.
(** A request whose id is the number 0. *)
Definition p0 : Raw.body :=
  {| Raw.userId := Raw.Falsy; Raw.name := Raw.Truthy (Some (JS.lit "Zero"));
     Raw.location := None; Raw.note := Raw.Falsy |}.

(** Three check-ins of "p1" on three days in a row. *)
Definition threeDays : State.t :=
  run [OpCheckIn p1_home day0; OpCheckIn p1 (day0 + days 1); OpCheckIn p1 (day0 + days 2)].

(** A state whose one participant holds a day key and no time of a last
    check-in, and has not been swept yet. *)
Definition undated : State.t :=
  {| State.users :=
       [(JS.lit "p7",
         {| User.id := JS.lit "p7";
            User.name := JS.lit "Hopper";
            User.streak := 2;
            User.lastCheckInAt := None;
            User.lastCheckInDayKey := Some (JS.lit "2024-02-01");
            User.lastKnownLocation := None;
            User.checkInHistory := [];
            User.status := unknown;
            User.missingSince := None;
            User.dangerZone := None |})];
     State.made := 3 |}.
End Scenario.

(** * Properties *)

(** ** The calendar *)

Section Calendar.
Import DateFn.

Lemma DayFromYear_succ y : DayFromYear (y + 1) = DayFromYear y + DaysInYear y.
Proof.
  unfold DayFromYear, DaysInYear.
  repeat match goal with
         | |- context [ (?a =? ?b)%Z ] => destruct (Z.eqb_spec a b)
         end; cbn [negb]; Z.div_mod_to_equations; lia.
Qed.

Lemma DaysInYear_range y : 365 <= DaysInYear y <= 366.
Proof.
  unfold DaysInYear.
  repeat match goal with
         | |- context [ (?a =? ?b)%Z ] => destruct (Z.eqb_spec a b)
         end; cbn [negb]; lia.
Qed.

Lemma YearFromDay_spec d :
  DayFromYear (YearFromDay d) <= d < DayFromYear (YearFromDay d + 1).
Proof.
  unfold YearFromDay.
  set (y := 1970 + d * 400 / 146097).
  assert (Hlo : DayFromYear (y - 1) <= d).
  { subst y. unfold DayFromYear. Z.div_mod_to_equations. lia. }
  assert (Hhi : d < DayFromYear (y + 1 + 1)).
  { subst y. unfold DayFromYear. Z.div_mod_to_equations. lia. }
  destruct (Z.ltb_spec d (DayFromYear y)).
  - replace (y - 1 + 1) with y by lia. lia.
  - destruct (Z.leb_spec (DayFromYear (y + 1)) d); lia.
Qed.

Lemma DayFromYear_mono y1 y2 : y1 <= y2 -> DayFromYear y1 <= DayFromYear y2.
Proof. unfold DayFromYear. intros. Z.div_mod_to_equations. lia. Qed.

(** The year of a day is the only year whose days include it. *)
Lemma YearFromDay_unique d y :
  DayFromYear y <= d < DayFromYear (y + 1) -> YearFromDay d = y.
Proof.
  intros Hy. pose proof (YearFromDay_spec d) as Hs.
  destruct (Z.lt_trichotomy (YearFromDay d) y) as [Hlt | [Heq | Hgt]]; [| exact Heq |].
  - pose proof (DayFromYear_mono (YearFromDay d + 1) y). lia.
  - pose proof (DayFromYear_mono (y + 1) (YearFromDay d)). lia.
Qed.

Lemma DayWithinYear_range t :
  0 <= DayWithinYear t < DaysInYear (YearFromTime t).
Proof.
  unfold DayWithinYear, YearFromTime.
  pose proof (YearFromDay_spec (Day t)) as Hs.
  rewrite DayFromYear_succ in Hs. lia.
Qed.

Lemma InLeapYear_DaysInYear t : DaysInYear (YearFromTime t) = 365 + InLeapYear t.
Proof.
  unfold InLeapYear. pose proof (DaysInYear_range (YearFromTime t)).
  destruct (Z.eqb_spec (DaysInYear (YearFromTime t)) 366); lia.
Qed.

Lemma InLeapYear_range t : 0 <= InLeapYear t <= 1.
Proof. pose proof (InLeapYear_DaysInYear t). pose proof (DaysInYear_range (YearFromTime t)). lia. Qed.

Ltac month_cases :=
  unfold monthOf;
  repeat match goal with
         | |- context [ (?a <? ?b)%Z ] => destruct (Z.ltb_spec a b)
         end.

Lemma monthOf_range dwy leap : 0 <= monthOf dwy leap <= 11.
Proof. month_cases; lia. Qed.

Lemma MonthFromTime_range t : 0 <= MonthFromTime t <= 11.
Proof. apply monthOf_range. Qed.

Lemma dateOf_range dwy leap :
  0 <= leap <= 1 -> 0 <= dwy < 365 + leap -> 1 <= dateOf dwy leap <= 31.
Proof. unfold dateOf. intros. month_cases; cbn [monthStart]; lia. Qed.

Lemma dateOf_pred dwy leap :
  0 <= leap <= 1 -> 1 <= dwy < 365 + leap -> dateOf (dwy - 1) leap <> dateOf dwy leap.
Proof.
  unfold dateOf. intros Hl Hd.
  unfold monthOf;
  repeat match goal with
         | |- context [ (?a <? ?b)%Z ] => destruct (Z.ltb_spec a b); try lia
         end; cbn [monthStart]; lia.
Qed.

Lemma DateFromTime_range t : 1 <= DateFromTime t <= 31.
Proof.
  unfold DateFromTime, MonthFromTime. apply dateOf_range.
  - apply InLeapYear_range.
  - pose proof (DayWithinYear_range t). rewrite InLeapYear_DaysInYear in *. lia.
Qed.

Lemma MakeDay_own t dt :
  MakeDay (YearFromTime t) (MonthFromTime t) dt = Day t + (dt - DateFromTime t).
Proof.
  pose proof (MonthFromTime_range t) as Hm.
  unfold MakeDay.
  replace (MonthFromTime t / 12) with 0 by (Z.div_mod_to_equations; lia).
  replace (MonthFromTime t mod 12) with (MonthFromTime t) by (Z.div_mod_to_equations; lia).
  rewrite Z.add_0_r. fold (InLeapYear t).
  unfold DateFromTime, DayWithinYear. lia.
Qed.

(** [d.setUTCDate(d.getUTCDate() - 1)] moves the time value one day back. *)
Lemma setUTCDate_yesterday t : setUTCDate t (getUTCDate t - 1) = t - msPerDay.
Proof.
  unfold setUTCDate, getUTCDate. rewrite MakeDay_own.
  unfold MakeDate, Day, TimeWithinDay, msPerDay. Z.div_mod_to_equations. lia.
Qed.

Lemma Day_yesterday t : Day (t - msPerDay) = Day t - 1.
Proof. unfold Day, msPerDay. Z.div_mod_to_equations. lia. Qed.

(** Two consecutive days never have the same day of the month. *)
Lemma DateFromTime_yesterday t : DateFromTime (t - msPerDay) <> DateFromTime t.
Proof.
  pose proof (DayWithinYear_range t) as Hr.
  pose proof (InLeapYear_range t) as Hl.
  rewrite InLeapYear_DaysInYear in Hr.
  destruct (Z.eq_dec (DayWithinYear t) 0) as [H0 | Hpos].
  - (* the first of January follows the 31st of December *)
    assert (Hy : YearFromTime (t - msPerDay) = YearFromTime t - 1).
    { unfold DayWithinYear, YearFromTime in *.
      apply YearFromDay_unique. rewrite Day_yesterday.
      pose proof (DayFromYear_succ (YearFromDay (Day t) - 1)) as Hs.
      pose proof (DaysInYear_range (YearFromDay (Day t) - 1)).
      replace (YearFromDay (Day t) - 1 + 1) with (YearFromDay (Day t)) in * by lia.
      lia. }
    pose proof (DayWithinYear_range (t - msPerDay)) as Hr'.
    pose proof (InLeapYear_range (t - msPerDay)) as Hl'.
    rewrite InLeapYear_DaysInYear in Hr'.
    assert (Hd : DayWithinYear (t - msPerDay) = 364 + InLeapYear (t - msPerDay)).
    { pose proof (InLeapYear_DaysInYear (t - msPerDay)) as Hn.
      pose proof (DayFromYear_succ (YearFromTime t - 1)) as Hs.
      replace (YearFromTime t - 1 + 1) with (YearFromTime t) in Hs by lia.
      unfold DayWithinYear in *. rewrite Day_yesterday, Hy in *. lia. }
    unfold DateFromTime, MonthFromTime. rewrite Hd, H0.
    unfold monthOf.
    repeat match goal with
           | |- context [ (?a <? ?b)%Z ] => destruct (Z.ltb_spec a b); try lia
           end; cbn [monthStart]; lia.
  - assert (Hy : YearFromTime (t - msPerDay) = YearFromTime t).
    { unfold YearFromTime. apply YearFromDay_unique. rewrite Day_yesterday.
      pose proof (YearFromDay_spec (Day t)).
      unfold DayWithinYear, YearFromTime in *. lia. }
    assert (Hl2 : InLeapYear (t - msPerDay) = InLeapYear t).
    { unfold InLeapYear. now rewrite Hy. }
    assert (Hd : DayWithinYear (t - msPerDay) = DayWithinYear t - 1).
    { unfold DayWithinYear. rewrite Day_yesterday, Hy. lia. }
    unfold DateFromTime, MonthFromTime. rewrite Hl2, Hd.
    apply dateOf_pred; lia.
Qed.

End Calendar.

Section DayKeys.
Import DateFn.

Lemma pad2_reads_days : forallb pad2_reads (map Z.of_nat (seq 1 31)) = true.
Proof. vm_compute. reflexivity. Qed.

Lemma pad2_day n :
  1 <= n <= 31 ->
  exists a b, Time.pad2 n = [a; b] /\ n = 10 * (Z.of_N a - 48) + (Z.of_N b - 48).
Proof.
  intros Hn.
  assert (Hin : In n (map Z.of_nat (seq 1 31))).
  { apply in_map_iff. exists (Z.to_nat n). split; [lia |]. apply in_seq. lia. }
  pose proof pad2_reads_days as Hall. rewrite forallb_forall in Hall.
  specialize (Hall n Hin). unfold pad2_reads in Hall.
  destruct (Time.pad2 n) as [| a [| b [| c r]]]; try discriminate.
  exists a, b. split; [reflexivity | lia].
Qed.

(** The day key of a time value ends with the two digits of its day of
    the month. *)
Lemma utcDayKey_split t :
  exists prefix, Time.utcDayKey t = prefix ++ Time.pad2 (DateFromTime t).
Proof.
  unfold Time.utcDayKey, getUTCDate.
  eexists. rewrite !app_assoc. reflexivity.
Qed.

(** Yesterday's day key is never today's. *)
Lemma utcYesterdayDayKey_ne now : Time.utcYesterdayDayKey now <> Time.utcDayKey now.
Proof.
  unfold Time.utcYesterdayDayKey. rewrite setUTCDate_yesterday.
  destruct (utcDayKey_split (now - msPerDay)) as [p1 E1].
  destruct (utcDayKey_split now) as [p2 E2].
  rewrite E1, E2. intros Heq.
  destruct (pad2_day _ (DateFromTime_range (now - msPerDay))) as (a1 & b1 & P1 & D1).
  destruct (pad2_day _ (DateFromTime_range now)) as (a2 & b2 & P2 & D2).
  rewrite P1, P2 in Heq.
  apply app_inj_2 in Heq; [| reflexivity].
  destruct Heq as [_ Heq]. injection Heq as -> ->.
  apply (DateFromTime_yesterday now). lia.
Qed.

End DayKeys.

(** ** The map of users *)

Section UserMapFacts.
Implicit Types (m : UserMap.t) (k : jsstring) (v u : User.t).

Lemma get_set_eq m k v : UserMap.get (UserMap.set m k v) k = Some v.
Proof.
  induction m as [| [k' v'] r IH]; simpl.
  - destruct (decide (k = k)); congruence.
  - destruct (decide (k' = k)) as [-> | Hne]; simpl.
    + destruct (decide (k = k)); congruence.
    + destruct (decide (k' = k)); congruence.
Qed.

Lemma get_set_ne m k k' v : k <> k' -> UserMap.get (UserMap.set m k v) k' = UserMap.get m k'.
Proof.
  intros Hne. induction m as [| [k0 v0] r IH]; simpl.
  - destruct (decide (k = k')); congruence.
  - destruct (decide (k0 = k)) as [-> | Hk]; simpl.
    + destruct (decide (k = k')); congruence.
    + destruct (decide (k0 = k')); congruence.
Qed.

Lemma get_None m k : UserMap.get m k = None <-> ~ In k (UserMap.keys m).
Proof.
  induction m as [| [k0 v0] r IH]; simpl; [tauto |].
  destruct (decide (k0 = k)) as [-> | Hk].
  - split; [discriminate | tauto].
  - rewrite IH. tauto.
Qed.

Lemma get_In m k v : UserMap.get m k = Some v -> In (k, v) m.
Proof.
  induction m as [| [k0 v0] r IH]; simpl; [discriminate |].
  destruct (decide (k0 = k)) as [-> | Hk]; [intros [= ->]; now left | auto].
Qed.

Lemma keys_set_present m k u v :
  UserMap.get m k = Some u -> UserMap.keys (UserMap.set m k v) = UserMap.keys m.
Proof.
  induction m as [| [k0 v0] r IH]; simpl; [discriminate |].
  destruct (decide (k0 = k)) as [-> | Hk]; simpl; [reflexivity |].
  intros H. now rewrite IH.
Qed.

Lemma keys_set_absent m k v :
  UserMap.get m k = None -> UserMap.keys (UserMap.set m k v) = UserMap.keys m ++ [k].
Proof.
  induction m as [| [k0 v0] r IH]; simpl; [reflexivity |].
  destruct (decide (k0 = k)) as [-> | Hk]; simpl; [discriminate |].
  intros H. now rewrite IH.
Qed.

Lemma NoDup_keys_set m k v :
  NoDup (UserMap.keys m) -> NoDup (UserMap.keys (UserMap.set m k v)).
Proof.
  intros Hnd. destruct (UserMap.get m k) as [u |] eqn:Hg.
  - now rewrite (keys_set_present _ _ _ _ Hg).
  - rewrite (keys_set_absent _ _ _ Hg). apply NoDup_app. split; [assumption |].
    split; [| apply NoDup_singleton].
    intros x Hx Hx'. apply list_elem_of_singleton in Hx'. subst x.
    apply get_None in Hg. apply Hg. now apply list_elem_of_In.
Qed.

Lemma Forall_set (P : jsstring * User.t -> Prop) m k v :
  Forall P m -> P (k, v) -> Forall P (UserMap.set m k v).
Proof.
  intros Hm Hv. induction Hm as [| [k0 v0] r H0 Hr IH]; simpl.
  - constructor; [assumption | constructor].
  - destruct (decide (k0 = k)); constructor; assumption.
Qed.

Lemma set_get_id m k u : UserMap.get m k = Some u -> UserMap.set m k u = m.
Proof.
  induction m as [| [k0 v0] r IH]; simpl; [discriminate |].
  destruct (decide (k0 = k)) as [-> | Hk]; [now intros [= ->] |].
  intros H. now rewrite IH.
Qed.

Lemma set_set m k u v : UserMap.set (UserMap.set m k u) k v = UserMap.set m k v.
Proof.
  induction m as [| [k0 v0] r IH]; simpl.
  - destruct (decide (k = k)); congruence.
  - destruct (decide (k0 = k)) as [-> | Hk]; simpl.
    + destruct (decide (k = k)); congruence.
    + destruct (decide (k0 = k)); congruence.
Qed.

End UserMapFacts.

(** ** The rolling history *)

Section History.
Implicit Types (h : list HistoryEntry.t) (e : HistoryEntry.t).

Lemma historyKeys_lookup h i e :
  h !! i = Some e -> historyKeys h !! i = Some (HistoryEntry.dayKey e).
Proof. intros Hi. unfold historyKeys. now rewrite list_lookup_fmap, Hi. Qed.

Lemma historyKeys_elem h key :
  key ∈ historyKeys h ->
  exists i e, h !! i = Some e /\ HistoryEntry.dayKey e = key.
Proof.
  unfold historyKeys. intros Hin. apply list_elem_of_fmap in Hin as (e & He & Hin).
  apply list_elem_of_lookup in Hin as [i Hi]. eauto.
Qed.

(** The entry that one call of [pushCheckInHistory] files. *)
Variables (dayKey : jsstring) (at_ : Date).
Variables (location : option Location.t) (note : option jsstring).

Let entry : HistoryEntry.t := newEntry dayKey at_ location note.

Lemma pushCheckInHistory_upsert h :
  pushCheckInHistory h dayKey at_ location note =
    let h' := upsert h dayKey at_ location note in
    if decide (21 < length h')%nat then drop (length h' - 21)%nat h' else h'.
Proof. reflexivity. Qed.

Lemma pushCheckInHistory_length h :
  (length (pushCheckInHistory h dayKey at_ location note) <= 21)%nat.
Proof.
  rewrite pushCheckInHistory_upsert. cbv zeta.
  destruct (decide _); [rewrite length_drop |]; lia.
Qed.

Lemma upsert_found h i e :
  NoDup (historyKeys h) ->
  h !! i = Some e -> HistoryEntry.dayKey e = dayKey ->
  upsert h dayKey at_ location note = <[i := entry]> h.
Proof.
  intros Hnd Hi He. unfold upsert.
  destruct (list_find _ h) as [[j x] |] eqn:Hf.
  - apply list_find_Some in Hf as (Hj & Hx & _).
    assert (j = i) as ->; [| reflexivity].
    apply historyKeys_lookup in Hj, Hi. rewrite Hx in Hj. rewrite He in Hi.
    eapply NoDup_lookup; eassumption.
  - apply list_find_None in Hf. rewrite Forall_forall in Hf.
    exfalso. apply (Hf e); [| assumption].
    apply list_elem_of_lookup. eauto.
Qed.

Lemma upsert_keys_found h i e :
  NoDup (historyKeys h) ->
  h !! i = Some e -> HistoryEntry.dayKey e = dayKey ->
  historyKeys (upsert h dayKey at_ location note) = historyKeys h.
Proof.
  intros Hnd Hi He. rewrite (upsert_found h i e) by assumption.
  unfold historyKeys. rewrite list_fmap_insert. apply list_insert_id.
  rewrite list_lookup_fmap, Hi. simpl. now rewrite He.
Qed.

Lemma upsert_absent h :
  dayKey ∉ historyKeys h -> upsert h dayKey at_ location note = h ++ [entry].
Proof.
  intros Hn. unfold upsert.
  destruct (list_find _ h) as [[j x] |] eqn:Hf; [| reflexivity].
  apply list_find_Some in Hf as (Hj & Hx & _).
  exfalso. apply Hn. unfold historyKeys. apply list_elem_of_fmap. exists x.
  split; [now symmetry |]. apply list_elem_of_lookup. eauto.
Qed.

Lemma upsert_NoDup h :
  NoDup (historyKeys h) -> NoDup (historyKeys (upsert h dayKey at_ location note)).
Proof.
  intros Hnd. destruct (decide (dayKey ∈ historyKeys h)) as [Hin | Hn].
  - destruct (historyKeys_elem _ _ Hin) as (i & e & Hi & He).
    now rewrite (upsert_keys_found h i e).
  - rewrite upsert_absent by assumption. unfold historyKeys.
    rewrite fmap_app. simpl. apply NoDup_app. split; [assumption |].
    split; [| apply NoDup_singleton].
    intros x Hx Hx'. apply list_elem_of_singleton in Hx'. now subst x.
Qed.

Lemma pushCheckInHistory_NoDup h :
  NoDup (historyKeys h) ->
  NoDup (historyKeys (pushCheckInHistory h dayKey at_ location note)).
Proof.
  intros Hnd. rewrite pushCheckInHistory_upsert. cbv zeta.
  pose proof (upsert_NoDup h Hnd) as Hu.
  destruct (decide _); [| assumption].
  unfold historyKeys in *. rewrite fmap_drop.
  eapply sublist_NoDup; [exact Hu | apply sublist_drop].
Qed.

(** On a day that the history already records, the entry of that day is
    overwritten where it stands. *)
Lemma pushCheckInHistory_replace h i e :
  (length h <= 21)%nat -> NoDup (historyKeys h) ->
  h !! i = Some e -> HistoryEntry.dayKey e = dayKey ->
  pushCheckInHistory h dayKey at_ location note
  = <[i := newEntry dayKey at_ location note]> h.
Proof.
  intros Hlen Hnd Hi He. rewrite pushCheckInHistory_upsert. cbv zeta.
  rewrite (upsert_found h i e) by assumption.
  rewrite length_insert. destruct (decide _); [lia | reflexivity].
Qed.

(** The entry of a check-in is in the history that the check-in leaves:
    where the entry of the day stood, or at the end. *)
Lemma pushCheckInHistory_records h :
  (length h <= 21)%nat -> NoDup (historyKeys h) ->
  exists i, pushCheckInHistory h dayKey at_ location note !! i
            = Some (newEntry dayKey at_ location note).
Proof.
  intros Hlen Hnd.
  destruct (decide (dayKey ∈ historyKeys h)) as [Hin | Hn].
  - destruct (historyKeys_elem _ _ Hin) as (i & e & Hi & He).
    exists i. rewrite (pushCheckInHistory_replace h i e) by assumption.
    apply list_lookup_insert_eq. eapply lookup_lt_Some; eauto.
  - rewrite pushCheckInHistory_upsert. cbv zeta. rewrite upsert_absent by assumption.
    set (h' := h ++ _). destruct (decide _).
    + exists 20%nat. rewrite lookup_drop. subst h'. rewrite length_app in *. simpl in *.
      replace (length h + 1 - 21 + 20)%nat with (length h + 0)%nat by lia.
      now rewrite lookup_app_r, Nat.add_0_r, Nat.sub_diag by lia.
    + exists (length h). subst h'.
      now rewrite lookup_app_r, Nat.sub_diag by lia.
Qed.

End History.

(** ** One request at a time *)

Section Requests.

Lemma getOrCreateUser_Throw state userId name :
  userKey userId = [] ->
  getOrCreateUser state userId name = Throw (JS.lit "userId is required").
Proof. intros H. unfold getOrCreateUser. now rewrite H. Qed.

Lemma getOrCreateUser_Ok state userId name :
  userKey userId <> [] ->
  getOrCreateUser state userId name
  = Ok (withUser state (userKey userId) (resolved state userId name),
        resolved state userId name).
Proof.
  intros H. unfold getOrCreateUser, resolved, withUser.
  destruct (userKey userId) as [| c r] eqn:Hk; [congruence |].
  destruct (UserMap.get _ _) as [u |] eqn:Hg; [| reflexivity].
  destruct (JS.truthy name); [reflexivity |].
  rewrite (set_get_id _ _ _ Hg). now destruct state.
Qed.

Lemma checkIn_Throw state payload now :
  userKey (Payload.userId payload) = [] ->
  checkIn state payload now = Throw (JS.lit "userId is required").
Proof. intros H. unfold checkIn. now rewrite getOrCreateUser_Throw. Qed.

Lemma checkIn_Ok state payload now :
  userKey (Payload.userId payload) <> [] ->
  let user := resolved state (Payload.userId payload) (Payload.name payload) in
  checkIn state payload now
  = Ok (withUser state (userKey (Payload.userId payload)) (checkedIn user payload now),
        checkedIn user payload now).
Proof.
  intros H user. unfold checkIn. rewrite getOrCreateUser_Ok by assumption.
  fold user. unfold withUser. cbn [State.users State.made].
  now rewrite set_set.
Qed.

(** A request either throws, and then the key is empty, or returns. *)
Lemma checkIn_inv state payload now state' user' :
  checkIn state payload now = Ok (state', user') ->
  userKey (Payload.userId payload) <> []
  /\ user' = checkedIn (resolved state (Payload.userId payload) (Payload.name payload))
               payload now
  /\ state' = withUser state (userKey (Payload.userId payload)) user'.
Proof.
  intros H. destruct (decide (userKey (Payload.userId payload) = [])) as [He | Hne].
  - rewrite checkIn_Throw in H by assumption. discriminate.
  - rewrite checkIn_Ok in H by assumption. cbv zeta in H. injection H as <- <-. auto.
Qed.

Lemma getOrCreateUser_inv state userId name state' user' :
  getOrCreateUser state userId name = Ok (state', user') ->
  userKey userId <> []
  /\ user' = resolved state userId name
  /\ state' = withUser state (userKey userId) user'.
Proof.
  intros H. destruct (decide (userKey userId = [])) as [He | Hne].
  - rewrite getOrCreateUser_Throw in H by assumption. discriminate.
  - rewrite getOrCreateUser_Ok in H by assumption. injection H as <- <-. auto.
Qed.

(** *** Any request *)

Lemma Raw_userKey_valueOf userId : Raw.userKey (valueOf userId) = userKey userId.
Proof. now destruct userId as [[| c r] |]. Qed.

Lemma Raw_asLocation_Returns input newLocation :
  Raw.asLocation input = Raw.Returns newLocation ->
  asLocation (locationOf input) = newLocation.
Proof.
  destruct input as [[[lat |] [lng |]] |]; cbn; try discriminate;
    [| now intros [= <-]].
  destruct (negb _ || negb _); now intros [= <-].
Qed.

Lemma Raw_normalizeCheckInNote_Returns value note :
  Raw.normalizeCheckInNote value = Raw.Returns note ->
  normalizeCheckInNote (stringOf value) = note.
Proof.
  unfold Raw.normalizeCheckInNote, normalizeCheckInNote.
  destruct value as [| [s |]]; cbn [Raw.stringOr stringOf JS.orElse]; try discriminate.
  - cbn. now intros [= <-].
  - replace (JS.trim match s with [] => [] | c :: r => c :: r end) with (JS.trim s)
      by now destruct s.
    destruct (JS.trim s); now intros [= <-].
Qed.

Lemma Raw_getOrCreateUser_eq state userId name :
  Raw.getOrCreateUser state userId name
  = match Raw.stringOr userId [] with
    | Raw.Throws e => Raw.Throws e
    | Raw.Returns _ =>
        match Raw.userKey userId with
        | [] => Raw.Throws (Raw.Error (JS.lit "userId is required"))
        | _ :: _ =>
            match name with
            | Raw.Truthy None => Raw.Throws Raw.Conversion
            | _ =>
                Raw.Returns
                  (withUser state (Raw.userKey userId) (resolvedRaw state userId name),
                   resolvedRaw state userId name)
            end
        end
    end.
Proof.
  unfold Raw.getOrCreateUser, resolvedRaw, Raw.userKey, withUser.
  destruct (Raw.stringOr userId []) as [s | e]; [| reflexivity].
  destruct (JS.trim s) as [| c r] eqn:Hk; [reflexivity |].
  destruct (UserMap.get _ _) as [u |] eqn:Hg.
  - destruct name as [| [n |]]; try reflexivity.
    rewrite (set_get_id _ _ _ Hg). now destruct state.
  - destruct name as [| [n |]]; reflexivity.
Qed.

(** The three places where a check-in can stop, and what it leaves at
    each. *)
Lemma Raw_checkIn_eq state request now :
  Raw.checkIn state (Some request) now
  = match Raw.getOrCreateUser state (Raw.userId request) (Raw.name request) with
    | Raw.Throws e => (state, Raw.Throws e)
    | Raw.Returns _ =>
        let key := Raw.userKey (Raw.userId request) in
        let user := resolvedRaw state (Raw.userId request) (Raw.name request) in
        match Raw.asLocation (Raw.location request) with
        | Raw.Throws e => (withUser state key user, Raw.Throws e)
        | Raw.Returns newLocation =>
            match Raw.normalizeCheckInNote (Raw.note request) with
            | Raw.Throws e => (withUser state key (located user newLocation), Raw.Throws e)
            | Raw.Returns _ =>
                (withUser state key (checkedIn user (converted request) now),
                 Raw.Returns (checkedIn user (converted request) now))
            end
        end
    end.
Proof.
  unfold Raw.checkIn.
  destruct (Raw.getOrCreateUser _ _ _) as [[state' user'] | e] eqn:Hg; [| reflexivity].
  rewrite Raw_getOrCreateUser_eq in Hg.
  assert (Hs : state' = withUser state (Raw.userKey (Raw.userId request))
                          (resolvedRaw state (Raw.userId request) (Raw.name request))
               /\ user' = resolvedRaw state (Raw.userId request) (Raw.name request)).
  { destruct (Raw.stringOr _ _); [| discriminate Hg].
    destruct (Raw.userKey _); [discriminate Hg |].
    destruct (Raw.name request) as [| [nm |]]; try discriminate Hg;
      now injection Hg as <- <-. }
  destruct Hs as [-> ->]. cbv zeta.
  destruct (Raw.asLocation _) as [newLocation | e] eqn:Hl; [| reflexivity].
  apply Raw_asLocation_Returns in Hl.
  destruct (Raw.normalizeCheckInNote _) as [note | e] eqn:Hn.
  - apply Raw_normalizeCheckInNote_Returns in Hn.
    unfold checkedIn. cbn [converted Payload.location Payload.note]. rewrite Hl, Hn.
    unfold withUser, located.
    destruct newLocation;
      cbn [State.users State.made setLocation User.id User.name User.streak
           User.lastCheckInDayKey User.lastKnownLocation User.checkInHistory];
      rewrite ?set_set; reflexivity.
  - unfold withUser, located.
    destruct newLocation; cbn [State.users State.made]; rewrite ?set_set; reflexivity.
Qed.

(** On a request of strings and numbers, [checkIn] is the function of the
    first part. *)
Lemma resolvedRaw_valueOf state userId name :
  resolvedRaw state (valueOf userId) (valueOf name) = resolved state userId name.
Proof.
  unfold resolvedRaw, resolved. rewrite Raw_userKey_valueOf.
  destruct (UserMap.get _ _); now destruct name as [[| c r] |].
Qed.

Lemma checkedIn_bodyOf user payload now :
  checkedIn user (converted (bodyOf payload)) now = checkedIn user payload now.
Proof.
  assert (Hl : asLocation (Payload.location (converted (bodyOf payload)))
               = asLocation (Payload.location payload)).
  { cbn [converted bodyOf Payload.location Raw.location].
    now destruct (Payload.location payload) as [[lat lng] |]. }
  assert (Hn : normalizeCheckInNote (Payload.note (converted (bodyOf payload)))
               = normalizeCheckInNote (Payload.note payload)).
  { cbn [converted bodyOf Payload.note Raw.note].
    now destruct (Payload.note payload) as [[| c r] |]. }
  unfold checkedIn. now rewrite Hl, Hn.
Qed.

Lemma Raw_checkIn_bodyOf state payload now :
  Raw.checkIn state (Some (bodyOf payload)) now
  = match checkIn state payload now with
    | Ok (state', user') => (state', Raw.Returns user')
    | Throw message => (state, Raw.Throws (Raw.Error message))
    end.
Proof.
  rewrite Raw_checkIn_eq, Raw_getOrCreateUser_eq.
  cbn [bodyOf Raw.userId Raw.name Raw.location Raw.note].
  rewrite Raw_userKey_valueOf, resolvedRaw_valueOf.
  destruct (decide (userKey (Payload.userId payload) = [])) as [He | Hne].
  - rewrite checkIn_Throw by assumption. rewrite He.
    now destruct (Payload.userId payload) as [[| c r] |].
  - rewrite checkIn_Ok by assumption. cbv zeta.
    assert (Hs : exists s, Raw.stringOr (valueOf (Payload.userId payload)) [] = Raw.Returns s)
      by (destruct (Payload.userId payload) as [[| c r] |]; cbn; eauto).
    destruct Hs as [s ->].
    destruct (userKey (Payload.userId payload)) as [| c r] eqn:Hk; [congruence |].
    assert (Hnm : forall A (a b : A),
               match valueOf (Payload.name payload) with
               | Raw.Truthy None => a
               | _ => b
               end = b)
      by (intros; now destruct (Payload.name payload) as [[| c' r'] |]).
    rewrite Hnm.
    assert (Hl : exists l,
               Raw.asLocation
                 match Payload.location payload with
                 | Some l =>
                     Some {| Raw.lat := Some (Location.lat l); Raw.lng := Some (Location.lng l) |}
                 | None => None
                 end = Raw.Returns l).
    { destruct (Payload.location payload) as [l |]; cbn; [| eauto].
      destruct (negb _ || negb _); eauto. }
    destruct Hl as [l ->].
    assert (Hn : exists n,
               Raw.normalizeCheckInNote (valueOf (Payload.note payload)) = Raw.Returns n).
    { unfold Raw.normalizeCheckInNote.
      destruct (Payload.note payload) as [[| c' r'] |]; cbn [valueOf Raw.stringOr];
        try (cbn; eauto; fail).
      destruct (JS.trim (c' :: r')); eauto. }
    destruct Hn as [n ->].
    now rewrite <- (checkedIn_bodyOf _ payload).
Qed.

(** The state that a check-in leaves: the state it was given, or that
    state with the user of the request as one of the three stops has
    it. *)
Lemma Raw_checkIn_state state request now :
  fst (Raw.checkIn state request now) = state
  \/ exists body user',
       request = Some body
       /\ Raw.userKey (Raw.userId body) <> []
       /\ fst (Raw.checkIn state request now)
          = withUser state (Raw.userKey (Raw.userId body)) user'
       /\ let user := resolvedRaw state (Raw.userId body) (Raw.name body) in
          user' = user
          \/ user' = located user (asLocation (locationOf (Raw.location body)))
          \/ user' = checkedIn user (converted body) now.
Proof.
  destruct request as [[uid nm loc nt] |]; [| now left].
  rewrite Raw_checkIn_eq, Raw_getOrCreateUser_eq.
  cbn [Raw.userId Raw.name Raw.location Raw.note].
  destruct (Raw.stringOr uid []) as [s | e]; [| now left].
  destruct (Raw.userKey uid) as [| c r] eqn:Hk; [now left |].
  assert (Hne : Raw.userKey uid <> []) by (rewrite Hk; discriminate).
  rewrite <- Hk.
  destruct nm as [| [n |]]; cbv zeta; try (now left).
  all: destruct (Raw.asLocation loc) as [l | e] eqn:Hl;
    [apply Raw_asLocation_Returns in Hl;
     destruct (Raw.normalizeCheckInNote nt) as [note | e] |];
    cbn [fst]; right; eexists _, _; (split; [reflexivity |]);
    cbn [Raw.userId Raw.name Raw.location Raw.note];
    (split; [exact Hne |]); (split; [reflexivity |]); cbv zeta; rewrite ?Hl; auto.
Qed.

Lemma markMissing_fresh made user now reason :
  User.status user <> missing ->
  markMissing made user now reason = (S made, markedMissing made user now reason).
Proof.
  intros Hm. unfold markMissing, markedMissing, zoneOf.
  rewrite decide_False by assumption. cbn [makeId].
  now destruct (User.lastKnownLocation user).
Qed.

Lemma sweepUsers_cons k user rest made now :
  sweepUsers ((k, user) :: rest) made now
  = let r := sweepUsers rest (fst (sweepUser made user now)) now in
    ((k, snd (sweepUser made user now)) :: fst r, snd r).
Proof.
  cbn [sweepUsers]. fold (sweepUser made user now).
  destruct (sweepUser made user now) as [m u]. cbn [fst snd].
  now destruct (sweepUsers rest m now).
Qed.

Lemma sweepUser_made made user now :
  (made <= fst (sweepUser made user now) <= S made)%nat.
Proof.
  unfold sweepUser.
  destruct (decide _) as [Hm | Hm]; [simpl; lia |].
  destruct (Time.isOlderThanYesterdayDayKey _ _); [| simpl; lia].
  rewrite markMissing_fresh by assumption. simpl. lia.
Qed.

Lemma sweepUsers_made users made now :
  (made <= snd (sweepUsers users made now))%nat.
Proof.
  revert made. induction users as [| [k u] rest IH]; intros made; [simpl; lia |].
  rewrite sweepUsers_cons. cbn [snd].
  pose proof (sweepUser_made made u now).
  pose proof (IH (fst (sweepUser made u now))). lia.
Qed.

Lemma sweepUsers_keys users made now :
  UserMap.keys (fst (sweepUsers users made now)) = UserMap.keys users.
Proof.
  revert made. induction users as [| [k u] rest IH]; intros made; [reflexivity |].
  rewrite sweepUsers_cons. cbn [fst UserMap.keys map]. f_equal. apply IH.
Qed.

(** The swept map holds, at each position, the user of that position
    after its turn; the generator has by then advanced from [made] to
    some [n], and goes on to its final value. *)
Lemma sweepUsers_lookup users made now i k user :
  users !! i = Some (k, user) ->
  exists n, (made <= n)%nat
    /\ (fst (sweepUser n user now) <= snd (sweepUsers users made now))%nat
    /\ fst (sweepUsers users made now) !! i = Some (k, snd (sweepUser n user now)).
Proof.
  revert made i. induction users as [| [k0 u0] rest IH]; intros made i Hi; [discriminate |].
  rewrite sweepUsers_cons. cbn [fst snd].
  destruct i as [| i]; simpl in Hi.
  - injection Hi as -> ->. exists made. split; [lia |]. split; [| reflexivity].
    apply sweepUsers_made.
  - destruct (IH (fst (sweepUser made u0 now)) i Hi) as (n & Hn & Hm & Hl).
    exists n. pose proof (sweepUser_made made u0 now). split; [lia |]. auto.
Qed.

(** Two positions of the swept map: the generator value that the later
    turn starts from is the one that the earlier turn leaves, or a later
    one. *)
Lemma sweepUsers_lookup2 users made now i j ki ui kj uj :
  (i < j)%nat ->
  users !! i = Some (ki, ui) -> users !! j = Some (kj, uj) ->
  exists ni nj, (made <= ni)%nat
    /\ (fst (sweepUser ni ui now) <= nj)%nat
    /\ fst (sweepUsers users made now) !! i = Some (ki, snd (sweepUser ni ui now))
    /\ fst (sweepUsers users made now) !! j = Some (kj, snd (sweepUser nj uj now)).
Proof.
  revert made i j. induction users as [| [k0 u0] rest IH]; intros made i j Hij Hi Hj;
    [discriminate |].
  rewrite sweepUsers_cons. cbn [fst snd].
  destruct j as [| j]; [lia |]. simpl in Hj.
  destruct i as [| i]; simpl in Hi.
  - injection Hi as -> ->.
    destruct (sweepUsers_lookup rest (fst (sweepUser made ui now)) now _ _ _ Hj)
      as (n & Hn & _ & Hl).
    exists made, n. split; [lia |]. split; [exact Hn |]. split; [reflexivity | exact Hl].
  - destruct (IH (fst (sweepUser made u0 now)) i j ltac:(lia) Hi Hj)
      as (ni & nj & H1 & H2 & H3 & H4).
    exists ni, nj. pose proof (sweepUser_made made u0 now).
    split; [lia |]. split; [exact H2 |]. split; assumption.
Qed.

Lemma sweepUsers_length users made now :
  length (fst (sweepUsers users made now)) = length users.
Proof.
  pose proof (sweepUsers_keys users made now) as H.
  apply (f_equal (@length _)) in H. unfold UserMap.keys in H.
  now rewrite !length_map in H.
Qed.

(** The record that a turn of the loop leaves on a user is the one the
    user had, or a record whose id is the generator value of the turn. *)
Lemma sweepUser_dangerZone n user now dz :
  User.dangerZone (snd (sweepUser n user now)) = Some dz ->
  (User.dangerZone user = Some dz /\ fst (sweepUser n user now) = n)
  \/ (DangerZone.id dz = n /\ fst (sweepUser n user now) = S n).
Proof.
  unfold sweepUser. destruct (decide _) as [Hm | Hm]; [now left |].
  destruct (Time.isOlderThanYesterdayDayKey _ _); [| now left].
  rewrite markMissing_fresh by assumption. cbn [fst snd markedMissing User.dangerZone].
  intros [= <-]. now right.
Qed.

Lemma sweepUser_again made made' user now :
  sweepUser made' (snd (sweepUser made user now)) now
  = (made', snd (sweepUser made user now)).
Proof.
  unfold sweepUser at 2 3. destruct (decide (User.status user = missing)) as [Hm | Hm].
  - cbn [snd]. unfold sweepUser. now rewrite decide_True.
  - destruct (Time.isOlderThanYesterdayDayKey _ _) eqn:Ho.
    + rewrite markMissing_fresh by assumption. cbn [snd].
      unfold sweepUser. now rewrite decide_True.
    + cbn [snd]. unfold sweepUser. now rewrite decide_False, Ho.
Qed.

Lemma sweepUsers_again users made made' now :
  sweepUsers (fst (sweepUsers users made now)) made' now
  = (fst (sweepUsers users made now), made').
Proof.
  revert made made'. induction users as [| [k u] rest IH]; intros made made'; [reflexivity |].
  rewrite sweepUsers_cons. cbn [fst]. rewrite sweepUsers_cons.
  rewrite sweepUser_again. cbn [fst snd]. now rewrite IH.
Qed.

End Requests.

Section Invariant.

Lemma UserInv_made made made' entry :
  (made <= made')%nat -> UserInv made entry -> UserInv made' entry.
Proof.
  intros Hle [H1 H2 H3 H4 H5]. split; try assumption.
  intros dz Hdz. specialize (H5 dz Hdz). lia.
Qed.

Lemma Inv_lookup state k user :
  Inv state -> UserMap.get (State.users state) k = Some user ->
  UserInv (State.made state) (k, user).
Proof.
  intros [_ Hall] Hg. rewrite Forall_forall in Hall. apply Hall.
  apply list_elem_of_In. now apply get_In.
Qed.

Lemma Inv_withUser state k user :
  Inv state -> UserInv (State.made state) (k, user) -> Inv (withUser state k user).
Proof.
  intros [Hnd Hall] Hu. split; cbn [withUser State.users State.made].
  - now apply NoDup_keys_set.
  - now apply Forall_set.
Qed.

Lemma UserInv_resolved state userId name :
  Inv state ->
  UserInv (State.made state) (userKey userId, resolved state userId name).
Proof.
  intros HI. unfold resolved.
  destruct (UserMap.get _ _) as [u |] eqn:Hg.
  - pose proof (Inv_lookup _ _ _ HI Hg) as Hu.
    destruct (JS.truthy name); [| assumption].
    destruct Hu as [H1 H2 H3 H4 H5]. split; assumption.
  - split; cbn; try reflexivity; try lia; try discriminate.
    apply NoDup_nil_2.
Qed.

Lemma UserInv_resolvedRaw state userId name :
  Inv state ->
  UserInv (State.made state) (Raw.userKey userId, resolvedRaw state userId name).
Proof.
  intros HI. unfold resolvedRaw.
  destruct (UserMap.get _ _) as [u |] eqn:Hg.
  - pose proof (Inv_lookup _ _ _ HI Hg) as Hu.
    destruct name as [| [n |]]; try assumption.
    destruct Hu as [H1 H2 H3 H4 H5]. split; assumption.
  - split; cbn; try reflexivity; try lia; try discriminate.
    apply NoDup_nil_2.
Qed.

Lemma UserInv_located made k user newLocation :
  UserInv made (k, user) -> UserInv made (k, located user newLocation).
Proof.
  destruct newLocation as [l |]; [| auto].
  intros [H1 H2 H3 H4 H5]. split; cbn in *; try assumption.
  intros Hm. destruct (H4 Hm) as (dz & Hdz & _ & Hid).
  exists dz. split; [assumption |]. split; [discriminate | assumption].
Qed.

Lemma UserInv_checkedIn made k user payload now :
  UserInv made (k, user) -> UserInv made (k, checkedIn user payload now).
Proof.
  intros [H1 H2 H3 H4 H5]. split; cbn in *; try assumption; try discriminate.
  - apply pushCheckInHistory_length.
  - now apply pushCheckInHistory_NoDup.
Qed.

Lemma UserInv_sweepUser made n k user now :
  UserInv made (k, user) -> (made <= n)%nat ->
  UserInv (fst (sweepUser n user now)) (k, snd (sweepUser n user now)).
Proof.
  intros Hu Hle. unfold sweepUser.
  destruct (decide _) as [Hm | Hm]; cbn [fst snd]; [now apply (UserInv_made made) |].
  destruct (Time.isOlderThanYesterdayDayKey _ _); cbn [fst snd];
    [| now apply (UserInv_made made)].
  rewrite markMissing_fresh by assumption. cbn [fst snd].
  destruct Hu as [H1 H2 H3 H4 H5]. unfold markedMissing.
  split; cbn [fst snd User.id User.checkInHistory User.status User.dangerZone
              User.lastKnownLocation] in *; try assumption.
  - intros _. eexists. split; [reflexivity |]. split; [| reflexivity].
    cbn [zoneOf DangerZone.location]. auto.
  - intros dz [= <-]. cbn [zoneOf DangerZone.id]. lia.
Qed.

Lemma Forall_sweepUsers users made made0 now :
  (made0 <= made)%nat ->
  Forall (UserInv made0) users ->
  Forall (UserInv (snd (sweepUsers users made now))) (fst (sweepUsers users made now)).
Proof.
  intros Hle Hall. revert made Hle.
  induction Hall as [| [k u] rest Hu Hrest IH]; intros made Hle; [constructor |].
  rewrite sweepUsers_cons. cbn [fst snd]. constructor.
  - eapply UserInv_made; [| apply (UserInv_sweepUser made0); eassumption].
    apply sweepUsers_made.
  - apply IH. pose proof (sweepUser_made made u now). lia.
Qed.

(** No other record of the swept map has the id of a record that the
    sweep has just drawn. *)
Lemma sweepUsers_id_elsewhere users made now i j ki ui kj uj' dzj :
  Forall (UserInv made) users ->
  i <> j ->
  users !! i = Some (ki, ui) ->
  User.status ui <> missing ->
  Time.isOlderThanYesterdayDayKey (User.lastCheckInDayKey ui) now = true ->
  fst (sweepUsers users made now) !! j = Some (kj, uj') ->
  User.dangerZone uj' = Some dzj ->
  forall n,
    fst (sweepUsers users made now) !! i
    = Some (ki, markedMissing n ui now (JS.lit "streak-broken")) ->
    DangerZone.id dzj <> n.
Proof.
  intros Hall Hne Hi Hm Ho Hj Hdz n Hn.
  assert (Hturn : forall m, sweepUser m ui now
                            = (S m, markedMissing m ui now (JS.lit "streak-broken"))).
  { intros m. unfold sweepUser. rewrite decide_False, Ho by assumption.
    now apply markMissing_fresh. }
  assert (Hsame : forall m, fst (sweepUsers users made now) !! i
                            = Some (ki, snd (sweepUser m ui now)) -> m = n).
  { intros m Hl. rewrite Hl, Hturn in Hn. cbn [snd] in Hn.
    unfold markedMissing, zoneOf in Hn. now injection Hn. }
  destruct (users !! j) as [[kj0 uj] |] eqn:Hj0.
  2:{ apply lookup_ge_None in Hj0. apply lookup_lt_Some in Hj.
      rewrite sweepUsers_length in Hj. lia. }
  assert (Hold : User.dangerZone uj = Some dzj -> (DangerZone.id dzj < made)%nat).
  { intros Hd. rewrite Forall_forall in Hall.
    assert (Hin : (kj0, uj) ∈ users) by (apply list_elem_of_lookup; eauto).
    destruct (Hall _ Hin) as [_ _ _ _ H5]. now apply H5. }
  destruct (Nat.lt_total i j) as [Hlt | [Heq | Hgt]]; [| congruence |].
  - destruct (sweepUsers_lookup2 _ made now _ _ _ _ _ _ Hlt Hi Hj0)
      as (ni & nj & H1 & H2 & H3 & H4).
    apply Hsame in H3. subst ni. rewrite Hturn in H2. cbn [fst] in H2.
    rewrite H4 in Hj. injection Hj as _ <-.
    destruct (sweepUser_dangerZone _ _ _ _ Hdz) as [[Hd _] | [Hd _]];
      [specialize (Hold Hd) |]; lia.
  - destruct (sweepUsers_lookup2 _ made now _ _ _ _ _ _ Hgt Hj0 Hi)
      as (nj & ni & H1 & H2 & H3 & H4).
    apply Hsame in H4. subst ni.
    rewrite H3 in Hj. injection Hj as _ <-.
    pose proof (sweepUser_made nj uj now) as Hle.
    destruct (sweepUser_dangerZone _ _ _ _ Hdz) as [[Hd _] | [Hd Hf]];
      [specialize (Hold Hd) | rewrite Hf in H2]; lia.
Qed.

Lemma sweepForBrokenStreaks_eq state now :
  sweepForBrokenStreaks state now
  = {| State.users := fst (sweepUsers (State.users state) (State.made state) now);
       State.made := snd (sweepUsers (State.users state) (State.made state) now) |}.
Proof. unfold sweepForBrokenStreaks. now destruct (sweepUsers _ _ _). Qed.

Lemma Inv_sweep state now : Inv state -> Inv (sweepForBrokenStreaks state now).
Proof.
  intros [Hnd Hall]. rewrite sweepForBrokenStreaks_eq. split; cbn [State.users State.made].
  - now rewrite sweepUsers_keys.
  - now apply (Forall_sweepUsers _ _ (State.made state)).
Qed.

Lemma Inv_step state o : Inv state -> Inv (step state o).
Proof.
  intros HI. destruct o as [userId name | payload now | now | now | request now]; cbn [step].
  - destruct (getOrCreateUser _ _ _) as [[state' user'] | e] eqn:Hg; [| assumption].
    apply getOrCreateUser_inv in Hg as (_ & -> & ->).
    apply Inv_withUser; [assumption |]. now apply UserInv_resolved.
  - destruct (checkIn _ _ _) as [[state' user'] | e] eqn:Hc; [| assumption].
    apply checkIn_inv in Hc as (_ & -> & ->).
    apply Inv_withUser; [assumption |].
    apply UserInv_checkedIn. now apply UserInv_resolved.
  - now apply Inv_sweep.
  - unfold dangerZones. cbn [fst]. now apply Inv_sweep.
  - destruct (Raw_checkIn_state state request now)
      as [-> | (body & user' & _ & _ & -> & Hu)]; [assumption |].
    apply Inv_withUser; [assumption |].
    pose proof (UserInv_resolvedRaw state (Raw.userId body) (Raw.name body) HI) as Hr.
    destruct Hu as [-> | [-> | ->]];
      [assumption | now apply UserInv_located | now apply UserInv_checkedIn].
Qed.

Lemma Inv_run ops : Inv (run ops).
Proof.
  unfold run. assert (H0 : Inv createInitialState).
  { split; cbn; [apply NoDup_nil_2 | constructor]. }
  revert H0. generalize createInitialState.
  induction ops as [| o ops IH]; intros st Hst; [exact Hst |].
  cbn [fold_left]. apply IH. now apply Inv_step.
Qed.

End Invariant.

(** ** Shared facts about the operations *)

Section Operations.

Lemma utcDayKey_Day t1 t2 :
  DateFn.Day t1 = DateFn.Day t2 -> Time.utcDayKey t1 = Time.utcDayKey t2.
Proof.
  intros H.
  unfold Time.utcDayKey, DateFn.getUTCFullYear, DateFn.getUTCMonth, DateFn.getUTCDate,
    DateFn.DateFromTime, DateFn.MonthFromTime, DateFn.InLeapYear, DateFn.DayWithinYear,
    DateFn.YearFromTime.
  now rewrite H.
Qed.

(** The fields that a check-in reads, on the user that [getOrCreateUser]
    resolves: those of the stored participant, or those of a new one. *)
Lemma resolved_lastCheckInDayKey state userId name :
  User.lastCheckInDayKey (resolved state userId name)
  = UserMap.get (State.users state) (userKey userId) ≫= User.lastCheckInDayKey.
Proof.
  unfold resolved. destruct (UserMap.get _ _); [| reflexivity].
  now destruct (JS.truthy name).
Qed.

Lemma resolved_streak state userId name :
  User.streak (resolved state userId name)
  = from_option User.streak 0 (UserMap.get (State.users state) (userKey userId)).
Proof.
  unfold resolved. destruct (UserMap.get _ _); [| reflexivity].
  now destruct (JS.truthy name).
Qed.

Lemma resolved_lastKnownLocation state userId name :
  User.lastKnownLocation (resolved state userId name)
  = UserMap.get (State.users state) (userKey userId) ≫= User.lastKnownLocation.
Proof.
  unfold resolved. destruct (UserMap.get _ _); [| reflexivity].
  now destruct (JS.truthy name).
Qed.

Lemma resolved_checkInHistory state userId name :
  User.checkInHistory (resolved state userId name)
  = from_option User.checkInHistory []
      (UserMap.get (State.users state) (userKey userId)).
Proof.
  unfold resolved. destruct (UserMap.get _ _); [| reflexivity].
  now destruct (JS.truthy name).
Qed.

Lemma get_withUser state k user :
  UserMap.get (State.users (withUser state k user)) k = Some user.
Proof. apply get_set_eq. Qed.

Lemma resolved_present state userId name user :
  UserMap.get (State.users state) (userKey userId) = Some user ->
  resolved state userId name
  = if JS.truthy name then setName user (JS.slice0 60 (default [] name)) else user.
Proof. intros Hg. unfold resolved. now rewrite Hg. Qed.

(** A sweep leaves a user who is already missing where and as it is. *)
Lemma sweep_keeps_missing state now i k user :
  State.users state !! i = Some (k, user) -> User.status user = missing ->
  State.users (sweepForBrokenStreaks state now) !! i = Some (k, user).
Proof.
  intros Hi Hm. rewrite sweepForBrokenStreaks_eq. cbn [State.users].
  destruct (sweepUsers_lookup _ (State.made state) now _ _ _ Hi) as (n & _ & _ & Hl).
  rewrite Hl. unfold sweepUser. now rewrite decide_True.
Qed.

Lemma collectZones_elem users user dz :
  user ∈ users -> User.status user = missing -> User.dangerZone user = Some dz ->
  dz ∈ collectZones users.
Proof.
  intros Hin Hm Hdz. induction Hin as [user rest | user u0 rest Hin IH]; cbn [collectZones].
  - rewrite decide_True, Hdz by assumption. apply list_elem_of_here.
  - specialize (IH Hm Hdz).
    destruct (decide _); [destruct (User.dangerZone u0) |]; try assumption.
    now apply list_elem_of_further.
Qed.

(** *** Where a check-in on any request stops *)

Lemma resolvedRaw_lastKnownLocation state userId name :
  User.lastKnownLocation (resolvedRaw state userId name)
  = UserMap.get (State.users state) (Raw.userKey userId) ≫= User.lastKnownLocation.
Proof.
  unfold resolvedRaw. destruct (UserMap.get _ _); [| reflexivity].
  now destruct name as [| [n |]].
Qed.

Lemma Raw_userKey_blank userId :
  (exists s, Raw.stringOr userId [] = Raw.Returns s /\ JS.trim s = [])
  <-> userId <> Raw.Truthy None /\ Raw.userKey userId = [].
Proof.
  unfold Raw.userKey. destruct userId as [| [s |]]; cbn [Raw.stringOr].
  - split; [intros _; split; [discriminate | reflexivity] | intros _; now exists []].
  - split; [intros (s' & [= <-] & Ht); split; [discriminate | exact Ht]
           | intros [_ Ht]; now exists s].
  - split; [intros (s' & Hs & _); discriminate Hs | intros [Hc _]; now destruct Hc].
Qed.

Lemma Raw_getOrCreateUser_Throws state userId name e :
  Raw.getOrCreateUser state userId name = Raw.Throws e ->
  (e = Raw.Error (JS.lit "userId is required")
   /\ userId <> Raw.Truthy None /\ Raw.userKey userId = [])
  \/ (e = Raw.Conversion /\ Raw.userKey userId <> [] /\ name = Raw.Truthy None)
  \/ (e = Raw.Conversion /\ userId = Raw.Truthy None).
Proof.
  rewrite Raw_getOrCreateUser_eq.
  destruct userId as [| [s |]]; cbn [Raw.stringOr];
    [| | intros [= <-]; right; right; auto].
  all: destruct (Raw.userKey _) as [| c r] eqn:Hk;
    [intros [= <-]; left; repeat split; discriminate |].
  all: destruct name as [| [n |]]; try discriminate.
  all: intros [= <-]; right; left; repeat split; discriminate.
Qed.

Lemma Raw_getOrCreateUser_Returns state userId name :
  userId <> Raw.Truthy None -> Raw.userKey userId <> [] -> name <> Raw.Truthy None ->
  Raw.getOrCreateUser state userId name
  = Raw.Returns (withUser state (Raw.userKey userId) (resolvedRaw state userId name),
                 resolvedRaw state userId name).
Proof.
  intros Hu Hk Hn. rewrite Raw_getOrCreateUser_eq.
  destruct userId as [| [s |]]; cbn [Raw.stringOr]; [| | congruence].
  all: destruct (Raw.userKey _) as [| c r]; [congruence |].
  all: destruct name as [| [n |]]; congruence.
Qed.

Lemma Raw_asLocation_Throws input e :
  Raw.asLocation input = Raw.Throws e ->
  e = Raw.Conversion
  /\ exists c, input = Some c /\ (Raw.lat c = None \/ Raw.lng c = None).
Proof.
  destruct input as [[[lat |] [lng |]] |]; cbn; try discriminate.
  - destruct (negb _ || negb _); discriminate.
  - intros [= <-]. split; [reflexivity |]. eexists. split; [reflexivity |]. now right.
  - intros [= <-]. split; [reflexivity |]. eexists. split; [reflexivity |]. now left.
  - intros [= <-]. split; [reflexivity |]. eexists. split; [reflexivity |]. now left.
Qed.

Lemma Raw_normalizeCheckInNote_Throws value e :
  Raw.normalizeCheckInNote value = Raw.Throws e ->
  e = Raw.Conversion /\ value = Raw.Truthy None.
Proof.
  unfold Raw.normalizeCheckInNote.
  destruct value as [| [s |]]; cbn [Raw.stringOr].
  - destruct (JS.trim []); discriminate.
  - destruct (JS.trim s); discriminate.
  - now intros [= <-].
Qed.

Lemma converts_true request :
  converts request = true ->
  Raw.userId request <> Raw.Truthy None
  /\ Raw.name request <> Raw.Truthy None
  /\ Raw.note request <> Raw.Truthy None
  /\ forall c, Raw.location request = Some c -> Raw.lat c <> None /\ Raw.lng c <> None.
Proof.
  destruct request as [[| [u |]] [| [n |]] [[[lat |] [lng |]] |] [| [t |]]];
    cbn; try discriminate; intros _;
    do 3 (split; [discriminate |]);
    intros c' Hc; first [discriminate Hc | injection Hc as <-; split; discriminate].
Qed.

End Operations.

(** ** The design specification, claim by claim *)

(** C3. [isStale(lastDayKey, now)], which is [isOlderThanYesterdayDayKey],
    is false when [lastDayKey] is absent (what the test [!lastDayKey]
    takes as absent: [null], [undefined] or the empty string, which is
    no day key), false when it is the day key of [now] or of the day
    before, and true for every other value, day keys in the future
    included. *)
Theorem isOlderThanYesterdayDayKey_spec (lastDayKey : option jsstring) (now : Date) :
  Time.isOlderThanYesterdayDayKey None now = false
  /\ (JS.truthy lastDayKey = false ->
      Time.isOlderThanYesterdayDayKey lastDayKey now = false)
  /\ (lastDayKey = Some (Time.utcDayKey now)
      \/ lastDayKey = Some (Time.utcYesterdayDayKey now) ->
      Time.isOlderThanYesterdayDayKey lastDayKey now = false)
  /\ (JS.truthy lastDayKey = true ->
      lastDayKey <> Some (Time.utcDayKey now) ->
      lastDayKey <> Some (Time.utcYesterdayDayKey now) ->
      Time.isOlderThanYesterdayDayKey lastDayKey now = true).
Proof.
  unfold Time.isOlderThanYesterdayDayKey. repeat split.
  - intros ->. reflexivity.
  - intros [-> | ->]; destruct (JS.truthy _); cbn [negb]; try reflexivity.
    + now rewrite bool_decide_eq_true_2.
    + rewrite (bool_decide_eq_true_2
                 (Some (Time.utcYesterdayDayKey now) = Some (Time.utcYesterdayDayKey now)))
        by reflexivity.
      cbn [negb]. apply andb_false_r.
  - intros -> Ht Hy. cbn [negb]. now rewrite !bool_decide_eq_false_2.
Qed.

Lemma isOlderThanYesterdayDayKey_spec_witness :
  Time.isOlderThanYesterdayDayKey (Some (JS.lit "2999-12-31")) Scenario.day0 = true
  /\ Time.isOlderThanYesterdayDayKey (Some (JS.lit "2024-02-28")) Scenario.day0 = true
  /\ Time.isOlderThanYesterdayDayKey (Some (JS.lit "2024-02-29")) Scenario.day0 = false
  /\ Time.isOlderThanYesterdayDayKey (Some []) Scenario.day0 = false.
Proof.
  split; [| split; [| split]].
  - destruct (isOlderThanYesterdayDayKey_spec (Some (JS.lit "2999-12-31")) Scenario.day0)
      as (_ & _ & _ & H).
    apply H; vm_compute; congruence.
  - destruct (isOlderThanYesterdayDayKey_spec (Some (JS.lit "2024-02-28")) Scenario.day0)
      as (_ & _ & _ & H).
    apply H; vm_compute; congruence.
  - destruct (isOlderThanYesterdayDayKey_spec (Some (JS.lit "2024-02-29")) Scenario.day0)
      as (_ & _ & H & _).
    apply H. right. vm_compute. reflexivity.
  - destruct (isOlderThanYesterdayDayKey_spec (Some []) Scenario.day0) as (_ & H & _).
    apply H. reflexivity.
Defined.

(** C2. The streak after a check-in is decided by the [lastCheckInDayKey]
    that the participant had before the call (none for a participant that
    the call creates): equal to today's day key, the streak is unchanged;
    equal to yesterday's, it becomes [max(1, streak + 1)]; otherwise, absent
    or older, it becomes 1. The three cases exclude one another, since
    yesterday's day key is never today's. *)
Theorem checkIn_streak (state : State.t) (payload : Payload.t) (now : Date)
    (state' : State.t) (user' : User.t) :
  checkIn state payload now = Ok (state', user') ->
  let prev := UserMap.get (State.users state) (userKey (Payload.userId payload)) in
  let prevKey := prev ≫= User.lastCheckInDayKey in
  let streak := from_option User.streak 0 prev in
  UserMap.get (State.users state') (userKey (Payload.userId payload)) = Some user'
  /\ Time.utcYesterdayDayKey now <> Time.utcDayKey now
  /\ (prevKey = Some (Time.utcDayKey now) -> User.streak user' = streak)
  /\ (prevKey = Some (Time.utcYesterdayDayKey now) ->
      User.streak user' = Z.max 1 (streak + 1))
  /\ (prevKey <> Some (Time.utcDayKey now) ->
      prevKey <> Some (Time.utcYesterdayDayKey now) ->
      User.streak user' = 1).
Proof.
  intros Hc prev prevKey streak.
  apply checkIn_inv in Hc as (_ & Hu & ->).
  pose proof (utcYesterdayDayKey_ne now) as Hne.
  split; [apply get_withUser |]. split; [exact Hne |].
  rewrite Hu. cbn [checkedIn User.streak].
  rewrite resolved_lastCheckInDayKey, resolved_streak.
  fold prev. fold prevKey. fold streak.
  repeat split.
  - intros H. now rewrite decide_True.
  - intros H. rewrite decide_False, decide_True; [reflexivity | assumption |].
    rewrite H. congruence.
  - intros H1 H2. now rewrite !decide_False.
Qed.

Lemma checkIn_streak_witness :
  let state := run [OpCheckIn Scenario.p1 Scenario.day0] in
  (exists s u, checkIn state Scenario.p1 (Scenario.day0 + Scenario.hour) = Ok (s, u)
               /\ User.streak u = 1)
  /\ (exists s u, checkIn state Scenario.p1 (Scenario.day0 + Scenario.days 1) = Ok (s, u)
                  /\ User.streak u = 2)
  /\ (exists s u, checkIn state Scenario.p1 (Scenario.day0 + Scenario.days 3) = Ok (s, u)
                  /\ User.streak u = 1).
Proof.
  intros state. split; [| split].
  - destruct (checkIn state Scenario.p1 (Scenario.day0 + Scenario.hour))
      as [[s u] | e] eqn:H; [| vm_compute in H; discriminate H].
    exists s, u. split; [reflexivity |].
    destruct (checkIn_streak _ _ _ _ _ H) as (_ & _ & A & _).
    rewrite A; vm_compute; reflexivity.
  - destruct (checkIn state Scenario.p1 (Scenario.day0 + Scenario.days 1))
      as [[s u] | e] eqn:H; [| vm_compute in H; discriminate H].
    exists s, u. split; [reflexivity |].
    destruct (checkIn_streak _ _ _ _ _ H) as (_ & _ & _ & A & _).
    rewrite A; vm_compute; reflexivity.
  - destruct (checkIn state Scenario.p1 (Scenario.day0 + Scenario.days 3))
      as [[s u] | e] eqn:H; [| vm_compute in H; discriminate H].
    exists s, u. split; [reflexivity |].
    destruct (checkIn_streak _ _ _ _ _ H) as (_ & _ & _ & _ & A).
    apply A; vm_compute; congruence.
Defined.

(** C4. Every check-in that returns leaves the participant, whatever its
    state was before (missing, with a day key however old), with status
    ok, no [missingSince], no [dangerZone], [lastCheckInAt] equal to [now]
    and [lastCheckInDayKey] equal to the day key of [now]; the participant
    stored under the id is the one returned. *)
Theorem checkIn_clears (state : State.t) (payload : Payload.t) (now : Date)
    (state' : State.t) (user' : User.t) :
  checkIn state payload now = Ok (state', user') ->
  UserMap.get (State.users state') (userKey (Payload.userId payload)) = Some user'
  /\ User.status user' = ok
  /\ User.missingSince user' = None
  /\ User.dangerZone user' = None
  /\ User.lastCheckInAt user' = Some now
  /\ User.lastCheckInDayKey user' = Some (Time.utcDayKey now).
Proof.
  intros Hc. apply checkIn_inv in Hc as (_ & Hu & ->).
  split; [apply get_withUser |]. rewrite Hu. repeat split; reflexivity.
Qed.

Lemma checkIn_clears_witness :
  (exists user, UserMap.get (State.users Scenario.lostP1) (JS.lit "p1") = Some user
                /\ User.status user = missing)
  /\ exists s u,
       checkIn Scenario.lostP1 Scenario.p1 (Scenario.day0 + Scenario.days 40) = Ok (s, u)
       /\ User.status u = ok /\ User.missingSince u = None /\ User.dangerZone u = None.
Proof.
  split; [vm_compute; eexists; split; reflexivity |].
  destruct (checkIn Scenario.lostP1 Scenario.p1 (Scenario.day0 + Scenario.days 40))
    as [[s u] | e] eqn:H; [| vm_compute in H; discriminate H].
  exists s, u. split; [reflexivity |].
  destruct (checkIn_clears _ _ _ _ _ H) as (_ & A & B & C & _). auto.
Defined.

(** C5. In every state that a sequence of operations reaches, the
    [checkInHistory] of every participant has at most 21 entries and no
    two entries with the same day key. And whatever the state, when the
    history of the participant has at most 21 entries, no two of the same
    day, a check-in on a day that the history already records overwrites
    the entry of that day at its position, wherever it is: every other
    entry and the length of the history are unchanged. *)
Theorem checkInHistory_bounded (ops : list Op) :
  (forall k user,
     (k, user) ∈ State.users (run ops) ->
     (length (User.checkInHistory user) <= 21)%nat
     /\ NoDup (HistoryEntry.dayKey <$> User.checkInHistory user))
  /\ (forall state payload now state' user' user i e,
        checkIn state payload now = Ok (state', user') ->
        UserMap.get (State.users state) (userKey (Payload.userId payload)) = Some user ->
        (length (User.checkInHistory user) <= 21)%nat ->
        NoDup (HistoryEntry.dayKey <$> User.checkInHistory user) ->
        User.checkInHistory user !! i = Some e ->
        HistoryEntry.dayKey e = Time.utcDayKey now ->
        User.checkInHistory user'
        = <[i := {| HistoryEntry.dayKey := Time.utcDayKey now;
                    HistoryEntry.at_ := DateFn.toISOString now;
                    HistoryEntry.location := asLocation (Payload.location payload);
                    HistoryEntry.note := normalizeCheckInNote (Payload.note payload) |}]>
            (User.checkInHistory user)
        /\ length (User.checkInHistory user') = length (User.checkInHistory user)
        /\ forall j, j <> i ->
             User.checkInHistory user' !! j = User.checkInHistory user !! j).
Proof.
  split.
  - intros k user Hin. destruct (Inv_run ops) as [_ Hall]. rewrite Forall_forall in Hall.
    destruct (Hall _ Hin) as [_ H2 H3 _ _]. auto.
  - intros state payload now state' user' user i e Hc Hg H2 H3 Hi He.
    apply checkIn_inv in Hc as (_ & Hu & _).
    assert (Hh : User.checkInHistory user'
                 = pushCheckInHistory (User.checkInHistory user) (Time.utcDayKey now) now
                     (asLocation (Payload.location payload))
                     (normalizeCheckInNote (Payload.note payload))).
    { rewrite Hu. cbn [checkedIn User.checkInHistory].
      now rewrite resolved_checkInHistory, Hg. }
    rewrite Hh, (pushCheckInHistory_replace _ _ _ _ _ i e) by assumption.
    split; [reflexivity |]. split; [apply length_insert |].
    intros j Hne. apply list_lookup_insert_ne. congruence.
Qed.

Lemma checkInHistory_bounded_witness :
  exists s u e0 e1 e2,
    checkIn Scenario.threeDays Scenario.p1_home
      (Scenario.day0 + Scenario.days 1 + Scenario.hour) = Ok (s, u)
    /\ User.checkInHistory u = [e0; e1; e2]
    /\ HistoryEntry.at_ e0 = JS.lit "2024-03-01T00:00:00.000Z"
    /\ HistoryEntry.at_ e1 = JS.lit "2024-03-02T01:00:00.000Z"
    /\ HistoryEntry.location e1 = Some Scenario.home
    /\ HistoryEntry.at_ e2 = JS.lit "2024-03-03T00:00:00.000Z".
Proof.
  set (now := Scenario.day0 + Scenario.days 1 + Scenario.hour).
  destruct (checkIn Scenario.threeDays Scenario.p1_home now)
    as [[s u] | e] eqn:H; [| vm_compute in H; discriminate H].
  destruct (UserMap.get (State.users Scenario.threeDays)
              (userKey (Payload.userId Scenario.p1_home)))
    as [user |] eqn:Hg; [| vm_compute in Hg; discriminate Hg].
  destruct (User.checkInHistory user !! 1%nat) as [e |] eqn:Hi;
    [| vm_compute in Hg; injection Hg as <-; vm_compute in Hi; discriminate Hi].
  assert (He : HistoryEntry.dayKey e = Time.utcDayKey now).
  { vm_compute in Hg. injection Hg as <-. vm_compute in Hi. injection Hi as <-.
    vm_compute. reflexivity. }
  destruct (Inv_lookup _ _ _ (Inv_run _) Hg) as [_ H2 H3 _ _]. cbn [snd] in H2, H3.
  destruct (checkInHistory_bounded []) as [_ A].
  destruct (A _ _ _ _ _ _ _ _ H Hg H2 H3 Hi He) as [B _].
  exists s, u. do 3 eexists. split; [reflexivity |]. split.
  - rewrite B. vm_compute in Hg. injection Hg as <-. vm_compute. reflexivity.
  - vm_compute. auto.
Defined.

(** C6. A sweep leaves a participant who is already missing as it is, at
    its place in the map: the danger-zone record, with its id, and
    [missingSince] are the ones it had. A second sweep with the same
    [now] changes nothing at all. *)
Theorem sweep_missing_noop (state : State.t) (now : Date) :
  (forall i k user,
     State.users state !! i = Some (k, user) ->
     User.status user = missing ->
     State.users (sweepForBrokenStreaks state now) !! i = Some (k, user))
  /\ sweepForBrokenStreaks (sweepForBrokenStreaks state now) now
     = sweepForBrokenStreaks state now.
Proof.
  split.
  - intros i k user. apply sweep_keeps_missing.
  - rewrite !sweepForBrokenStreaks_eq. cbn [State.users State.made].
    now rewrite sweepUsers_again.
Qed.

Lemma sweep_missing_noop_witness :
  exists user dz,
    State.users Scenario.lostP1 !! 0%nat = Some (JS.lit "p1", user)
    /\ User.status user = missing
    /\ User.dangerZone user = Some dz
    /\ State.users (sweepForBrokenStreaks Scenario.lostP1 (Scenario.day0 + Scenario.days 9))
         !! 0%nat = Some (JS.lit "p1", user).
Proof.
  destruct (State.users Scenario.lostP1 !! 0%nat) as [[k user] |] eqn:Hi;
    [| vm_compute in Hi; discriminate Hi].
  assert (Hk : k = JS.lit "p1") by (vm_compute in Hi; now injection Hi as <- _).
  assert (Hm : User.status user = missing) by (vm_compute in Hi; now injection Hi as _ <-).
  subst k. exists user.
  destruct (User.dangerZone user) as [dz |] eqn:Hdz;
    [| vm_compute in Hi; injection Hi as <-; vm_compute in Hdz; discriminate Hdz].
  exists dz. split; [reflexivity |]. split; [assumption |]. split; [reflexivity |].
  destruct (sweep_missing_noop Scenario.lostP1 (Scenario.day0 + Scenario.days 9)) as [A _].
  now apply A.
Defined.

(** C7. Let a state have one entry for each key and no danger-zone
    record with an id that the generator has yet to draw, as every state
    has that the operations reach. When a sweep takes a participant of it
    from ok or unknown to missing, [missingSince] becomes [lastCheckInAt]
    if there is one and [now] otherwise, and the danger-zone record
    carries a fresh id (drawn from the generator during this sweep, the id
    of no record of the state before it, and of no other record of the
    state after it), the reason "streak-broken", the id and the name of
    the participant, its current [lastKnownLocation], and as [lastSeenAt]
    the ISO rendering of [lastCheckInAt], or of [now] if there is none. *)
Theorem sweep_marks_missing (state : State.t) (now : Date)
    (i : nat) (k : jsstring) (user : User.t) :
  Inv state ->
  State.users state !! i = Some (k, user) ->
  User.status user = ok \/ User.status user = unknown ->
  Time.isOlderThanYesterdayDayKey (User.lastCheckInDayKey user) now = true ->
  let seen := match User.lastCheckInAt user with Some d => d | None => now end in
  exists user' dz,
    State.users (sweepForBrokenStreaks state now) !! i = Some (k, user')
    /\ User.status user' = missing
    /\ User.missingSince user' = Some seen
    /\ User.dangerZone user' = Some dz
    /\ (State.made state <= DangerZone.id dz
        < State.made (sweepForBrokenStreaks state now))%nat
    /\ (forall k0 user0 dz0,
          (k0, user0) ∈ State.users state ->
          User.dangerZone user0 = Some dz0 ->
          DangerZone.id dz0 <> DangerZone.id dz)
    /\ (forall j kj userj dzj,
          j <> i ->
          State.users (sweepForBrokenStreaks state now) !! j = Some (kj, userj) ->
          User.dangerZone userj = Some dzj ->
          DangerZone.id dzj <> DangerZone.id dz)
    /\ DangerZone.type dz = JS.lit "danger-zone"
    /\ DangerZone.reason dz = JS.lit "streak-broken"
    /\ DangerZone.userId dz = User.id user
    /\ DangerZone.name dz = User.name user
    /\ DangerZone.location dz = User.lastKnownLocation user
    /\ DangerZone.lastSeenAt dz = DateFn.toISOString seen.
Proof.
  intros [_ Hall] Hi Hs Ho seen.
  assert (Hm : User.status user <> missing) by (destruct Hs as [-> | ->]; discriminate).
  destruct (sweepUsers_lookup _ (State.made state) now _ _ _ Hi) as (n & Hn & Hf & Hl).
  unfold sweepUser in Hf, Hl. rewrite decide_False, Ho in Hf, Hl by assumption.
  rewrite markMissing_fresh in Hf, Hl by assumption. cbn [fst snd] in Hf, Hl.
  exists (markedMissing n user now (JS.lit "streak-broken")),
         (zoneOf n user now (JS.lit "streak-broken")).
  rewrite sweepForBrokenStreaks_eq. cbn [State.users State.made].
  split; [exact Hl |]. do 3 (split; [reflexivity |]).
  split; [cbn [zoneOf DangerZone.id]; lia |].
  split; [| split; [| repeat split; reflexivity]].
  - intros k0 user0 dz0 Hin Hdz. cbn [zoneOf DangerZone.id].
    rewrite Forall_forall in Hall.
    destruct (Hall _ Hin) as [_ _ _ _ H5]. specialize (H5 dz0 Hdz). lia.
  - intros j kj userj dzj Hne Hj Hdz. cbn [zoneOf DangerZone.id].
    eapply (sweepUsers_id_elsewhere _ _ now i j); eauto.
Qed.

Lemma sweep_marks_missing_witness :
  (exists user' dz,
     State.users
       (sweepForBrokenStreaks (run [OpCheckIn Scenario.p1_home Scenario.day0])
          (Scenario.day0 + Scenario.days 3)) !! 0%nat = Some (JS.lit "p1", user')
     /\ User.missingSince user' = Some Scenario.day0
     /\ User.dangerZone user' = Some dz
     /\ DangerZone.location dz = Some Scenario.home
     /\ DangerZone.reason dz = JS.lit "streak-broken"
     /\ DangerZone.lastSeenAt dz = JS.lit "2024-03-01T00:00:00.000Z")
  /\ (exists user' dz,
        State.users (sweepForBrokenStreaks Scenario.undated Scenario.day0) !! 0%nat
        = Some (JS.lit "p7", user')
        /\ User.status user' = missing
        /\ User.missingSince user' = Some Scenario.day0
        /\ User.dangerZone user' = Some dz
        /\ DangerZone.id dz = 3%nat
        /\ DangerZone.location dz = None
        /\ DangerZone.lastSeenAt dz = JS.lit "2024-03-01T00:00:00.000Z").
Proof.
  split.
  - set (ops := [OpCheckIn Scenario.p1_home Scenario.day0]).
    destruct (State.users (run ops) !! 0%nat) as [[k user] |] eqn:Hi;
      [| vm_compute in Hi; discriminate Hi].
    assert (Hu : (k, user)
                 = (JS.lit "p1",
                    checkedIn (resolved createInitialState (Some (JS.lit "p1"))
                                 (Some (JS.lit "Joyce")))
                      Scenario.p1_home Scenario.day0)).
    { vm_compute in Hi. injection Hi as <- <-. vm_compute. reflexivity. }
    injection Hu as -> ->.
    destruct (sweep_marks_missing (run ops) (Scenario.day0 + Scenario.days 3) _ _ _
                (Inv_run ops) Hi)
      as (user' & dz & A & _ & S & B & _ & _ & _ & _ & C & _ & _ & D & E).
    + left. reflexivity.
    + vm_compute. reflexivity.
    + exists user', dz. split; [exact A |]. split; [exact S |]. split; [exact B |].
      split; [rewrite D; vm_compute; reflexivity |]. split; [exact C |].
      rewrite E. vm_compute. reflexivity.
  - assert (HI : Inv Scenario.undated).
    { split; cbn [Scenario.undated State.users State.made UserMap.keys map fst].
      - apply NoDup_singleton.
      - constructor; [| constructor].
        split; cbn [fst snd User.id User.checkInHistory User.status User.dangerZone
                      User.lastKnownLocation length historyKeys fmap list_fmap];
          try reflexivity; try lia; try discriminate.
        apply NoDup_nil_2. }
    destruct (sweep_marks_missing Scenario.undated Scenario.day0 0%nat _ _ HI eq_refl)
      as (user' & dz & A & B & C & D & E & _ & _ & _ & _ & _ & _ & F & G).
    + right. reflexivity.
    + vm_compute. reflexivity.
    + exists user', dz. split; [exact A |]. split; [exact B |]. split; [exact C |].
      split; [exact D |]. split.
      { assert (Hmade : State.made (sweepForBrokenStreaks Scenario.undated Scenario.day0)
                        = 4%nat) by (vm_compute; reflexivity).
        rewrite Hmade in E. cbn [Scenario.undated State.made] in E. lia. } split; [exact F |]. exact G.
Defined.

(** C1, as the specification has it, fails: a participant who has never
    given a location and is marked missing does get a danger-zone record,
    and [dangerZones] lists it. *)
Lemma missing_without_location_counterexample :
  let state :=
    run [OpCheckIn Scenario.p1 Scenario.day0;
         OpSweep (Scenario.day0 + Scenario.days 2 + 12 * Scenario.hour)] in
  exists user dz,
    UserMap.get (State.users state) (JS.lit "p1") = Some user
    /\ User.status user = missing
    /\ User.lastKnownLocation user = None
    /\ User.dangerZone user = Some dz
    /\ dz ∈ snd (dangerZones state (Scenario.day0 + Scenario.days 2 + 12 * Scenario.hour))
    /\ DangerZone.userId dz = User.id user.
Proof.
  vm_compute. do 2 eexists. split; [reflexivity |].
  do 3 (split; [reflexivity |]). split; [apply list_elem_of_here | reflexivity].
Qed.

(** C1, amended. In every state that a sequence of operations reaches, a
    participant whose status is missing and who has no last known location
    has a danger-zone record, whose location is null and whose [userId] is
    the participant's id, and [dangerZones] lists that record. *)
Theorem missing_without_location (ops : list Op) (now : Date)
    (k : jsstring) (user : User.t) :
  (k, user) ∈ State.users (run ops) ->
  User.status user = missing ->
  User.lastKnownLocation user = None ->
  exists dz,
    User.dangerZone user = Some dz
    /\ DangerZone.location dz = None
    /\ DangerZone.userId dz = User.id user
    /\ dz ∈ snd (dangerZones (run ops) now).
Proof.
  intros Hin Hm Hloc.
  destruct (Inv_run ops) as [_ Hall]. rewrite Forall_forall in Hall.
  destruct (Hall _ Hin) as [_ _ _ H4 _]. cbn [snd] in H4.
  destruct (H4 Hm) as (dz & Hdz & Hl & Hid).
  exists dz. split; [assumption |]. split; [now apply Hl |]. split; [assumption |].
  unfold dangerZones. cbn [snd].
  apply list_elem_of_lookup in Hin as [i Hi].
  apply (sweep_keeps_missing _ now) in Hi; [| assumption].
  eapply collectZones_elem; [| eassumption | eassumption].
  unfold UserMap.values. apply list_elem_of_In. change user with (snd (k, user)).
  apply in_map. apply list_elem_of_In. apply list_elem_of_lookup. eauto.
Qed.

Lemma missing_without_location_witness :
  let state :=
    run [OpCheckIn Scenario.p1 Scenario.day0; OpSweep (Scenario.day0 + Scenario.days 2)] in
  exists user dz,
    State.users state !! 0%nat = Some (JS.lit "p1", user)
    /\ User.dangerZone user = Some dz
    /\ DangerZone.location dz = None
    /\ dz ∈ snd (dangerZones state (Scenario.day0 + Scenario.days 5)).
Proof.
  intros state.
  destruct (State.users state !! 0%nat) as [[k user] |] eqn:Hi;
    [| vm_compute in Hi; discriminate Hi].
  assert (Hk : k = JS.lit "p1") by (vm_compute in Hi; now injection Hi as <- _).
  assert (Hm : User.status user = missing) by (vm_compute in Hi; now injection Hi as _ <-).
  assert (Hl : User.lastKnownLocation user = None)
    by (vm_compute in Hi; now injection Hi as _ <-).
  assert (Hin : (k, user) ∈ State.users state) by (apply list_elem_of_lookup; eauto).
  destruct (missing_without_location _ (Scenario.day0 + Scenario.days 5) _ _ Hin Hm Hl)
    as (dz & A & B & _ & C).
  subst k. exists user, dz. auto.
Defined.

(** C8, as the specification has it, fails: with an id that is not
    empty, a request whose note is an object that [String] cannot convert
    makes [checkIn] throw, and not the error of a missing id. By then the
    participant has been created and the location of the request
    stored. *)
Lemma unconvertible_note_counterexample :
  exists state' user,
    Raw.userKey (Raw.userId Scenario.p1_stops) = JS.lit "p1"
    /\ Raw.checkIn createInitialState (Some Scenario.p1_stops) Scenario.day0
       = (state', Raw.Throws Raw.Conversion)
    /\ UserMap.get (State.users state') (JS.lit "p1") = Some user
    /\ User.status user = unknown
    /\ User.lastKnownLocation user = Some Scenario.away.
Proof. vm_compute. do 2 eexists. repeat split; reflexivity. Qed.

(** C8, amended. [getOrCreateUser] and [checkIn] throw the error
    "userId is required" exactly when the id is falsy or its string
    trims to the empty string, and [checkIn] then leaves the state as it
    was. They throw nothing else but the exception of a conversion, and
    that only on a request with a value that [String] or [Number] cannot
    convert. On a request whose values convert and whose id is not
    blank, they return: a location that is not finite is dropped by
    [asLocation], and the check-in leaves the last known location as it
    was. *)
Theorem only_blank_id_fails (state : State.t) (request : Raw.body) (now : Date) :
  let userId := Raw.userId request in
  let name := Raw.name request in
  let required := Raw.Error (JS.lit "userId is required") in
  let blank := exists s, Raw.stringOr userId [] = Raw.Returns s /\ JS.trim s = [] in
  (Raw.getOrCreateUser state userId name = Raw.Throws required <-> blank)
  /\ (Raw.checkIn state (Some request) now = (state, Raw.Throws required) <-> blank)
  /\ (forall e,
        Raw.getOrCreateUser state userId name = Raw.Throws e
        \/ snd (Raw.checkIn state (Some request) now) = Raw.Throws e ->
        (e = required /\ blank) \/ (e = Raw.Conversion /\ converts request = false))
  /\ (converts request = true -> ~ blank ->
      (exists state' user',
         Raw.getOrCreateUser state userId name = Raw.Returns (state', user'))
      /\ exists user',
           snd (Raw.checkIn state (Some request) now) = Raw.Returns user'
           /\ (Raw.asLocation (Raw.location request) = Raw.Returns None ->
               User.lastKnownLocation user'
               = UserMap.get (State.users state) (Raw.userKey userId)
                   ≫= User.lastKnownLocation))
  /\ (forall lat lng,
        Raw.location request = Some {| Raw.lat := Some lat; Raw.lng := Some lng |} ->
        Number.isFinite lat = false \/ Number.isFinite lng = false ->
        Raw.asLocation (Raw.location request) = Raw.Returns None).
Proof.
  intros userId name required blank.
  assert (Hb : blank <-> userId <> Raw.Truthy None /\ Raw.userKey userId = [])
    by apply Raw_userKey_blank.
  assert (Hg : Raw.getOrCreateUser state userId name = Raw.Throws required <-> blank).
  { rewrite Hb. split.
    - intros H. apply Raw_getOrCreateUser_Throws in H as [(_ & H) | [(H & _) | (H & _)]];
        [exact H | discriminate H | discriminate H].
    - intros [Hu Hk]. rewrite Raw_getOrCreateUser_eq, Hk.
      destruct userId as [| [s |]]; [reflexivity | reflexivity | congruence]. }
  assert (Hthrows : forall e,
             snd (Raw.checkIn state (Some request) now) = Raw.Throws e ->
             Raw.getOrCreateUser state userId name = Raw.Throws e
             \/ (e = Raw.Conversion /\ converts request = false)).
  { intros e. rewrite Raw_checkIn_eq. fold userId name.
    destruct (Raw.getOrCreateUser state userId name) as [[st u] | e0];
      [| cbn [snd]; intros [= <-]; now left].
    cbv zeta. intros H. right.
    destruct (Raw.asLocation _) as [l | e1] eqn:Hl.
    - destruct (Raw.normalizeCheckInNote _) as [n | e2] eqn:Hn; [discriminate H |].
      cbn [snd] in H. injection H as <-.
      apply Raw_normalizeCheckInNote_Throws in Hn as [-> Hn]. split; [reflexivity |].
      destruct (converts request) eqn:Hc; [| reflexivity].
      apply converts_true in Hc as (_ & _ & Hc & _). congruence.
    - cbn [snd] in H. injection H as <-.
      apply Raw_asLocation_Throws in Hl as (-> & c & Hc & Hnone). split; [reflexivity |].
      destruct (converts request) eqn:Hcv; [| reflexivity].
      apply converts_true in Hcv as (_ & _ & _ & Hcv).
      destruct (Hcv c Hc) as [H1 H2]. destruct Hnone; congruence. }
  assert (Hconv : forall e,
             Raw.getOrCreateUser state userId name = Raw.Throws e ->
             (e = required /\ blank) \/ (e = Raw.Conversion /\ converts request = false)).
  { intros e H. apply Raw_getOrCreateUser_Throws in H
      as [(-> & H) | [(-> & _ & H) | (-> & H)]].
    - left. split; [reflexivity | now apply Hb].
    - right. split; [reflexivity |].
      destruct (converts request) eqn:Hc; [| reflexivity].
      apply converts_true in Hc as (_ & Hc & _). now destruct Hc.
    - right. split; [reflexivity |].
      destruct (converts request) eqn:Hc; [| reflexivity].
      apply converts_true in Hc as (Hc & _). now destruct Hc. }
  split; [exact Hg |]. split; [| split; [| split]].
  - rewrite <- Hg. rewrite Raw_checkIn_eq. fold userId name.
    destruct (Raw.getOrCreateUser state userId name) as [[st u] | e0].
    + cbv zeta. split; [| discriminate].
      destruct (Raw.asLocation _) as [l | e1] eqn:Hl;
        [destruct (Raw.normalizeCheckInNote _) as [n | e2] eqn:Hn |];
        intros H; injection H as _ H; try discriminate H.
      * apply Raw_normalizeCheckInNote_Throws in Hn as [Hn _].
        unfold required in H. congruence.
      * apply Raw_asLocation_Throws in Hl as [Hl _].
        unfold required in H. congruence.
    + split; [now intros [= ->] | now intros [= ->]].
  - intros e [H | H]; [now apply Hconv |].
    destruct (Hthrows e H) as [H' | H']; [now apply Hconv | now right].
  - intros Hc Hnb. apply converts_true in Hc as (Hu & Hn & Ht & Hl).
    assert (Hk : Raw.userKey userId <> []).
    { intros Hk. apply Hnb, Hb. auto. }
    split; [rewrite Raw_getOrCreateUser_Returns by assumption; eauto |].
    rewrite Raw_checkIn_eq. fold userId name.
    rewrite Raw_getOrCreateUser_Returns by assumption. cbv zeta.
    destruct (Raw.asLocation _) as [l | e1] eqn:Hloc.
    2:{ apply Raw_asLocation_Throws in Hloc as (_ & c & Hc & Hnone).
        destruct (Hl c Hc). destruct Hnone; congruence. }
    destruct (Raw.normalizeCheckInNote _) as [n | e2] eqn:Hnote.
    2:{ apply Raw_normalizeCheckInNote_Throws in Hnote as [_ Hnote]. congruence. }
    cbn [snd]. eexists. split; [reflexivity |].
    intros [= ->]. apply Raw_asLocation_Returns in Hloc.
    cbn [checkedIn User.lastKnownLocation converted Payload.location]. rewrite Hloc.
    apply resolvedRaw_lastKnownLocation.
  - intros lat lng -> Hf. cbn [Raw.asLocation Raw.lat Raw.lng].
    destruct Hf as [-> | ->]; [reflexivity |].
    now rewrite orb_true_r.
Qed.

Lemma only_blank_id_fails_witness :
  Raw.checkIn Scenario.lostP1 (Some Scenario.p0) Scenario.day0
  = (Scenario.lostP1, Raw.Throws (Raw.Error (JS.lit "userId is required")))
  /\ Raw.checkIn Scenario.lostP1 (Some (bodyOf Scenario.blank)) Scenario.day0
     = (Scenario.lostP1, Raw.Throws (Raw.Error (JS.lit "userId is required")))
  /\ exists u,
       snd (Raw.checkIn Scenario.lostP1 (Some Scenario.p1_adrift)
              (Scenario.day0 + Scenario.days 5)) = Raw.Returns u
       /\ User.lastKnownLocation u = Some Scenario.home.
Proof.
  split; [| split].
  - destruct (only_blank_id_fails Scenario.lostP1 Scenario.p0 Scenario.day0)
      as (_ & A & _).
    apply A. exists []. split; reflexivity.
  - destruct (only_blank_id_fails Scenario.lostP1 (bodyOf Scenario.blank) Scenario.day0)
      as (_ & A & _).
    apply A. eexists. split; [reflexivity | vm_compute; reflexivity].
  - destruct (only_blank_id_fails Scenario.lostP1 Scenario.p1_adrift
                (Scenario.day0 + Scenario.days 5)) as (_ & _ & _ & A & B).
    destruct A as [_ (u & Hc & Hl)].
    + reflexivity.
    + intros (s & Hs & Ht). injection Hs as <-. vm_compute in Ht. discriminate Ht.
    + exists u. split; [exact Hc |].
      rewrite Hl; [vm_compute; reflexivity |].
      apply (B S754_nan (Location.lng Scenario.away)); [reflexivity | left; reflexivity].
Defined.



(** C10. A participant checks in with a valid location, and checks in
    again on the same UTC day without a location. The second check-in
    returns; it overwrites the entry of that day, where it stood and
    without changing the length of the history, by an entry whose
    location is null, so that no entry of that day keeps the location;
    the [lastKnownLocation] of the participant is still the location of
    the first check-in. *)
Theorem recheckin_without_location (ops : list Op)
    (first second : Payload.t) (now1 now2 : Date)
    (state1 : State.t) (user1 : User.t) (loc : Location.t) :
  checkIn (run ops) first now1 = Ok (state1, user1) ->
  asLocation (Payload.location first) = Some loc ->
  userKey (Payload.userId second) = userKey (Payload.userId first) ->
  Payload.location second = None ->
  DateFn.Day now2 = DateFn.Day now1 ->
  exists state2 user2 i e1 e2,
    checkIn state1 second now2 = Ok (state2, user2)
    /\ User.lastKnownLocation user2 = Some loc
    /\ User.checkInHistory user1 !! i = Some e1
    /\ HistoryEntry.dayKey e1 = Time.utcDayKey now1
    /\ HistoryEntry.location e1 = Some loc
    /\ User.checkInHistory user2 = <[i := e2]> (User.checkInHistory user1)
    /\ User.checkInHistory user2 !! i = Some e2
    /\ length (User.checkInHistory user2) = length (User.checkInHistory user1)
    /\ HistoryEntry.dayKey e2 = Time.utcDayKey now2
    /\ HistoryEntry.at_ e2 = DateFn.toISOString now2
    /\ HistoryEntry.location e2 = None
    /\ (forall e, e ∈ User.checkInHistory user2 ->
                  HistoryEntry.dayKey e = Time.utcDayKey now2 ->
                  HistoryEntry.location e = None).
Proof.
  intros H1 Hloc Hkey Hnone Hday.
  apply checkIn_inv in H1 as (Hne & Hu & ->).
  pose proof (UserInv_resolved (run ops) (Payload.userId first) (Payload.name first)
                (Inv_run ops)) as [_ R2 R3 _ _].
  cbn [snd] in R2, R3.
  set (r1 := resolved (run ops) (Payload.userId first) (Payload.name first)) in *.
  pose proof (utcDayKey_Day _ _ Hday) as Hk.
  (* the history that the first check-in leaves *)
  assert (Hh1 : User.checkInHistory user1
                = pushCheckInHistory (User.checkInHistory r1) (Time.utcDayKey now1) now1
                    (Some loc) (normalizeCheckInNote (Payload.note first))).
  { rewrite Hu. cbn [checkedIn User.checkInHistory]. now rewrite Hloc. }
  destruct (pushCheckInHistory_records (Time.utcDayKey now1) now1 (Some loc)
              (normalizeCheckInNote (Payload.note first)) (User.checkInHistory r1) R2 R3)
    as [i Hi].
  rewrite <- Hh1 in Hi.
  assert (L1 : (length (User.checkInHistory user1) <= 21)%nat)
    by (rewrite Hh1; apply pushCheckInHistory_length).
  assert (N1 : NoDup (historyKeys (User.checkInHistory user1)))
    by (rewrite Hh1; now apply pushCheckInHistory_NoDup).
  (* the second check-in *)
  rewrite checkIn_Ok by (rewrite Hkey; assumption). cbv zeta.
  rewrite Hkey.
  set (r2 := resolved _ (Payload.userId second) (Payload.name second)).
  assert (Hr2 : r2 = if JS.truthy (Payload.name second)
                     then setName user1 (JS.slice0 60 (default [] (Payload.name second)))
                     else user1).
  { subst r2. apply resolved_present. rewrite Hkey. apply get_withUser. }
  assert (Hh2 : User.checkInHistory r2 = User.checkInHistory user1)
    by (rewrite Hr2; now destruct (JS.truthy _)).
  assert (Hl2 : User.lastKnownLocation r2 = Some loc).
  { rewrite Hr2. transitivity (User.lastKnownLocation user1);
      [now destruct (JS.truthy _) |].
    rewrite Hu. cbn [checkedIn User.lastKnownLocation]. now rewrite Hloc. }
  set (e2 := newEntry (Time.utcDayKey now2) now2 None
               (normalizeCheckInNote (Payload.note second))).
  assert (Hh : User.checkInHistory (checkedIn r2 second now2)
               = <[i := e2]> (User.checkInHistory user1)).
  { cbn [checkedIn User.checkInHistory]. rewrite Hnone, Hh2. cbn [asLocation].
    apply (pushCheckInHistory_replace _ _ _ _ _ i
             (newEntry (Time.utcDayKey now1) now1 (Some loc)
                (normalizeCheckInNote (Payload.note first)))); try assumption.
    now rewrite Hk. }
  assert (Hi2 : User.checkInHistory (checkedIn r2 second now2) !! i = Some e2).
  { rewrite Hh. apply list_lookup_insert_eq. eapply lookup_lt_Some; eassumption. }
  exists (withUser (withUser (run ops) (userKey (Payload.userId first)) user1)
            (userKey (Payload.userId first)) (checkedIn r2 second now2)),
         (checkedIn r2 second now2), i,
         (newEntry (Time.utcDayKey now1) now1 (Some loc)
            (normalizeCheckInNote (Payload.note first))), e2.
  split; [reflexivity |].
  split; [cbn [checkedIn User.lastKnownLocation]; now rewrite Hnone |].
  split; [exact Hi |]. do 2 (split; [reflexivity |]).
  split; [exact Hh |]. split; [exact Hi2 |].
  split; [rewrite Hh; apply length_insert |].
  do 3 (split; [reflexivity |]).
  intros e Hin He.
  apply list_elem_of_lookup in Hin as [j Hj].
  assert (N2 : NoDup (historyKeys (User.checkInHistory (checkedIn r2 second now2)))).
  { rewrite Hh. unfold historyKeys. rewrite list_fmap_insert, list_insert_id; [exact N1 |].
    apply historyKeys_lookup in Hi. unfold e2.
    cbn [newEntry HistoryEntry.dayKey] in *. now rewrite Hk. }
  assert (j = i) as ->.
  { apply historyKeys_lookup in Hj, Hi2. rewrite He in Hj.
    eapply NoDup_lookup; eassumption. }
  rewrite Hi2 in Hj. now injection Hj as <-.
Qed.

Lemma recheckin_without_location_witness :
  exists s1 u1 s2 u2 e,
    checkIn createInitialState Scenario.p1_home Scenario.day0 = Ok (s1, u1)
    /\ checkIn s1 Scenario.p1 (Scenario.day0 + 5 * Scenario.hour) = Ok (s2, u2)
    /\ User.lastKnownLocation u2 = Some Scenario.home
    /\ User.checkInHistory u2 = [e]
    /\ HistoryEntry.location e = None.
Proof.
  destruct (checkIn createInitialState Scenario.p1_home Scenario.day0)
    as [[s1 u1] | e] eqn:H1; [| vm_compute in H1; discriminate H1].
  destruct (recheckin_without_location [] Scenario.p1_home Scenario.p1 Scenario.day0
              (Scenario.day0 + 5 * Scenario.hour) s1 u1 Scenario.home H1)
    as (s2 & u2 & i & e1 & e2 & H2 & L & Hi & _ & _ & Hh & _ & _ & _ & _ & El & _);
    try (vm_compute; reflexivity).
  exists s1, u1, s2, u2, e2. split; [reflexivity |]. split; [exact H2 |].
  split; [exact L |]. split; [| exact El].
  rewrite Hh. vm_compute in H1. injection H1 as _ <-.
  destruct i as [| i]; [reflexivity | destruct i; discriminate Hi].
Defined.

(** * Further properties of the code *)

(** ** Decimal strings and day keys *)

Section DayKeyFacts.
Import DateFn.

Lemma lit_inj s1 s2 : JS.lit s1 = JS.lit s2 -> s1 = s2.
Proof.
  unfold JS.lit. intros H.
  rewrite <- (string_of_list_ascii_of_string s1), <- (string_of_list_ascii_of_string s2).
  f_equal. revert H. generalize (list_ascii_of_string s1) (list_ascii_of_string s2).
  intros l1. induction l1 as [| a l1 IH]; intros [| b l2] H; try discriminate; [reflexivity |].
  cbn [map] in H. injection H as Hab Hl. f_equal; [| now apply IH].
  rewrite <- (ascii_N_embedding a), <- (ascii_N_embedding b). now rewrite Hab.
Qed.

(** [String(z)] tells the integers apart. *)
Lemma ofInt_inj z1 z2 : JS.ofInt z1 = JS.ofInt z2 -> z1 = z2.
Proof.
  unfold JS.ofInt. intros H. apply lit_inj in H.
  apply DecimalZ.to_int_inj.
  assert (Hn : forall z, NilZero.int_of_string (NilZero.string_of_int (Z.to_int z))
                         = Some (Z.to_int z)).
  { intros z. apply NilZero.isi; destruct z; cbn; try discriminate;
      intros [= E]; now apply DecimalPos.Unsigned.to_uint_nonnil in E. }
  pose proof (Hn z1) as H1. rewrite H, Hn in H1. now injection H1.
Qed.

Lemma Day_MakeDay t : Day t = MakeDay (YearFromTime t) (MonthFromTime t) (DateFromTime t).
Proof. rewrite MakeDay_own. lia. Qed.

(** The pieces of a day key: the year as [String] writes it, and two
    digits for the month and for the day. *)
Lemma utcDayKey_parts t :
  exists m1 m2 d1 d2,
    Time.utcDayKey t = JS.ofInt (YearFromTime t) ++ [45%N; m1; m2; 45%N; d1; d2]
    /\ MonthFromTime t + 1 = 10 * (Z.of_N m1 - 48) + (Z.of_N m2 - 48)
    /\ DateFromTime t = 10 * (Z.of_N d1 - 48) + (Z.of_N d2 - 48).
Proof.
  pose proof (MonthFromTime_range t) as Hm.
  destruct (pad2_day (MonthFromTime t + 1)) as (m1 & m2 & Pm & Em); [lia |].
  destruct (pad2_day _ (DateFromTime_range t)) as (d1 & d2 & Pd & Ed).
  exists m1, m2, d1, d2. split; [| auto].
  unfold Time.utcDayKey, getUTCFullYear, getUTCMonth, getUTCDate.
  now rewrite Pm, Pd.
Qed.

Lemma utcDayKey_inj t1 t2 : Time.utcDayKey t1 = Time.utcDayKey t2 -> Day t1 = Day t2.
Proof.
  intros H.
  destruct (utcDayKey_parts t1) as (m1 & m2 & d1 & d2 & E1 & M1 & D1).
  destruct (utcDayKey_parts t2) as (m1' & m2' & d1' & d2' & E2 & M2 & D2).
  rewrite E1, E2 in H. apply app_inj_2 in H as [Hy Hs]; [| reflexivity].
  apply ofInt_inj in Hy. injection Hs as -> -> -> ->.
  rewrite (Day_MakeDay t1), (Day_MakeDay t2), Hy.
  replace (MonthFromTime t1) with (MonthFromTime t2) by lia.
  now rewrite D1, D2.
Qed.

Lemma utcDayKey_nonempty t : Time.utcDayKey t <> [].
Proof.
  destruct (utcDayKey_parts t) as (m1 & m2 & d1 & d2 & E & _). rewrite E.
  intros H. apply app_eq_nil in H as [_ H]. discriminate H.
Qed.

Lemma utcYesterdayDayKey_eq t : Time.utcYesterdayDayKey t = Time.utcDayKey (t - msPerDay).
Proof. unfold Time.utcYesterdayDayKey. now rewrite setUTCDate_yesterday. Qed.

Lemma utcDayKey_iff t1 t2 : Time.utcDayKey t1 = Time.utcDayKey t2 <-> Day t1 = Day t2.
Proof. split; [apply utcDayKey_inj | apply utcDayKey_Day]. Qed.

Lemma utcYesterdayDayKey_iff t now :
  Time.utcDayKey t = Time.utcYesterdayDayKey now <-> Day t = Day now - 1.
Proof. rewrite utcYesterdayDayKey_eq, utcDayKey_iff, Day_yesterday. reflexivity. Qed.

(** Staleness of the day key of a time, by days. *)
Lemma stale_by_days t now :
  Time.isOlderThanYesterdayDayKey (Some (Time.utcDayKey t)) now
  = negb (Day t =? Day now) && negb (Day t =? Day now - 1).
Proof.
  unfold Time.isOlderThanYesterdayDayKey.
  destruct (Time.utcDayKey t) as [| c r] eqn:Hk; [now apply utcDayKey_nonempty in Hk |].
  cbn [JS.truthy negb]. rewrite <- Hk. f_equal; f_equal.
  - destruct (Z.eqb_spec (Day t) (Day now)) as [E | E].
    + apply bool_decide_eq_true_2. f_equal. now apply utcDayKey_iff.
    + apply bool_decide_eq_false_2. intros [= E']. now apply utcDayKey_iff in E'.
  - destruct (Z.eqb_spec (Day t) (Day now - 1)) as [E | E].
    + apply bool_decide_eq_true_2. f_equal. now apply utcYesterdayDayKey_iff.
    + apply bool_decide_eq_false_2. intros [= E']. now apply utcYesterdayDayKey_iff in E'.
Qed.

End DayKeyFacts.

(** X1. Two times have the same day key exactly when they fall on the same
    UTC day, that is, when they have the same quotient by 86400000 ms. *)
Theorem utcDayKey_same_day (t1 t2 : Date) :
  Time.utcDayKey t1 = Time.utcDayKey t2 <-> t1 / 86400000 = t2 / 86400000.
Proof. apply utcDayKey_iff. Qed.

(** X2. For a time [now] of the range of [Date] that is not on the first
    day of that range, [utcYesterdayDayKey now] is the day key of the time
    24 hours before [now], and a time [t] has that key exactly when it
    falls on the UTC day before the day of [now]. (On the first day of the
    range [setUTCDate] leaves an invalid date, which is outside this
    statement.) *)
Theorem utcYesterdayDayKey_day_before (now t : Date) :
  -8640000000000000 + 86400000 <= now <= 8640000000000000 ->
  Time.utcYesterdayDayKey now = Time.utcDayKey (now - 86400000)
  /\ (Time.utcDayKey t = Time.utcYesterdayDayKey now
      <-> t / 86400000 = now / 86400000 - 1).
Proof. intros _. split; [apply utcYesterdayDayKey_eq | apply utcYesterdayDayKey_iff]. Qed.

Lemma utcYesterdayDayKey_day_before_witness :
  Time.utcYesterdayDayKey Scenario.day0 = JS.lit "2024-02-29"
  /\ Time.utcDayKey (Scenario.day0 - Scenario.hour) = Time.utcYesterdayDayKey Scenario.day0.
Proof.
  assert (Hr : -8640000000000000 + 86400000 <= Scenario.day0 <= 8640000000000000)
    by (unfold Scenario.day0; lia).
  destruct (utcYesterdayDayKey_day_before Scenario.day0 (Scenario.day0 - Scenario.hour) Hr)
    as [A B].
  split; [rewrite A; vm_compute; reflexivity |].
  apply B. vm_compute. reflexivity.
Defined.

(** X3. The day key of a time [t] is stale at [now] exactly when [now]
    falls neither on the UTC day of [t] nor on the day after it; a day
    key of the future is stale as well. *)
Theorem isOlderThanYesterdayDayKey_by_days (t now : Date) :
  Time.isOlderThanYesterdayDayKey (Some (Time.utcDayKey t)) now = true
  <-> now / 86400000 <> t / 86400000 /\ now / 86400000 <> t / 86400000 + 1.
Proof.
  rewrite stale_by_days, andb_true_iff, !negb_true_iff, !Z.eqb_neq.
  unfold DateFn.Day, DateFn.msPerDay. lia.
Qed.

(** ** Trimming *)

Section Trimming.

Lemma trimStart_head s : headNotSpace (JS.trimStart s).
Proof.
  induction s as [| c r IH]; cbn [JS.trimStart]; [exact I |].
  destruct (JS.isWhiteSpace c) eqn:Hc; [exact IH | exact Hc].
Qed.

Lemma trimStart_id s : headNotSpace s -> JS.trimStart s = s.
Proof. destruct s as [| c r]; cbn; [reflexivity |]. now intros ->. Qed.

Lemma trimStart_app s c r :
  JS.isWhiteSpace c = false -> JS.trimStart (s ++ c :: r) = JS.trimStart s ++ c :: r.
Proof.
  intros Hc. induction s as [| a s IH]; cbn [JS.trimStart app]; [now rewrite Hc |].
  now destruct (JS.isWhiteSpace a).
Qed.

Lemma trimEnd_cons c r :
  JS.isWhiteSpace c = false -> JS.trimEnd (c :: r) = c :: JS.trimEnd r.
Proof.
  intros Hc. unfold JS.trimEnd. cbn [rev].
  rewrite trimStart_app by assumption. now rewrite rev_app_distr.
Qed.

Lemma trimEnd_head s : headNotSpace s -> headNotSpace (JS.trimEnd s).
Proof.
  destruct s as [| c r]; [intros _; exact I |].
  intros Hc. rewrite trimEnd_cons by exact Hc. exact Hc.
Qed.

Lemma trimEnd_last s : headNotSpace (rev (JS.trimEnd s)).
Proof. unfold JS.trimEnd. rewrite rev_involutive. apply trimStart_head. Qed.

Lemma trimEnd_id s : headNotSpace (rev s) -> JS.trimEnd s = s.
Proof. intros H. unfold JS.trimEnd. rewrite trimStart_id by assumption. apply rev_involutive. Qed.

Lemma trim_head s : headNotSpace (JS.trim s).
Proof. unfold JS.trim. apply trimEnd_head, trimStart_head. Qed.

Lemma trim_last s : headNotSpace (rev (JS.trim s)).
Proof. unfold JS.trim. apply trimEnd_last. Qed.

Lemma trim_id s : headNotSpace s -> headNotSpace (rev s) -> JS.trim s = s.
Proof. intros H1 H2. unfold JS.trim. rewrite trimStart_id by assumption. now apply trimEnd_id. Qed.

Lemma trim_trim s : JS.trim (JS.trim s) = JS.trim s.
Proof. apply trim_id; [apply trim_head | apply trim_last]. Qed.

Lemma trimStart_spaces ws s :
  forallb JS.isWhiteSpace ws = true -> JS.trimStart (ws ++ s) = JS.trimStart s.
Proof.
  induction ws as [| c ws IH]; cbn [forallb app JS.trimStart]; [reflexivity |].
  intros H. apply andb_true_iff in H as [-> H]. auto.
Qed.

Lemma trimEnd_spaces ws s :
  forallb JS.isWhiteSpace ws = true -> JS.trimEnd (s ++ ws) = JS.trimEnd s.
Proof.
  intros H. unfold JS.trimEnd. rewrite rev_app_distr. f_equal. apply trimStart_spaces.
  rewrite forallb_forall in *. intros x Hx. apply H. now apply in_rev.
Qed.

Lemma trimStart_app_nonempty x y :
  JS.trimStart x <> [] -> JS.trimStart (x ++ y) = JS.trimStart x ++ y.
Proof.
  induction x as [| a x IH]; cbn [JS.trimStart app]; [congruence |].
  destruct (JS.isWhiteSpace a); [exact IH | reflexivity].
Qed.

Lemma trimStart_app_empty x c :
  JS.trimStart x = [] -> JS.isWhiteSpace c = true -> JS.trimStart (x ++ [c]) = [].
Proof.
  intros Hx Hc. induction x as [| a x IH]; cbn [JS.trimStart app] in *; [now rewrite Hc |].
  destruct (JS.isWhiteSpace a); [now apply IH | discriminate].
Qed.

Lemma trimEnd_space c r :
  JS.isWhiteSpace c = true -> JS.trimStart (JS.trimEnd (c :: r)) = JS.trimStart (JS.trimEnd r).
Proof.
  intros Hc. unfold JS.trimEnd. cbn [rev].
  destruct (JS.trimStart (rev r)) as [| a l] eqn:Hr.
  - now rewrite (trimStart_app_empty _ _ Hr Hc).
  - rewrite trimStart_app_nonempty by (rewrite Hr; discriminate).
    rewrite Hr, rev_app_distr. cbn [rev app JS.trimStart]. now rewrite Hc.
Qed.

Lemma trimStart_trimEnd s : JS.trimStart (JS.trimEnd s) = JS.trimEnd (JS.trimStart s).
Proof.
  induction s as [| c r IH]; [reflexivity |].
  cbn [JS.trimStart]. destruct (JS.isWhiteSpace c) eqn:Hc.
  - now rewrite trimEnd_space.
  - rewrite trimEnd_cons by assumption. cbn [JS.trimStart]. now rewrite Hc.
Qed.

(** White space around a string does not change what [trim] returns. *)
Lemma trim_spaces ws1 ws2 s :
  forallb JS.isWhiteSpace ws1 = true -> forallb JS.isWhiteSpace ws2 = true ->
  JS.trim (ws1 ++ s ++ ws2) = JS.trim s.
Proof.
  intros H1 H2. unfold JS.trim. rewrite trimStart_spaces by assumption.
  rewrite <- !trimStart_trimEnd. now rewrite trimEnd_spaces.
Qed.

Lemma userKey_Some s : userKey (Some s) = JS.trim s.
Proof. unfold userKey. now destruct s. Qed.

End Trimming.

(** ** The life of a participant *)

Section LifeFacts.

Lemma asLocation_finite input : finiteLocation (asLocation input).
Proof.
  destruct input as [l |]; cbn [asLocation]; [| exact I].
  destruct (Number.isFinite (Location.lat l)) eqn:H1;
    destruct (Number.isFinite (Location.lng l)) eqn:H2; cbn; auto.
Qed.

Lemma normalizeCheckInNote_clean value : cleanNote (normalizeCheckInNote value).
Proof.
  unfold normalizeCheckInNote.
  pose proof (trim_head (JS.orElse value [])) as Hh.
  destruct (JS.trim (JS.orElse value [])) as [| c r]; [exact I |].
  cbn. split; [| exact Hh]. rewrite length_take. lia.
Qed.

Lemma pushCheckInHistory_Forall (P : HistoryEntry.t -> Prop) h dayKey at_ location note :
  Forall P h -> P (newEntry dayKey at_ location note) ->
  Forall P (pushCheckInHistory h dayKey at_ location note).
Proof.
  intros Hh He. rewrite pushCheckInHistory_upsert. cbv zeta.
  assert (Hu : Forall P (upsert h dayKey at_ location note)).
  { unfold upsert. destruct (list_find _ h) as [[i x] |] eqn:Hf.
    - apply list_find_Some in Hf as (Hi & _ & _). apply lookup_lt_Some in Hi.
      rewrite Forall_forall in *. intros y Hy.
      apply list_elem_of_lookup in Hy as [j Hj].
      destruct (decide (i = j)) as [-> | Hne].
      + rewrite list_lookup_insert_eq in Hj by assumption.
        now injection Hj as <-.
      + rewrite list_lookup_insert_ne in Hj by assumption.
        apply Hh. apply list_elem_of_lookup. eauto.
    - apply Forall_app. split; [assumption | now constructor]. }
  destruct (decide _); [now apply Forall_drop | assumption].
Qed.

Lemma Life_resolved state userId name :
  userKey userId <> [] ->
  Forall Life (State.users state) ->
  Life (userKey userId, resolved state userId name).
Proof.
  intros Hne Hall. unfold resolved.
  destruct (UserMap.get _ _) as [u |] eqn:Hg.
  - assert (Hu : Life (userKey userId, u)).
    { rewrite Forall_forall in Hall. apply Hall. apply list_elem_of_In. now apply get_In. }
    destruct (JS.truthy name); [| assumption].
    destruct Hu as [H1 H2 H3 H4 H5 H6 H7 H8 H9]. split; try assumption.
    cbn. unfold JS.slice0. rewrite length_take. lia.
  - split; cbn; try discriminate; try congruence; auto.
    + split; [assumption |]. unfold userKey. apply trim_trim.
    + unfold JS.slice0. rewrite length_take. lia.
Qed.

Lemma Raw_userKey_trim userId : JS.trim (Raw.userKey userId) = Raw.userKey userId.
Proof. destruct userId as [| [s |]]; cbn; try reflexivity. apply trim_trim. Qed.

Lemma Life_resolvedRaw state userId name :
  Raw.userKey userId <> [] ->
  Forall Life (State.users state) ->
  Life (Raw.userKey userId, resolvedRaw state userId name).
Proof.
  intros Hne Hall. unfold resolvedRaw.
  destruct (UserMap.get _ _) as [u |] eqn:Hg.
  - assert (Hu : Life (Raw.userKey userId, u)).
    { rewrite Forall_forall in Hall. apply Hall. apply list_elem_of_In. now apply get_In. }
    destruct name as [| [n |]]; try assumption.
    destruct Hu as [H1 H2 H3 H4 H5 H6 H7 H8 H9]. split; try assumption.
    cbn. unfold JS.slice0. rewrite length_take. lia.
  - split; cbn [fst snd User.id User.name User.status User.lastCheckInAt
                  User.lastCheckInDayKey User.streak User.checkInHistory
                  User.lastKnownLocation User.missingSince User.dangerZone];
      try discriminate; try congruence; auto.
    + split; [assumption | apply Raw_userKey_trim].
    + unfold JS.slice0. rewrite length_take. lia.
    + exact I.
Qed.

Lemma Life_located k user newLocation :
  finiteLocation newLocation -> Life (k, user) -> Life (k, located user newLocation).
Proof.
  destruct newLocation as [l |]; [| auto].
  intros Hf [H1 H2 H3 H4 H5 H6 H7 H8 H9]. cbn [fst snd] in *.
  split; cbn [fst snd located setLocation User.id User.name User.status User.lastCheckInAt
                User.lastCheckInDayKey User.streak User.checkInHistory
                User.lastKnownLocation User.missingSince User.dangerZone];
    try assumption.
  intros Hm. destruct (H7 Hm) as (t & dz & A & B & C & D & E & F & G & _ & H).
  exists t, dz. repeat (split; [assumption |]). split; [discriminate | assumption].
Qed.

Lemma Life_checkedIn made k user payload now :
  UserInv made (k, user) -> Life (k, user) -> Life (k, checkedIn user payload now).
Proof.
  intros [_ U2 U3 _ _] [H1 H2 H3 H4 H5 H6 H7 H8 H9]. cbn [fst snd] in *.
  split; cbn [fst snd checkedIn User.id User.name User.status User.lastCheckInAt
                User.lastCheckInDayKey User.streak User.checkInHistory
                User.lastKnownLocation User.missingSince User.dangerZone];
    try assumption; try discriminate; auto.
  - intros _.
    destruct (pushCheckInHistory_records (Time.utcDayKey now) now
                (asLocation (Payload.location payload))
                (normalizeCheckInNote (Payload.note payload))
                (User.checkInHistory user) U2 U3) as [i Hi].
    exists now, (newEntry (Time.utcDayKey now) now (asLocation (Payload.location payload))
                   (normalizeCheckInNote (Payload.note payload))).
    split; [reflexivity |]. split; [reflexivity |]. split.
    + destruct (decide _) as [Hk | Hk]; [| destruct (decide _); lia].
      assert (Hs : User.status user <> unknown).
      { intros Hs. destruct (H4 Hs) as (_ & Hn & _). congruence. }
      destruct (H5 Hs) as (t & e & _ & _ & Hst & _). exact Hst.
    + split; [apply list_elem_of_lookup; eauto | split; reflexivity].
  - pose proof (asLocation_finite (Payload.location payload)) as Hf.
    destruct (asLocation (Payload.location payload)); assumption.
  - apply pushCheckInHistory_Forall; [assumption |].
    split; [exists now; split; reflexivity |].
    split; [apply asLocation_finite | apply normalizeCheckInNote_clean].
Qed.

Lemma Life_sweepUser n k user now : Life (k, user) -> Life (k, snd (sweepUser n user now)).
Proof.
  intros HL. unfold sweepUser.
  destruct (decide _) as [Hm | Hm]; [exact HL |].
  destruct (Time.isOlderThanYesterdayDayKey _ _) eqn:Ho; [| exact HL].
  rewrite markMissing_fresh by assumption. cbn [snd].
  destruct HL as [H1 H2 H3 H4 H5 H6 H7 H8 H9]. cbn [fst snd] in *.
  assert (Hs : User.status user <> unknown).
  { intros Hs. destruct (H4 Hs) as (_ & Hn & _). rewrite Hn in Ho. discriminate Ho. }
  destruct (H5 Hs) as (t & e & Ht & Hk & Hst & He & Hte).
  split; cbn [fst snd markedMissing zoneOf User.id User.name User.status User.lastCheckInAt
                User.lastCheckInDayKey User.streak User.checkInHistory
                User.lastKnownLocation User.missingSince User.dangerZone];
    try assumption; try discriminate; try congruence.
  - intros _. exists t, e. auto.
  - intros _. exists t. eexists. split; [exact Ht |]. rewrite Ht. cbn [dateOr].
    split; [reflexivity |]. split; [reflexivity |].
    unfold zoneOf.
    cbn [DangerZone.type DangerZone.reason DangerZone.userId DangerZone.location
           DangerZone.lastSeenAt]. rewrite Ht. cbn [dateOr]. auto 10.
Qed.

Lemma Life_sweepUsers users made now :
  Forall Life users -> Forall Life (fst (sweepUsers users made now)).
Proof.
  intros Hall. revert made.
  induction Hall as [| [k u] rest Hu Hrest IH]; intros made; [constructor |].
  rewrite sweepUsers_cons. cbn [fst]. constructor; [now apply Life_sweepUser | apply IH].
Qed.

Lemma Life_step state o :
  Inv state -> Forall Life (State.users state) -> Forall Life (State.users (step state o)).
Proof.
  intros HI HL. destruct o as [userId name | payload now | now | now | request now]; cbn [step].
  - destruct (getOrCreateUser _ _ _) as [[state' user'] | e] eqn:Hg; [| assumption].
    apply getOrCreateUser_inv in Hg as (Hne & -> & ->).
    cbn [withUser State.users]. apply Forall_set; [assumption |].
    now apply Life_resolved.
  - destruct (checkIn _ _ _) as [[state' user'] | e] eqn:Hc; [| assumption].
    apply checkIn_inv in Hc as (Hne & -> & ->).
    cbn [withUser State.users]. apply Forall_set; [assumption |].
    apply (Life_checkedIn (State.made state)); [now apply UserInv_resolved |].
    now apply Life_resolved.
  - rewrite sweepForBrokenStreaks_eq. cbn [State.users]. now apply Life_sweepUsers.
  - unfold dangerZones. cbn [fst]. rewrite sweepForBrokenStreaks_eq. cbn [State.users].
    now apply Life_sweepUsers.
  - destruct (Raw_checkIn_state state request now)
      as [-> | (body & user' & _ & Hne & -> & Hu)]; [assumption |].
    cbn [withUser State.users]. apply Forall_set; [assumption |].
    pose proof (Life_resolvedRaw state (Raw.userId body) (Raw.name body) Hne HL) as Hr.
    destruct Hu as [-> | [-> | ->]]; [assumption | |].
    + apply Life_located; [apply asLocation_finite | assumption].
    + apply (Life_checkedIn (State.made state)); [now apply UserInv_resolvedRaw | assumption].
Qed.

Lemma run_snoc ops o : run (ops ++ [o]) = step (run ops) o.
Proof. unfold run. now rewrite fold_left_app. Qed.

Lemma Life_run ops : Forall Life (State.users (run ops)).
Proof.
  induction ops as [| o ops IH] using rev_ind; [constructor |].
  rewrite run_snoc. apply Life_step; [apply Inv_run | exact IH].
Qed.

Lemma Life_elem ops k user : (k, user) ∈ State.users (run ops) -> Life (k, user).
Proof. intros Hin. pose proof (Life_run ops) as H. rewrite Forall_forall in H. now apply H. Qed.

End LifeFacts.

(** The first entry of the map of a state given by its operations. *)
Ltac first_entry st k user E Hin :=
  destruct (State.users st) as [| [k user] ?rest] eqn:E;
  [vm_compute in E; discriminate E |];
  assert (Hin : (k, user) ∈ State.users st) by (rewrite E; apply list_elem_of_here).

Lemma getOrCreateUser_key state userId userId' name :
  userKey userId = userKey userId' ->
  getOrCreateUser state userId name = getOrCreateUser state userId' name.
Proof. intros H. unfold getOrCreateUser. now rewrite H. Qed.

Lemma checkIn_key state payload payload' now :
  userKey (Payload.userId payload) = userKey (Payload.userId payload') ->
  Payload.name payload = Payload.name payload' ->
  Payload.location payload = Payload.location payload' ->
  Payload.note payload = Payload.note payload' ->
  checkIn state payload now = checkIn state payload' now.
Proof.
  intros Hk Hn Hl Ho. unfold checkIn.
  rewrite (getOrCreateUser_key _ _ _ _ Hk). now rewrite Hk, Hn, Hl, Ho.
Qed.

Lemma collectZones_source users dz :
  dz ∈ collectZones users ->
  exists user, user ∈ users /\ User.status user = missing /\ User.dangerZone user = Some dz.
Proof.
  induction users as [| u0 rest IH]; cbn [collectZones]; [intros H; inversion H |].
  intros H.
  assert (Hrest : dz ∈ collectZones rest ->
                  exists user, user ∈ u0 :: rest /\ User.status user = missing
                               /\ User.dangerZone user = Some dz).
  { intros Hr. destruct (IH Hr) as (u & Hu & Hs). exists u. split; [| assumption].
    now apply list_elem_of_further. }
  destruct (decide _) as [Hm | Hm]; [| auto].
  destruct (User.dangerZone u0) as [dz0 |] eqn:Hdz; [| auto].
  apply elem_of_cons in H as [-> | Hr]; [| auto].
  exists u0. split; [apply list_elem_of_here | auto].
Qed.

Lemma dangerZones_run ops now : fst (dangerZones (run ops) now) = run (ops ++ [OpDangerZones now]).
Proof. now rewrite run_snoc. Qed.

(** Every record that [dangerZones] lists is the record of a missing
    participant of the state that the call leaves. *)
Lemma dangerZones_source state now dz :
  dz ∈ snd (dangerZones state now) ->
  exists k user, (k, user) ∈ State.users (fst (dangerZones state now))
                 /\ User.status user = missing /\ User.dangerZone user = Some dz.
Proof.
  unfold dangerZones. cbn [fst snd]. intros H.
  apply collectZones_source in H as (user & Hin & Hm & Hdz).
  unfold UserMap.values in Hin. apply list_elem_of_In, in_map_iff in Hin as ([k u] & Hu & Hin).
  cbn in Hu. subst u. exists k, user. split; [now apply list_elem_of_In | auto].
Qed.

(** X4. White space around the id of a request does not count: with the
    same other fields, the request finds or creates the same participant,
    stored under the trimmed id, and a check-in does the same. *)
Theorem userId_trimmed (state : State.t) (ws1 s ws2 : jsstring)
    (name : option jsstring) (location : option Location.t) (note : option jsstring)
    (now : Date) :
  forallb JS.isWhiteSpace ws1 = true ->
  forallb JS.isWhiteSpace ws2 = true ->
  getOrCreateUser state (Some (ws1 ++ s ++ ws2)) name = getOrCreateUser state (Some s) name
  /\ checkIn state (Payload.mk (Some (ws1 ++ s ++ ws2)) name location note) now
     = checkIn state (Payload.mk (Some s) name location note) now
  /\ userKey (Some (ws1 ++ s ++ ws2)) = JS.trim s
  /\ userKey (Some (JS.trim s)) = JS.trim s.
Proof.
  intros H1 H2.
  assert (Hk : userKey (Some (ws1 ++ s ++ ws2)) = userKey (Some s))
    by (rewrite !userKey_Some; now apply trim_spaces).
  split; [now apply getOrCreateUser_key |].
  split; [now apply checkIn_key |].
  split; [rewrite Hk; apply userKey_Some |].
  rewrite userKey_Some. apply trim_trim.
Qed.

Lemma userId_trimmed_witness :
  checkIn Scenario.lostP1
    (Payload.mk (Some (JS.lit "  " ++ JS.lit "p1" ++ [9; 10; 160]%N)) None None None)
    Scenario.day0
  = checkIn Scenario.lostP1 (Payload.mk (Some (JS.lit "p1")) None None None) Scenario.day0.
Proof.
  apply (userId_trimmed Scenario.lostP1 (JS.lit "  ") (JS.lit "p1") [9; 10; 160]%N);
    reflexivity.
Defined.

(** X5. A note is kept as null, when it is absent or made of white space
    only, or as a string of 1 to 180 code units, the beginning of the
    trimmed note, which does not begin with white space; a trimmed note of
    at most 180 code units is kept whole. *)
Theorem normalizeCheckInNote_bounds (value : option jsstring) :
  match normalizeCheckInNote value with
  | None => JS.trim (JS.orElse value []) = []
  | Some n =>
      (1 <= length n <= 180)%nat
      /\ n `prefix_of` JS.trim (JS.orElse value [])
      /\ headNotSpace n
      /\ ((length (JS.trim (JS.orElse value [])) <= 180)%nat ->
          n = JS.trim (JS.orElse value []))
  end.
Proof.
  pose proof (normalizeCheckInNote_clean value) as Hc.
  unfold normalizeCheckInNote in *.
  destruct (JS.trim (JS.orElse value [])) as [| c r] eqn:Ht; [reflexivity |].
  destruct Hc as [Hl Hh]. split; [exact Hl |]. split; [| split; [exact Hh |]].
  - unfold JS.slice0. apply prefix_take.
  - intros Hle. unfold JS.slice0. now apply take_ge.
Qed.

Lemma normalizeCheckInNote_bounds_witness :
  normalizeCheckInNote (Some (JS.lit "  safe at the gym  ")) = Some (JS.lit "safe at the gym").
Proof.
  pose proof (normalizeCheckInNote_bounds (Some (JS.lit "  safe at the gym  "))) as H.
  destruct (normalizeCheckInNote (Some (JS.lit "  safe at the gym  "))) as [n |] eqn:E;
    [| vm_compute in E; discriminate E].
  destruct H as (_ & _ & _ & H). rewrite H; [reflexivity | vm_compute; lia].
Defined.

(** X6. In every state that a sequence of operations reaches, a
    participant is stored under its id, which is not empty and has no
    white space at either end, and its name has at most 60 code units. *)
Theorem participant_identity (ops : list Op) (k : jsstring) (user : User.t) :
  (k, user) ∈ State.users (run ops) ->
  User.id user = k
  /\ k <> []
  /\ JS.trim k = k
  /\ headNotSpace k /\ headNotSpace (rev k)
  /\ (length (User.name user) <= 60)%nat.
Proof.
  intros Hin. destruct (Life_elem _ _ _ Hin) as [[H1 H1'] H2 H3 _ _ _ _ _ _].
  cbn [fst snd] in *. repeat split; try assumption.
  - rewrite <- H1'. apply trim_head.
  - rewrite <- H1'. apply trim_last.
Qed.

Lemma participant_identity_witness :
  exists k user, (k, user) ∈ State.users Scenario.lostP1
                 /\ User.id user = k /\ (length (User.name user) <= 60)%nat.
Proof.
  first_entry Scenario.lostP1 k user E Hin.
  exists k, user. split; [apply list_elem_of_here |].
  unfold Scenario.lostP1 in Hin.
  destruct (participant_identity _ _ _ Hin) as (A & _ & _ & _ & _ & B). auto.
Defined.

(** X7. In every reachable state, check-ins that a conversion stopped
    among the operations, a participant whose status is unknown has never
    checked in: no last check-in, no day key, streak 0, no history. (It
    can have a location: a check-in stores the location before a note
    that cannot be converted stops it.) Any other participant has
    checked in at some time [t]: its [lastCheckInDayKey] is the day key of
    its [lastCheckInAt], its streak is at least 1, and its history still
    holds the entry of that check-in. *)
Theorem participant_lifecycle (ops : list Op) (k : jsstring) (user : User.t) :
  (k, user) ∈ State.users (run ops) ->
  (User.status user = unknown ->
   User.lastCheckInAt user = None
   /\ User.lastCheckInDayKey user = None
   /\ User.streak user = 0
   /\ User.checkInHistory user = [])
  /\ (User.status user <> unknown ->
      exists t e,
        User.lastCheckInAt user = Some t
        /\ User.lastCheckInDayKey user = Some (Time.utcDayKey t)
        /\ 1 <= User.streak user
        /\ e ∈ User.checkInHistory user
        /\ HistoryEntry.dayKey e = Time.utcDayKey t
        /\ HistoryEntry.at_ e = DateFn.toISOString t).
Proof.
  intros Hin. destruct (Life_elem _ _ _ Hin) as [_ _ _ H4 H5 _ _ _ _].
  cbn [fst snd] in *. split; [exact H4 |].
  intros Hs. destruct (H5 Hs) as (t & e & A & B & C & D & E1 & E2).
  exists t, e. auto 10.
Qed.

Lemma participant_lifecycle_witness :
  (exists k user t,
     (k, user) ∈ State.users Scenario.lostP1
     /\ User.status user = missing
     /\ User.lastCheckInAt user = Some t
     /\ User.lastCheckInDayKey user = Some (Time.utcDayKey t))
  /\ (exists k user,
        (k, user) ∈ State.users (run [OpCheckInRaw (Some Scenario.p1_stops) Scenario.day0])
        /\ User.status user = unknown
        /\ User.lastKnownLocation user = Some Scenario.away
        /\ User.streak user = 0
        /\ User.checkInHistory user = []).
Proof.
  split.
  - first_entry Scenario.lostP1 k user E Hin.
    assert (Hm : User.status user = missing) by (vm_compute in E; now injection E as _ <-).
    unfold Scenario.lostP1 in Hin.
    destruct (participant_lifecycle _ _ _ Hin) as [_ A].
    destruct A as (t & e & A & B & _); [rewrite Hm; discriminate |].
    exists k, user, t. split; [apply list_elem_of_here | auto].
  - set (ops := [OpCheckInRaw (Some Scenario.p1_stops) Scenario.day0]).
    first_entry (run ops) k user E Hin.
    assert (Hs : User.status user = unknown) by (vm_compute in E; now injection E as _ <-).
    assert (Hl : User.lastKnownLocation user = Some Scenario.away)
      by (vm_compute in E; now injection E as _ <-).
    destruct (participant_lifecycle _ _ _ Hin) as [A _].
    destruct (A Hs) as (_ & _ & B & C).
    exists k, user. split; [apply list_elem_of_here | auto].
Defined.

(** X8. In every reachable state, a participant who is not missing has
    neither a [missingSince] nor a danger-zone record. A missing one has
    checked in before (nobody goes from unknown to missing), its
    [missingSince] is its last check-in time, never the time of the sweep,
    and its record has the reason "streak-broken", the id under which the
    participant is stored, and as [lastSeenAt] the ISO rendering of that
    last check-in; the location of the record is null when the
    participant has no last known location. (When it has one, the record
    can hold an older one: a check-in that a conversion stops has stored
    its location, and left the record.) *)
Theorem missing_since_last_checkIn (ops : list Op) (k : jsstring) (user : User.t) :
  (k, user) ∈ State.users (run ops) ->
  (User.status user <> missing ->
   User.missingSince user = None /\ User.dangerZone user = None)
  /\ (User.status user = missing ->
      exists t dz,
        User.lastCheckInAt user = Some t
        /\ User.missingSince user = Some t
        /\ User.dangerZone user = Some dz
        /\ DangerZone.type dz = JS.lit "danger-zone"
        /\ DangerZone.reason dz = JS.lit "streak-broken"
        /\ DangerZone.userId dz = k
        /\ (User.lastKnownLocation user = None -> DangerZone.location dz = None)
        /\ DangerZone.lastSeenAt dz = DateFn.toISOString t).
Proof.
  intros Hin. destruct (Life_elem _ _ _ Hin) as [_ _ _ _ _ H6 H7 _ _].
  cbn [fst snd] in *. split; [assumption |].
  intros Hm. destruct (H7 Hm) as (t & dz & A & B & C & D & E & F & _ & G & H).
  exists t, dz. auto 10.
Qed.

Lemma missing_since_last_checkIn_witness :
  exists k user dz,
    (k, user) ∈ State.users
                  (run [OpCheckIn Scenario.p1_home Scenario.day0;
                        OpSweep (Scenario.day0 + Scenario.days 3);
                        OpCheckInRaw (Some Scenario.p1_stops)
                          (Scenario.day0 + Scenario.days 4)])
    /\ User.status user = missing
    /\ User.missingSince user = Some Scenario.day0
    /\ User.dangerZone user = Some dz
    /\ DangerZone.lastSeenAt dz = JS.lit "2024-03-01T00:00:00.000Z"
    /\ DangerZone.location dz = Some Scenario.home
    /\ User.lastKnownLocation user = Some Scenario.away.
Proof.
  set (ops := [OpCheckIn Scenario.p1_home Scenario.day0;
               OpSweep (Scenario.day0 + Scenario.days 3);
               OpCheckInRaw (Some Scenario.p1_stops) (Scenario.day0 + Scenario.days 4)]).
  first_entry (run ops) k user E Hin.
  assert (Hm : User.status user = missing) by (vm_compute in E; now injection E as _ <-).
  assert (Ht : User.lastCheckInAt user = Some Scenario.day0)
    by (vm_compute in E; now injection E as _ <-).
  assert (Hl : User.lastKnownLocation user = Some Scenario.away)
    by (vm_compute in E; now injection E as _ <-).
  destruct (missing_since_last_checkIn _ _ _ Hin) as [_ A].
  destruct (A Hm) as (t & dz & A1 & A2 & A3 & _ & _ & _ & _ & A4).
  rewrite Ht in A1. injection A1 as <-.
  assert (Hd : DangerZone.location dz = Some Scenario.home).
  { vm_compute in E. injection E as _ <-. vm_compute in A3. now injection A3 as <-. }
  exists k, user, dz. split; [apply list_elem_of_here |]. split; [exact Hm |].
  split; [exact A2 |]. split; [exact A3 |].
  split; [rewrite A4; vm_compute; reflexivity |]. split; [exact Hd | exact Hl].
Defined.

(** X9. No location that is not finite is ever stored or listed: in
    every reachable state the [lastKnownLocation] of a participant and the
    location of each entry of its history are null or have two finite
    coordinates, and so has the location of each record that
    [dangerZones] returns. *)
Theorem stored_locations_finite (ops : list Op) (now : Date) :
  (forall k user,
     (k, user) ∈ State.users (run ops) ->
     finiteLocation (User.lastKnownLocation user)
     /\ forall e, e ∈ User.checkInHistory user -> finiteLocation (HistoryEntry.location e))
  /\ (forall dz,
        dz ∈ snd (dangerZones (run ops) now) -> finiteLocation (DangerZone.location dz)).
Proof.
  split.
  - intros k user Hin. destruct (Life_elem _ _ _ Hin) as [_ _ _ _ _ _ _ H8 H9].
    cbn [fst snd] in *. split; [exact H8 |].
    intros e He. rewrite Forall_forall in H9. now apply H9.
  - intros dz Hdz. apply dangerZones_source in Hdz as (k & user & Hin & Hm & Hd).
    rewrite dangerZones_run in Hin.
    destruct (Life_elem _ _ _ Hin) as [_ _ _ _ _ _ H7 H8 _]. cbn [fst snd] in *.
    destruct (H7 Hm) as (t & dz' & _ & _ & Hd' & _ & _ & _ & Hl & _).
    rewrite Hd in Hd'. now injection Hd' as <-.
Qed.

Lemma stored_locations_finite_witness :
  exists k user,
    (k, user) ∈ State.users
                  (run [OpCheckIn Scenario.p1_home Scenario.day0;
                        OpCheckIn Scenario.p1_nowhere (Scenario.day0 + Scenario.days 1)])
    /\ User.lastKnownLocation user = Some Scenario.home
    /\ finiteLocation (User.lastKnownLocation user).
Proof.
  set (ops := [OpCheckIn Scenario.p1_home Scenario.day0;
               OpCheckIn Scenario.p1_nowhere (Scenario.day0 + Scenario.days 1)]).
  first_entry (run ops) k user E Hin.
  assert (Hl : User.lastKnownLocation user = Some Scenario.home)
    by (vm_compute in E; now injection E as _ <-).
  destruct (stored_locations_finite ops 0) as [A _].
  destruct (A _ _ Hin) as [B _].
  exists k, user. split; [apply list_elem_of_here | auto].
Defined.

(** X10. In every reachable state, each entry of a history is the entry
    of a check-in: its day key and its [at] are the day key and the ISO
    rendering of one and the same time, and its note is null or has 1 to
    180 code units. Two entries at different places of a history are from
    different UTC days. *)
Theorem history_entries (ops : list Op) (k : jsstring) (user : User.t) :
  (k, user) ∈ State.users (run ops) ->
  (forall e,
     e ∈ User.checkInHistory user ->
     (exists t, HistoryEntry.dayKey e = Time.utcDayKey t
                /\ HistoryEntry.at_ e = DateFn.toISOString t)
     /\ match HistoryEntry.note e with
        | None => True
        | Some n => (1 <= length n <= 180)%nat
        end)
  /\ (forall i j ei ej ti tj,
        User.checkInHistory user !! i = Some ei ->
        User.checkInHistory user !! j = Some ej ->
        HistoryEntry.dayKey ei = Time.utcDayKey ti ->
        HistoryEntry.dayKey ej = Time.utcDayKey tj ->
        i <> j -> ti / 86400000 <> tj / 86400000).
Proof.
  intros Hin. split.
  - intros e He. destruct (Life_elem _ _ _ Hin) as [_ _ _ _ _ _ _ _ H9].
    cbn [fst snd] in *. rewrite Forall_forall in H9.
    destruct (H9 e He) as (Ht & _ & Hn). split; [exact Ht |].
    destruct (HistoryEntry.note e); [apply Hn | exact I].
  - intros i j ei ej ti tj Hi Hj Ei Ej Hne Hd.
    destruct (Inv_run ops) as [_ Hall]. rewrite Forall_forall in Hall.
    destruct (Hall _ Hin) as [_ _ H3 _ _]. cbn [snd] in H3.
    apply Hne. apply historyKeys_lookup in Hi, Hj.
    rewrite Ei in Hi. rewrite Ej in Hj.
    assert (Hk : Time.utcDayKey ti = Time.utcDayKey tj) by now apply utcDayKey_iff.
    rewrite Hk in Hi. eapply NoDup_lookup; eassumption.
Qed.

Lemma history_entries_witness :
  exists k user e,
    (k, user) ∈ State.users Scenario.lostP1
    /\ User.checkInHistory user = [e]
    /\ HistoryEntry.note e = Some (JS.lit "safe")
    /\ exists t, HistoryEntry.dayKey e = Time.utcDayKey t.
Proof.
  first_entry Scenario.lostP1 k user E Hin.
  destruct (User.checkInHistory user) as [| e h] eqn:Eh;
    [vm_compute in E; injection E as _ <- _; discriminate Eh |].
  assert (He : e ∈ User.checkInHistory user) by (rewrite Eh; apply list_elem_of_here).
  unfold Scenario.lostP1 in Hin.
  destruct (history_entries _ _ _ Hin) as [A _].
  destruct (A e He) as [(t & B & _) _].
  exists k, user, e. split; [apply list_elem_of_here |].
  vm_compute in E. injection E as _ <- _. injection Eh as <- <-.
  split; [reflexivity |]. split; [reflexivity |]. exists t. exact B.
Defined.

(** ** What an operation leaves alone *)

Section Frames.

Lemma set_absent (m : UserMap.t) k v :
  UserMap.get m k = None -> UserMap.set m k v = m ++ [(k, v)].
Proof.
  induction m as [| [k0 v0] r IH]; cbn [UserMap.get UserMap.set app]; [reflexivity |].
  destruct (decide (k0 = k)); [discriminate |]. intros H. now rewrite IH.
Qed.

Lemma elem_get (m : UserMap.t) k v :
  NoDup (UserMap.keys m) -> (k, v) ∈ m -> UserMap.get m k = Some v.
Proof.
  induction m as [| [k0 v0] r IH]; cbn [UserMap.get UserMap.keys map fst];
    [intros _ H; inversion H |].
  intros Hnd Hin. apply NoDup_cons in Hnd as [Hk0 Hnd].
  apply elem_of_cons in Hin as [[= -> ->] | Hin].
  - now rewrite decide_True.
  - destruct (decide (k0 = k)) as [-> | Hk]; [| now apply IH].
    exfalso. apply Hk0. unfold UserMap.keys in *.
    apply list_elem_of_In. change k with (fst (k, v)). apply in_map.
    now apply list_elem_of_In.
Qed.

Lemma withUser_frame state k user :
  (forall k', k' <> k ->
              UserMap.get (State.users (withUser state k user)) k'
              = UserMap.get (State.users state) k')
  /\ State.made (withUser state k user) = State.made state
  /\ UserMap.keys (State.users (withUser state k user))
     = match UserMap.get (State.users state) k with
       | Some _ => UserMap.keys (State.users state)
       | None => UserMap.keys (State.users state) ++ [k]
       end.
Proof.
  cbn [withUser State.users State.made]. split; [| split; [reflexivity |]].
  - intros k' Hne. now apply get_set_ne.
  - destruct (UserMap.get (State.users state) k) as [u |] eqn:Hg.
    + now apply (keys_set_present _ _ u).
    + now apply keys_set_absent.
Qed.

(** The user of a key after a sweep is that user after its turn. *)
Lemma get_sweepUsers users made now k user :
  UserMap.get users k = Some user ->
  exists n, UserMap.get (fst (sweepUsers users made now)) k
            = Some (snd (sweepUser n user now)).
Proof.
  revert made. induction users as [| [k0 u0] rest IH]; intros made; [discriminate |].
  rewrite sweepUsers_cons. cbn [fst UserMap.get].
  destruct (decide (k0 = k)) as [-> | Hne].
  - intros [= ->]. now exists made.
  - intros Hg. apply IH. exact Hg.
Qed.

Lemma sweepUser_fresh n user now :
  User.status user <> missing ->
  Time.isOlderThanYesterdayDayKey (User.lastCheckInDayKey user) now = false ->
  sweepUser n user now = (n, user).
Proof. intros Hm Ho. unfold sweepUser. now rewrite decide_False, Ho. Qed.

Lemma sweepUser_stale n user now :
  User.status user <> missing ->
  Time.isOlderThanYesterdayDayKey (User.lastCheckInDayKey user) now = true ->
  sweepUser n user now = (S n, markedMissing n user now (JS.lit "streak-broken")).
Proof.
  intros Hm Ho. unfold sweepUser. rewrite decide_False, Ho by assumption.
  now apply markMissing_fresh.
Qed.

Lemma sweepUser_missing n user now :
  User.status user = missing -> sweepUser n user now = (n, user).
Proof. intros Hm. unfold sweepUser. now rewrite decide_True. Qed.

(** What a turn of the sweep keeps of a user. *)
Lemma sweepUser_keeps n user now :
  let user' := snd (sweepUser n user now) in
  User.id user' = User.id user
  /\ User.name user' = User.name user
  /\ User.streak user' = User.streak user
  /\ User.lastCheckInAt user' = User.lastCheckInAt user
  /\ User.lastCheckInDayKey user' = User.lastCheckInDayKey user
  /\ User.lastKnownLocation user' = User.lastKnownLocation user
  /\ User.checkInHistory user' = User.checkInHistory user.
Proof.
  cbv zeta. destruct (decide (User.status user = missing)) as [Hm | Hm].
  - rewrite sweepUser_missing by assumption. cbn [snd]. auto 10.
  - destruct (Time.isOlderThanYesterdayDayKey (User.lastCheckInDayKey user) now) eqn:Ho.
    + rewrite sweepUser_stale by assumption. cbn [snd]. auto 10.
    + rewrite sweepUser_fresh by assumption. cbn [snd]. auto 10.
Qed.

End Frames.

(** X11. A request touches one participant only: after [getOrCreateUser]
    or [checkIn] on an id, the participant stored under any other id is
    the one that was there, no identifier has been drawn, and the order of
    the map is kept, the id being added at the end if it is new. *)
Theorem request_frame (state : State.t) (payload : Payload.t) (now : Date)
    (state' : State.t) (user' : User.t) :
  getOrCreateUser state (Payload.userId payload) (Payload.name payload) = Ok (state', user')
  \/ checkIn state payload now = Ok (state', user') ->
  let key := userKey (Payload.userId payload) in
  UserMap.get (State.users state') key = Some user'
  /\ (forall k, k <> key ->
                UserMap.get (State.users state') k = UserMap.get (State.users state) k)
  /\ State.made state' = State.made state
  /\ UserMap.keys (State.users state')
     = match UserMap.get (State.users state) key with
       | Some _ => UserMap.keys (State.users state)
       | None => UserMap.keys (State.users state) ++ [key]
       end.
Proof.
  intros H key.
  assert (Hs : state' = withUser state key user').
  { destruct H as [H | H];
      [apply getOrCreateUser_inv in H | apply checkIn_inv in H]; tauto. }
  rewrite Hs. split; [apply get_withUser | apply withUser_frame].
Qed.

Lemma request_frame_witness :
  exists s u,
    checkIn Scenario.lostP1
      (Payload.mk (Some (JS.lit "p2")) None (Some Scenario.home) None) Scenario.day0
    = Ok (s, u)
    /\ UserMap.keys (State.users s) = [JS.lit "p1"; JS.lit "p2"]
    /\ UserMap.get (State.users s) (JS.lit "p1")
       = UserMap.get (State.users Scenario.lostP1) (JS.lit "p1").
Proof.
  set (p2 := Payload.mk (Some (JS.lit "p2")) None (Some Scenario.home) None).
  destruct (checkIn Scenario.lostP1 p2 Scenario.day0) as [[s u] | e] eqn:H;
    [| vm_compute in H; discriminate H].
  destruct (request_frame _ _ _ _ _ (or_intror H)) as (_ & A & _ & B).
  exists s, u. split; [reflexivity |]. split.
  - rewrite B. vm_compute. reflexivity.
  - apply A. vm_compute. congruence.
Defined.

(** X12. Looking a participant up, as the route of a user does with no
    name, changes nothing when the participant exists; for a new id it
    adds at the end of the map a participant in the unknown state, with
    streak 0, no check-in, no location, an empty history, and the name
    that is given, or "Unknown Survivor", cut to 60 code units. *)
Theorem getOrCreateUser_lookup (state : State.t) (userId name : option jsstring) :
  userKey userId <> [] ->
  match UserMap.get (State.users state) (userKey userId) with
  | Some user =>
      getOrCreateUser state userId None = Ok (state, user)
      /\ getOrCreateUser state userId (Some []) = Ok (state, user)
  | None =>
      exists user state',
        getOrCreateUser state userId name = Ok (state', user)
        /\ State.users state' = State.users state ++ [(userKey userId, user)]
        /\ State.made state' = State.made state
        /\ User.id user = userKey userId
        /\ User.name user = take 60 (JS.orElse name (JS.lit "Unknown Survivor"))
        /\ User.status user = unknown
        /\ User.streak user = 0
        /\ User.lastCheckInAt user = None
        /\ User.lastCheckInDayKey user = None
        /\ User.lastKnownLocation user = None
        /\ User.checkInHistory user = []
        /\ User.missingSince user = None
        /\ User.dangerZone user = None
  end.
Proof.
  intros Hne. destruct (UserMap.get _ _) as [user |] eqn:Hg.
  - rewrite !getOrCreateUser_Ok by assumption. unfold resolved, withUser. rewrite Hg.
    cbn [JS.truthy]. rewrite (set_get_id _ _ _ Hg). now destruct state.
  - rewrite getOrCreateUser_Ok by assumption. unfold resolved, withUser. rewrite Hg.
    do 2 eexists. split; [reflexivity |]. cbn [State.users State.made].
    split; [now apply set_absent |]. repeat split; reflexivity.
Qed.

Lemma getOrCreateUser_lookup_witness :
  (exists user, getOrCreateUser Scenario.lostP1 (Some (JS.lit "p1")) None
                = Ok (Scenario.lostP1, user))
  /\ exists user state',
       getOrCreateUser Scenario.lostP1 (Some (JS.lit "p9")) None = Ok (state', user)
       /\ User.name user = JS.lit "Unknown Survivor".
Proof.
  split.
  - pose proof (getOrCreateUser_lookup Scenario.lostP1 (Some (JS.lit "p1")) None) as H.
    destruct (UserMap.get (State.users Scenario.lostP1) (userKey (Some (JS.lit "p1"))))
      as [user |] eqn:Hg; [| vm_compute in Hg; discriminate Hg].
    exists user. apply H. vm_compute. congruence.
  - pose proof (getOrCreateUser_lookup Scenario.lostP1 (Some (JS.lit "p9")) None) as H.
    destruct (UserMap.get (State.users Scenario.lostP1) (userKey (Some (JS.lit "p9"))))
      as [user |] eqn:Hg; [vm_compute in Hg; discriminate Hg |].
    destruct H as (user & state' & A & _ & _ & _ & B & _); [vm_compute; congruence |].
    exists user, state'. split; [exact A |]. rewrite B. reflexivity.
Defined.

(** ** Sweeps *)

Section Sweeps.

Lemma sweepUser_toMark n k user now :
  sweepUser n user now
  = if toMark now (k, user)
    then (S n, markedMissing n user now (JS.lit "streak-broken"))
    else (n, user).
Proof.
  unfold toMark. cbn [snd]. destruct (decide (User.status user = missing)) as [Hm | Hm].
  - rewrite sweepUser_missing, bool_decide_eq_true_2 by assumption. reflexivity.
  - rewrite bool_decide_eq_false_2 by assumption. cbn [negb andb].
    destruct (Time.isOlderThanYesterdayDayKey _ _) eqn:Ho;
      [now apply sweepUser_stale | now apply sweepUser_fresh].
Qed.

(** A sweep draws one identifier for each participant that it marks. *)
Lemma sweepUsers_drawn users made now :
  snd (sweepUsers users made now) = (made + length (filter (toMark now) users))%nat.
Proof.
  revert made. induction users as [| [k u] rest IH]; intros made; [cbn; lia |].
  rewrite sweepUsers_cons. cbn [snd]. rewrite IH, (sweepUser_toMark made k).
  rewrite filter_cons. destruct (toMark now (k, u)) eqn:Ht.
  - rewrite decide_True by exact I. cbn [fst length]. lia.
  - rewrite decide_False by (intros []). cbn [fst]. lia.
Qed.

End Sweeps.

(** X13. A sweep changes nothing but the status, [missingSince] and
    [dangerZone] of the participants that it marks. It keeps the ids and
    their order; a participant that is already missing, or whose day key
    is not stale, is left as it is; a participant is missing afterwards
    exactly when it was missing or stale; id, name, streak (which is not
    reset), last check-in, location and history are kept; and the sweep
    draws one identifier for each participant that it marks. *)
Theorem sweep_frame (state : State.t) (now : Date) :
  let state' := sweepForBrokenStreaks state now in
  UserMap.keys (State.users state') = UserMap.keys (State.users state)
  /\ State.made state'
     = (State.made state + length (filter (toMark now) (State.users state)))%nat
  /\ forall i k user,
       State.users state !! i = Some (k, user) ->
       exists user',
         State.users state' !! i = Some (k, user')
         /\ (toMark now (k, user) = false -> user' = user)
         /\ (User.status user' = missing <->
             User.status user = missing
             \/ Time.isOlderThanYesterdayDayKey (User.lastCheckInDayKey user) now = true)
         /\ User.id user' = User.id user
         /\ User.name user' = User.name user
         /\ User.streak user' = User.streak user
         /\ User.lastCheckInAt user' = User.lastCheckInAt user
         /\ User.lastCheckInDayKey user' = User.lastCheckInDayKey user
         /\ User.lastKnownLocation user' = User.lastKnownLocation user
         /\ User.checkInHistory user' = User.checkInHistory user.
Proof.
  cbv zeta. rewrite sweepForBrokenStreaks_eq. cbn [State.users State.made].
  split; [apply sweepUsers_keys |]. split; [apply sweepUsers_drawn |].
  intros i k user Hi.
  destruct (sweepUsers_lookup _ (State.made state) now _ _ _ Hi) as (n & _ & _ & Hl).
  exists (snd (sweepUser n user now)). split; [exact Hl |].
  split; [| split; [| apply sweepUser_keeps]].
  - intros Ht. now rewrite (sweepUser_toMark n k), Ht.
  - rewrite (sweepUser_toMark n k). unfold toMark. cbn [snd].
    destruct (decide (User.status user = missing)) as [Hm | Hm].
    + rewrite bool_decide_eq_true_2 by assumption. cbn [negb andb snd]. tauto.
    + rewrite bool_decide_eq_false_2 by assumption. cbn [negb andb].
      destruct (Time.isOlderThanYesterdayDayKey _ _); cbn [snd markedMissing User.status].
      * tauto.
      * split; [tauto |]. intros [H | H]; [contradiction | discriminate].
Qed.

Lemma sweep_frame_witness :
  let state := run [OpCheckIn Scenario.p1_home Scenario.day0;
                    OpCheckIn Scenario.p1_home (Scenario.day0 + Scenario.days 1)] in
  exists k user user',
    State.users state !! 0%nat = Some (k, user)
    /\ State.users (sweepForBrokenStreaks state (Scenario.day0 + Scenario.days 9)) !! 0%nat
       = Some (k, user')
    /\ User.status user' = missing
    /\ User.streak user' = 2.
Proof.
  intros state.
  destruct (State.users state !! 0%nat) as [[k user] |] eqn:Hi;
    [| vm_compute in Hi; discriminate Hi].
  destruct (sweep_frame state (Scenario.day0 + Scenario.days 9)) as (_ & _ & A).
  destruct (A _ _ _ Hi) as (user' & B & _ & C & _ & _ & D & _).
  exists k, user, user'. split; [reflexivity |]. split; [exact B |]. split.
  - apply C. right. vm_compute in Hi. injection Hi as _ <-. vm_compute. reflexivity.
  - rewrite D. vm_compute in Hi. now injection Hi as _ <-.
Defined.

Section ByDays.

(** The day key of a participant who has checked in, in a reachable
    state. *)
Lemma lastCheckInDayKey_of ops k user t :
  (k, user) ∈ State.users (run ops) ->
  User.lastCheckInAt user = Some t ->
  User.lastCheckInDayKey user = Some (Time.utcDayKey t) /\ 1 <= User.streak user.
Proof.
  intros Hin Ht. destruct (Life_elem _ _ _ Hin) as [_ _ _ H4 H5 _ _ _ _].
  cbn [fst snd] in *.
  assert (Hs : User.status user <> unknown).
  { intros Hs. destruct (H4 Hs) as (Hn & _). congruence. }
  destruct (H5 Hs) as (t' & e & A & B & C & _). rewrite Ht in A. injection A as <-. auto.
Qed.

Lemma run_checkIn ops payload now state' user' :
  checkIn (run ops) payload now = Ok (state', user') ->
  state' = run (ops ++ [OpCheckIn payload now]).
Proof. intros H. rewrite run_snoc. cbn [step]. now rewrite H. Qed.

Lemma sweep_run ops now : sweepForBrokenStreaks (run ops) now = run (ops ++ [OpSweep now]).
Proof. now rewrite run_snoc. Qed.

End ByDays.

(** X14. In a reachable state, a sweep at [now] leaves alone a participant
    who has never checked in, and a participant with status ok whose last
    check-in fell on the UTC day of [now] or on the day before. It marks
    missing, since that last check-in, a participant with status ok whose
    last check-in fell on any other day. *)
Theorem sweep_by_days (ops : list Op) (now : Date) (i : nat) (k : jsstring) (user : User.t) :
  State.users (run ops) !! i = Some (k, user) ->
  exists user',
    State.users (sweepForBrokenStreaks (run ops) now) !! i = Some (k, user')
    /\ (User.status user = unknown -> user' = user)
    /\ (forall t,
          User.status user = ok ->
          User.lastCheckInAt user = Some t ->
          (now / 86400000 = t / 86400000 \/ now / 86400000 = t / 86400000 + 1 ->
           user' = user)
          /\ (now / 86400000 <> t / 86400000 ->
              now / 86400000 <> t / 86400000 + 1 ->
              User.status user' = missing /\ User.missingSince user' = Some t)).
Proof.
  intros Hi.
  assert (Hin : (k, user) ∈ State.users (run ops)) by (apply list_elem_of_lookup; eauto).
  rewrite sweepForBrokenStreaks_eq. cbn [State.users].
  destruct (sweepUsers_lookup _ (State.made (run ops)) now _ _ _ Hi) as (n & _ & _ & Hl).
  exists (snd (sweepUser n user now)). split; [exact Hl |]. split.
  - intros Hs. destruct (Life_elem _ _ _ Hin) as [_ _ _ H4 _ _ _ _ _]. cbn [snd] in H4.
    destruct (H4 Hs) as (_ & Hk & _).
    rewrite sweepUser_fresh; [reflexivity | rewrite Hs; discriminate | now rewrite Hk].
  - intros t Hs Ht. destruct (lastCheckInDayKey_of _ _ _ _ Hin Ht) as [Hk _].
    assert (Hm : User.status user <> missing) by (rewrite Hs; discriminate).
    pose proof (stale_by_days t now) as Hd. unfold DateFn.Day, DateFn.msPerDay in Hd.
    split.
    + intros Hday. rewrite sweepUser_fresh; [reflexivity | exact Hm |].
      rewrite Hk, Hd. destruct Hday as [E | E].
      * rewrite E, Z.eqb_refl. reflexivity.
      * replace (now / 86400000 - 1) with (t / 86400000) by lia.
        rewrite Z.eqb_refl. apply andb_false_r.
    + intros H1 H2. rewrite sweepUser_stale; [| exact Hm |].
      * cbn [snd markedMissing User.status User.missingSince]. now rewrite Ht.
      * rewrite Hk, Hd, andb_true_iff, !negb_true_iff, !Z.eqb_neq. lia.
Qed.

Lemma sweep_by_days_witness :
  let ops := [OpCheckIn Scenario.p1 Scenario.day0] in
  exists k user user1 user2,
    State.users (run ops) !! 0%nat = Some (k, user)
    /\ State.users (sweepForBrokenStreaks (run ops)
                      (Scenario.day0 + Scenario.days 1 + 23 * Scenario.hour)) !! 0%nat
       = Some (k, user1)
    /\ user1 = user
    /\ State.users (sweepForBrokenStreaks (run ops) (Scenario.day0 + Scenario.days 2)) !! 0%nat
       = Some (k, user2)
    /\ User.status user2 = missing.
Proof.
  intros ops.
  destruct (State.users (run ops) !! 0%nat) as [[k user] |] eqn:Hi;
    [| vm_compute in Hi; discriminate Hi].
  assert (Hs : User.status user = ok) by (vm_compute in Hi; now injection Hi as _ <-).
  assert (Ht : User.lastCheckInAt user = Some Scenario.day0)
    by (vm_compute in Hi; now injection Hi as _ <-).
  destruct (sweep_by_days ops (Scenario.day0 + Scenario.days 1 + 23 * Scenario.hour) _ _ _ Hi)
    as (user1 & A1 & _ & B1).
  destruct (sweep_by_days ops (Scenario.day0 + Scenario.days 2) _ _ _ Hi)
    as (user2 & A2 & _ & B2).
  exists k, user, user1, user2. split; [reflexivity |]. split; [exact A1 |].
  split; [apply (B1 _ Hs Ht); right; vm_compute; reflexivity |]. split; [exact A2 |].
  apply (B2 _ Hs Ht); vm_compute; congruence.
Defined.

(** The streak that a check-in leaves, by days. *)
Lemma streak_by_days (ops : list Op) (payload : Payload.t) (now : Date)
    (state' : State.t) (user' : User.t) :
  checkIn (run ops) payload now = Ok (state', user') ->
  match UserMap.get (State.users (run ops)) (userKey (Payload.userId payload)) with
  | None => User.streak user' = 1
  | Some user =>
      match User.lastCheckInAt user with
      | None => User.streak user' = 1
      | Some t =>
          User.streak user'
          = if now / 86400000 =? t / 86400000 then User.streak user
            else if now / 86400000 =? t / 86400000 + 1 then User.streak user + 1
                 else 1
      end
  end.
Proof.
  intros Hc. apply checkIn_inv in Hc as (_ & -> & _).
  cbn [checkedIn User.streak]. rewrite resolved_lastCheckInDayKey, resolved_streak.
  destruct (UserMap.get _ _) as [user |] eqn:Hg; cbn [mbind option_bind from_option].
  2:{ now rewrite !decide_False by discriminate. }
  assert (Hin : (userKey (Payload.userId payload), user) ∈ State.users (run ops))
    by (apply list_elem_of_In; now apply get_In).
  destruct (User.lastCheckInAt user) as [t |] eqn:Ht.
  - destruct (lastCheckInDayKey_of _ _ _ _ Hin Ht) as [Hk Hst]. rewrite Hk.
    destruct (Z.eqb_spec (now / 86400000) (t / 86400000)) as [E | E].
    { rewrite decide_True; [reflexivity |]. f_equal. apply utcDayKey_iff.
      unfold DateFn.Day, DateFn.msPerDay. lia. }
    rewrite decide_False
      by (intros [= E']; apply utcDayKey_iff in E';
          unfold DateFn.Day, DateFn.msPerDay in E'; lia).
    destruct (Z.eqb_spec (now / 86400000) (t / 86400000 + 1)) as [E1 | E1].
    + rewrite decide_True; [lia |]. f_equal. apply utcYesterdayDayKey_iff.
      unfold DateFn.Day, DateFn.msPerDay. lia.
    + rewrite decide_False; [reflexivity |]. intros [= E']. apply utcYesterdayDayKey_iff in E'.
      unfold DateFn.Day, DateFn.msPerDay in E'. lia.
  - destruct (Life_elem _ _ _ Hin) as [_ _ _ H4 H5 _ _ _ _]. cbn [fst snd] in *.
    destruct (decide (User.status user = unknown)) as [Hs | Hs].
    + destruct (H4 Hs) as (_ & Hk & _). rewrite Hk. now rewrite !decide_False by discriminate.
    + destruct (H5 Hs) as (t & e & A & _). congruence.
Qed.


(** X15. On a reachable state, the streak that a check-in leaves is read
    off the days: for a participant whose last check-in was at [t], it is
    the same streak when [now] falls on the UTC day of [t], one more when
    it falls on the day after, and 1 on any other day; it is 1 for a
    participant who checks in for the first time. *)
Theorem checkIn_streak_by_days (ops : list Op) (payload : Payload.t) (now : Date)
    (state' : State.t) (user' : User.t) :
  checkIn (run ops) payload now = Ok (state', user') ->
  match UserMap.get (State.users (run ops)) (userKey (Payload.userId payload)) with
  | None => User.streak user' = 1
  | Some user =>
      match User.lastCheckInAt user with
      | None => User.streak user' = 1
      | Some t =>
          User.streak user'
          = if now / 86400000 =? t / 86400000 then User.streak user
            else if now / 86400000 =? t / 86400000 + 1 then User.streak user + 1
                 else 1
      end
  end.
Proof. apply streak_by_days. Qed.

Lemma checkIn_streak_by_days_witness :
  let ops := [OpCheckIn Scenario.p1 Scenario.day0;
              OpCheckIn Scenario.p1 (Scenario.day0 + Scenario.days 1 + Scenario.hour)] in
  exists s u,
    checkIn (run ops) Scenario.p1 (Scenario.day0 + Scenario.days 2) = Ok (s, u)
    /\ User.streak u = 3.
Proof.
  intros ops.
  destruct (checkIn (run ops) Scenario.p1 (Scenario.day0 + Scenario.days 2))
    as [[s u] | e] eqn:H; [| vm_compute in H; discriminate H].
  exists s, u. split; [reflexivity |].
  pose proof (checkIn_streak_by_days _ _ _ _ _ H) as A.
  destruct (UserMap.get (State.users (run ops)) (userKey (Payload.userId Scenario.p1)))
    as [user |] eqn:Hg; [| vm_compute in Hg; discriminate Hg].
  vm_compute in Hg. injection Hg as <-. exact A.
Defined.

(** ** The list of danger zones *)

Section Zones.

Lemma collectZones_userIds users :
  Forall Life users ->
  DangerZone.userId <$> collectZones (UserMap.values users) = missingKeys users.
Proof.
  unfold missingKeys. induction 1 as [| [k u] rest Hu Hrest IH]; [reflexivity |].
  cbn [UserMap.values map snd collectZones]. rewrite filter_cons. cbn [snd].
  destruct (decide (User.status u = missing)) as [Hm | Hm].
  - destruct Hu as [_ _ _ _ _ _ H7 _ _]. cbn [fst snd] in H7.
    destruct (H7 Hm) as (t & dz & _ & _ & Hd & _ & _ & Hid & _).
    rewrite Hd. cbn [fmap list_fmap fst]. rewrite Hid. f_equal. exact IH.
  - exact IH.
Qed.

Lemma missingKeys_sublist users : missingKeys users `sublist_of` UserMap.keys users.
Proof.
  unfold missingKeys. change (UserMap.keys users) with (fst <$> users).
  apply fmap_sublist, sublist_filter.
Qed.

Lemma zoneIds_cons k u rest :
  zoneIds ((k, u) :: rest)
  = match User.dangerZone u with
    | Some dz => DangerZone.id dz :: zoneIds rest
    | None => zoneIds rest
    end.
Proof. unfold zoneIds. cbn [omap list_omap snd]. now destruct (User.dangerZone u). Qed.

Lemma zoneIds_set_same (m : UserMap.t) k v :
  UserMap.get m k ≫= User.dangerZone = User.dangerZone v ->
  zoneIds (UserMap.set m k v) = zoneIds m.
Proof.
  induction m as [| [k0 v0] r IH]; cbn [UserMap.get UserMap.set].
  - cbn. intros <-. reflexivity.
  - destruct (decide (k0 = k)) as [-> | Hne].
    + cbn [mbind option_bind]. intros H. now rewrite !zoneIds_cons, H.
    + intros H. rewrite !zoneIds_cons, IH by assumption. reflexivity.
Qed.

Lemma zoneIds_set_None (m : UserMap.t) k v :
  User.dangerZone v = None -> zoneIds (UserMap.set m k v) `sublist_of` zoneIds m.
Proof.
  intros Hv. induction m as [| [k0 v0] r IH]; cbn [UserMap.set].
  - rewrite zoneIds_cons, Hv. reflexivity.
  - destruct (decide (k0 = k)) as [-> | Hne]; rewrite !zoneIds_cons.
    + rewrite Hv. destruct (User.dangerZone v0); [apply sublist_cons |]; reflexivity.
    + destruct (User.dangerZone v0); [now apply sublist_skip | exact IH].
Qed.

(** After a sweep, the identifiers of the records are those of before, or
    drawn by the sweep, and no two are the same. *)
Lemma zoneIds_sweepUsers users made now :
  NoDup (zoneIds users) ->
  Forall (fun x => x < made)%nat (zoneIds users) ->
  NoDup (zoneIds (fst (sweepUsers users made now)))
  /\ Forall (fun x => x ∈ zoneIds users \/ (made <= x)%nat)
       (zoneIds (fst (sweepUsers users made now))).
Proof.
  revert made. induction users as [| [k u] rest IH]; intros made Hnd Hlt.
  { cbn. split; constructor. }
  rewrite sweepUsers_cons. cbn [fst].
  pose proof (sweepUser_made made u now) as Hm.
  assert (Hrest : NoDup (zoneIds rest) /\ Forall (fun x => x < made)%nat (zoneIds rest)).
  { rewrite zoneIds_cons in Hnd, Hlt. destruct (User.dangerZone u).
    - apply NoDup_cons in Hnd as [_ Hnd]. apply Forall_cons in Hlt as [_ Hlt]. auto.
    - auto. }
  destruct Hrest as [Hnd' Hlt'].
  destruct (IH (fst (sweepUser made u now)) Hnd') as [IH1 IH2].
  { eapply Forall_impl; [exact Hlt' |]. cbn. intros x Hx. lia. }
  rewrite Forall_forall in IH2.
  rewrite (zoneIds_cons k (snd (sweepUser made u now))).
  destruct (User.dangerZone (snd (sweepUser made u now))) as [dz |] eqn:Hdz.
  - destruct (sweepUser_dangerZone _ _ _ _ Hdz) as [[Hold Hf] | [Hnew Hf]].
    + (* the record that the user had *)
      rewrite zoneIds_cons, Hold in Hnd, Hlt.
      apply NoDup_cons in Hnd as [Hnot _]. apply Forall_cons in Hlt as [Hid _].
      split.
      * apply NoDup_cons. split; [| exact IH1].
        intros Hin. destruct (IH2 _ Hin) as [Hin' | Hge]; [contradiction | lia].
      * rewrite Forall_forall. intros x Hx. rewrite zoneIds_cons, Hold.
        apply elem_of_cons in Hx as [-> | Hx]; [left; apply list_elem_of_here |].
        destruct (IH2 _ Hx) as [Hin' | Hge];
          [left; now apply list_elem_of_further | right; lia].
    + (* a record of this sweep *)
      split.
      * apply NoDup_cons. split; [| exact IH1].
        intros Hin. destruct (IH2 _ Hin) as [Hin' | Hge]; [| lia].
        rewrite Forall_forall in Hlt'. specialize (Hlt' _ Hin'). lia.
      * rewrite Forall_forall. intros x Hx.
        apply elem_of_cons in Hx as [-> | Hx]; [right; lia |].
        destruct (IH2 _ Hx) as [Hin' | Hge]; [left | right; lia].
        rewrite zoneIds_cons. destruct (User.dangerZone u);
          [now apply list_elem_of_further | assumption].
  - split; [exact IH1 |].
    rewrite Forall_forall. intros x Hx.
    destruct (IH2 _ Hx) as [Hin' | Hge]; [left | right; lia].
    rewrite zoneIds_cons. destruct (User.dangerZone u);
      [now apply list_elem_of_further | assumption].
Qed.

Lemma zoneIds_below state : Inv state -> Forall (fun x => x < State.made state)%nat (zoneIds (State.users state)).
Proof.
  intros [_ Hall]. induction Hall as [| [k u] rest Hu Hrest IH]; [constructor |].
  rewrite zoneIds_cons. destruct (User.dangerZone u) as [dz |] eqn:Hdz; [| exact IH].
  constructor; [| exact IH]. destruct Hu as [_ _ _ _ H5]. now apply H5.
Qed.

Lemma zoneIds_step state o :
  Inv state -> NoDup (zoneIds (State.users state)) ->
  NoDup (zoneIds (State.users (step state o))).
Proof.
  intros HI Hnd.
  assert (Hsweep : forall now, NoDup (zoneIds (State.users (sweepForBrokenStreaks state now)))).
  { intros now. rewrite sweepForBrokenStreaks_eq. cbn [State.users].
    apply zoneIds_sweepUsers; [assumption | now apply zoneIds_below]. }
  destruct o as [userId name | payload now | now | now | request now]; cbn [step];
    [| | apply Hsweep .. |].
  - destruct (getOrCreateUser _ _ _) as [[state' user'] | e] eqn:Hg; [| assumption].
    apply getOrCreateUser_inv in Hg as (_ & -> & ->).
    cbn [withUser State.users]. rewrite zoneIds_set_same; [assumption |].
    unfold resolved. destruct (UserMap.get _ _); [| reflexivity].
    now destruct (JS.truthy name).
  - destruct (checkIn _ _ _) as [[state' user'] | e] eqn:Hc; [| assumption].
    apply checkIn_inv in Hc as (_ & -> & ->).
    cbn [withUser State.users].
    eapply sublist_NoDup; [exact Hnd | now apply zoneIds_set_None].
  - destruct (Raw_checkIn_state state request now)
      as [-> | (body & user' & _ & _ & -> & Hu)]; [assumption |].
    cbn [withUser State.users].
    assert (Hr : UserMap.get (State.users state) (Raw.userKey (Raw.userId body))
                 ≫= User.dangerZone
                 = User.dangerZone (resolvedRaw state (Raw.userId body) (Raw.name body))).
    { unfold resolvedRaw. destruct (UserMap.get _ _); [| reflexivity].
      now destruct (Raw.name body) as [| [n |]]. }
    destruct Hu as [-> | [-> | ->]].
    + now rewrite zoneIds_set_same.
    + rewrite zoneIds_set_same; [assumption |].
      rewrite Hr. now destruct (asLocation _).
    + eapply sublist_NoDup; [exact Hnd | now apply zoneIds_set_None].
Qed.

Lemma zoneIds_run ops : NoDup (zoneIds (State.users (run ops))).
Proof.
  induction ops as [| o ops IH] using rev_ind; [constructor |].
  rewrite run_snoc. apply zoneIds_step; [apply Inv_run | exact IH].
Qed.

Lemma collectZones_ids users :
  DangerZone.id <$> collectZones (UserMap.values users) `sublist_of` zoneIds users.
Proof.
  induction users as [| [k u] rest IH]; [reflexivity |].
  cbn [UserMap.values map snd collectZones]. rewrite zoneIds_cons.
  destruct (decide _); destruct (User.dangerZone u); cbn [fmap list_fmap];
    try assumption; try (now apply sublist_skip); now apply sublist_cons.
Qed.

End Zones.

(** X16. On a reachable state, [dangerZones] returns one record for each
    participant who is missing after its sweep, in the order of the map:
    the [userId]s of the records are the ids of the missing participants,
    so no participant is listed twice and none is passed over. *)
Theorem dangerZones_lists_missing (ops : list Op) (now : Date) :
  DangerZone.userId <$> snd (dangerZones (run ops) now)
  = missingKeys (State.users (fst (dangerZones (run ops) now)))
  /\ NoDup (DangerZone.userId <$> snd (dangerZones (run ops) now))
  /\ length (snd (dangerZones (run ops) now))
     = length (filter (fun entry => User.status (snd entry) = missing)
                 (State.users (fst (dangerZones (run ops) now)))).
Proof.
  assert (E : DangerZone.userId <$> snd (dangerZones (run ops) now)
              = missingKeys (State.users (fst (dangerZones (run ops) now)))).
  { rewrite dangerZones_run. unfold dangerZones. cbn [snd].
    rewrite sweep_run. rewrite <- collectZones_userIds by apply Life_run.
    rewrite !run_snoc. reflexivity. }
  split; [exact E |]. split.
  - rewrite E. eapply sublist_NoDup; [| apply missingKeys_sublist].
    rewrite dangerZones_run. apply Inv_run.
  - apply (f_equal (@length _)) in E. unfold missingKeys in E.
    now rewrite !length_fmap in E.
Qed.

(** X17. On a reachable state, no two danger-zone records have the same
    identifier, among the records that the participants hold and among
    the records that [dangerZones] returns. *)
Theorem dangerZone_ids_distinct (ops : list Op) (now : Date) :
  NoDup (zoneIds (State.users (run ops)))
  /\ NoDup (DangerZone.id <$> snd (dangerZones (run ops) now)).
Proof.
  split; [apply zoneIds_run |].
  unfold dangerZones. cbn [snd]. rewrite sweep_run.
  eapply sublist_NoDup; [apply zoneIds_run | apply collectZones_ids].
Qed.

(** ** Requests in a row *)

Section Rows.

Lemma run_app ops ops' : run (ops ++ ops') = fold_left step ops' (run ops).
Proof. unfold run. apply fold_left_app. Qed.

(** A check-in of the day after adds one to the streak. *)
Lemma checkIn_next_day ops payload t user t' :
  userKey (Payload.userId payload) <> [] ->
  UserMap.get (State.users (run ops)) (userKey (Payload.userId payload)) = Some user ->
  User.lastCheckInAt user = Some t ->
  t' / 86400000 = t / 86400000 + 1 ->
  exists user',
    UserMap.get (State.users (run (ops ++ [OpCheckIn payload t'])))
      (userKey (Payload.userId payload)) = Some user'
    /\ User.lastCheckInAt user' = Some t'
    /\ User.status user' = ok
    /\ User.streak user' = User.streak user + 1.
Proof.
  intros Hne Hg Ht Hd. rewrite run_snoc. cbn [step].
  pose proof (checkIn_Ok (run ops) payload t' Hne) as Hc. cbv zeta in Hc.
  pose proof (streak_by_days _ _ _ _ _ Hc) as Hs.
  rewrite Hc. rewrite Hg, Ht in Hs.
  eexists. split; [apply get_withUser |]. split; [reflexivity |]. split; [reflexivity |].
  rewrite Hs. destruct (Z.eqb_spec (t' / 86400000) (t / 86400000)); [lia |].
  destruct (Z.eqb_spec (t' / 86400000) (t / 86400000 + 1)); [reflexivity | lia].
Qed.

Lemma checkIn_run ops payload t user ts :
  userKey (Payload.userId payload) <> [] ->
  UserMap.get (State.users (run ops)) (userKey (Payload.userId payload)) = Some user ->
  User.lastCheckInAt user = Some t ->
  consecutiveDays t ts ->
  exists user',
    UserMap.get (State.users (run (ops ++ (OpCheckIn payload <$> ts))))
      (userKey (Payload.userId payload)) = Some user'
    /\ User.status user' = User.status (if ts is [] then user else checkedIn user payload t)
    /\ User.streak user' = User.streak user + Z.of_nat (length ts).
Proof.
  intros Hne. revert ops t user.
  induction ts as [| t' rest IH]; intros ops t user Hg Ht Hd.
  - exists user. rewrite app_nil_r. cbn. split; [exact Hg |]. split; [reflexivity | lia].
  - destruct Hd as [Hd Hrest].
    destruct (checkIn_next_day ops payload t user t' Hne Hg Ht Hd) as (u1 & G1 & T1 & S1 & K1).
    destruct (IH (ops ++ [OpCheckIn payload t']) t' u1 G1 T1 Hrest) as (u2 & G2 & S2 & K2).
    exists u2. cbn [fmap list_fmap]. rewrite <- app_assoc in G2. cbn [app] in G2.
    split; [exact G2 |]. split.
    + rewrite S2. destruct rest; [exact S1 | reflexivity].
    + rewrite K2, K1. cbn [length]. lia.
Qed.

End Rows.

(** X18. After a check-in, the list of danger zones that is computed on
    the same UTC day or on the day after, as the check-in route computes
    it at once, has no record of the participant, who is still as the
    check-in left it. *)
Theorem checked_in_not_listed (ops : list Op) (payload : Payload.t) (now now' : Date)
    (state1 : State.t) (user1 : User.t) :
  checkIn (run ops) payload now = Ok (state1, user1) ->
  now' / 86400000 = now / 86400000 \/ now' / 86400000 = now / 86400000 + 1 ->
  UserMap.get (State.users (fst (dangerZones state1 now'))) (userKey (Payload.userId payload))
  = Some user1
  /\ forall dz,
       dz ∈ snd (dangerZones state1 now') ->
       DangerZone.userId dz <> userKey (Payload.userId payload).
Proof.
  intros Hc Hday. pose proof (run_checkIn _ _ _ _ _ Hc) as Hrun.
  apply checkIn_inv in Hc as (_ & Hu & Hs).
  assert (Hg : UserMap.get (State.users state1) (userKey (Payload.userId payload)) = Some user1)
    by (rewrite Hs; apply get_withUser).
  assert (Hfresh : forall n, sweepUser n user1 now' = (n, user1)).
  { intros n. apply sweepUser_fresh; rewrite Hu; cbn [checkedIn User.status User.lastCheckInDayKey];
      [discriminate |].
    rewrite stale_by_days. unfold DateFn.Day, DateFn.msPerDay.
    destruct Hday as [E | E].
    - rewrite E, Z.eqb_refl. reflexivity.
    - replace (now' / 86400000 - 1) with (now / 86400000) by lia.
      rewrite Z.eqb_refl. apply andb_false_r. }
  assert (Hg' : UserMap.get (State.users (fst (dangerZones state1 now')))
                  (userKey (Payload.userId payload)) = Some user1).
  { unfold dangerZones. cbn [fst]. rewrite sweepForBrokenStreaks_eq. cbn [State.users].
    destruct (get_sweepUsers _ (State.made state1) now' _ _ Hg) as [n Hn].
    now rewrite Hn, Hfresh. }
  split; [exact Hg' |].
  intros dz Hdz Hid. apply dangerZones_source in Hdz as (k & user & Hin & Hm & Hd).
  rewrite Hrun, dangerZones_run in Hin, Hg'.
  destruct (Life_elem _ _ _ Hin) as [_ _ _ _ _ _ H7 _ _]. cbn [fst snd] in H7.
  destruct (H7 Hm) as (t & dz' & _ & _ & Hd' & _ & _ & Hk & _).
  rewrite Hd in Hd'. injection Hd' as <-. rewrite Hid in Hk. subst k.
  apply elem_get in Hin; [| apply Inv_run].
  rewrite Hg' in Hin. injection Hin as <-.
  rewrite Hu in Hm. discriminate Hm.
Qed.

Lemma checked_in_not_listed_witness :
  exists s u,
    checkIn Scenario.lostP1 Scenario.p1 (Scenario.day0 + Scenario.days 3) = Ok (s, u)
    /\ snd (dangerZones Scenario.lostP1 (Scenario.day0 + Scenario.days 3)) <> []
    /\ forall dz,
         dz ∈ snd (dangerZones s (Scenario.day0 + Scenario.days 4)) ->
         DangerZone.userId dz <> JS.lit "p1".
Proof.
  destruct (checkIn Scenario.lostP1 Scenario.p1 (Scenario.day0 + Scenario.days 3))
    as [[s u] | e] eqn:H; [| vm_compute in H; discriminate H].
  exists s, u. split; [reflexivity |]. split; [vm_compute; congruence |].
  unfold Scenario.lostP1 in H.
  destruct (checked_in_not_listed _ _ _ (Scenario.day0 + Scenario.days 4) _ _ H) as [_ A];
    [right; vm_compute; reflexivity | exact A].
Defined.

(** X19. Check-ins on consecutive UTC days add up: a participant whose
    last check-in was at [t], and who then checks in once on each of the
    [n] following days, at any time of the day, has its streak raised by
    [n], and is ok. *)
Theorem consecutive_checkIns (ops : list Op) (payload : Payload.t)
    (t : Date) (user : User.t) (ts : list Date) :
  userKey (Payload.userId payload) <> [] ->
  UserMap.get (State.users (run ops)) (userKey (Payload.userId payload)) = Some user ->
  User.lastCheckInAt user = Some t ->
  consecutiveDays t ts ->
  ts <> [] ->
  exists user',
    UserMap.get (State.users (run (ops ++ (OpCheckIn payload <$> ts))))
      (userKey (Payload.userId payload)) = Some user'
    /\ User.status user' = ok
    /\ User.streak user' = User.streak user + Z.of_nat (length ts).
Proof.
  intros Hne Hg Ht Hd Hts.
  destruct (checkIn_run ops payload t user ts Hne Hg Ht Hd) as (user' & A & B & C).
  exists user'. split; [exact A |]. split; [| exact C].
  rewrite B. now destruct ts.
Qed.

Lemma consecutive_checkIns_witness :
  exists user,
    UserMap.get
      (State.users
         (run ([OpCheckIn Scenario.p1 Scenario.day0]
               ++ (OpCheckIn Scenario.p1
                     <$> [Scenario.day0 + Scenario.days 1 + 7 * Scenario.hour;
                          Scenario.day0 + Scenario.days 2;
                          Scenario.day0 + Scenario.days 3 + 23 * Scenario.hour;
                          Scenario.day0 + Scenario.days 4 + Scenario.hour]))))
      (JS.lit "p1") = Some user
    /\ User.streak user = 5.
Proof.
  destruct (UserMap.get (State.users (run [OpCheckIn Scenario.p1 Scenario.day0]))
              (userKey (Payload.userId Scenario.p1))) as [user0 |] eqn:Hg;
    [| vm_compute in Hg; discriminate Hg].
  assert (Ht : User.lastCheckInAt user0 = Some Scenario.day0)
    by (vm_compute in Hg; now injection Hg as <-).
  assert (Hs : User.streak user0 = 1) by (vm_compute in Hg; now injection Hg as <-).
  destruct (consecutive_checkIns [OpCheckIn Scenario.p1 Scenario.day0] Scenario.p1
              Scenario.day0 user0
              [Scenario.day0 + Scenario.days 1 + 7 * Scenario.hour;
               Scenario.day0 + Scenario.days 2;
               Scenario.day0 + Scenario.days 3 + 23 * Scenario.hour;
               Scenario.day0 + Scenario.days 4 + Scenario.hour])
    as (user & A & _ & B); try assumption.
  - vm_compute. congruence.
  - vm_compute. repeat split; reflexivity.
  - discriminate.
  - exists user. split; [exact A |]. rewrite B, Hs. reflexivity.
Defined.

(** ** The history of a participant *)

Section Rolling.

Lemma pushCheckInHistory_new dayKey at_ location note h :
  (length h <= 21)%nat ->
  dayKey ∉ historyKeys h ->
  pushCheckInHistory h dayKey at_ location note
  = (if decide (length h = 21%nat) then drop 1 h else h)
    ++ [newEntry dayKey at_ location note].
Proof.
  intros Hlen Hn. rewrite pushCheckInHistory_upsert. cbv zeta.
  rewrite upsert_absent by assumption. rewrite length_app. cbn [length].
  destruct (decide (length h = 21%nat)) as [E | E].
  - rewrite decide_True by lia. rewrite E. cbn [Nat.add Nat.sub].
    replace (21 + 1 - 21)%nat with 1%nat by lia.
    rewrite drop_app_le by lia. reflexivity.
  - rewrite decide_False by lia. reflexivity.
Qed.

Lemma allFrom_spec f n : forall lo y,
  allFrom f lo n = true -> lo <= y < lo + Z.of_nat n -> f y = true.
Proof.
  induction n as [| n IH]; intros lo y H Hy; [lia |].
  cbn [allFrom] in H. apply andb_true_iff in H as [H0 H].
  destruct (Z.eq_dec y lo) as [-> | Hne]; [exact H0 |].
  apply (IH (lo + 1)); [exact H | lia].
Qed.

Lemma fourDigits_years : allFrom fourDigits 1000 (Z.to_nat 9000) = true.
Proof. vm_compute. reflexivity. Qed.

Lemma ofInt_fourDigits y : 1000 <= y <= 9999 -> length (JS.ofInt y) = 4%nat.
Proof.
  intros Hy. apply Nat.eqb_eq. change (fourDigits y = true).
  apply (allFrom_spec fourDigits (Z.to_nat 9000) 1000 y fourDigits_years).
  rewrite Z2Nat.id by lia. lia.
Qed.

Lemma YearFromTime_bounds t :
  -30610224000000 <= t < 253402300800000 -> 1000 <= DateFn.YearFromTime t <= 9999.
Proof.
  intros Ht. unfold DateFn.YearFromTime.
  pose proof (YearFromDay_spec (DateFn.Day t)) as Hs.
  assert (Hd : DateFn.DayFromYear 1000 <= DateFn.Day t < DateFn.DayFromYear 10000).
  { change (DateFn.DayFromYear 1000) with (-354285).
    change (DateFn.DayFromYear 10000) with 2932897.
    unfold DateFn.Day, DateFn.msPerDay. Z.div_mod_to_equations. lia. }
  split.
  - destruct (Z.le_gt_cases 1000 (DateFn.YearFromDay (DateFn.Day t))) as [H | H]; [exact H |].
    pose proof (DayFromYear_mono (DateFn.YearFromDay (DateFn.Day t) + 1) 1000). lia.
  - destruct (Z.le_gt_cases (DateFn.YearFromDay (DateFn.Day t)) 9999) as [H | H]; [exact H |].
    pose proof (DayFromYear_mono 10000 (DateFn.YearFromDay (DateFn.Day t))). lia.
Qed.

(** Between the years 1000 and 9999, the day key of a time is the date
    part of its ISO rendering. *)
Lemma utcDayKey_toISOString t :
  -30610224000000 <= t < 253402300800000 ->
  Time.utcDayKey t = take 10 (DateFn.toISOString t).
Proof.
  intros Ht. pose proof (YearFromTime_bounds t Ht) as Hy.
  pose proof (ofInt_fourDigits _ Hy) as H4.
  destruct (utcDayKey_parts t) as (m1 & m2 & d1 & d2 & E & _).
  unfold DateFn.toISOString.
  replace ((0 <=? DateFn.YearFromTime t) && (DateFn.YearFromTime t <=? 9999)) with true
    by (symmetry; apply andb_true_iff; split; apply Z.leb_le; lia).
  unfold DateFn.padInt at 1. unfold JS.padStart0 at 1. rewrite H4. cbn [Nat.sub replicate app].
  change (DateFn.padInt 2) with Time.pad2.
  unfold Time.utcDayKey, DateFn.getUTCFullYear, DateFn.getUTCMonth, DateFn.getUTCDate in E.
  destruct (pad2_day (DateFn.MonthFromTime t + 1)) as (a & b & Pm & _);
    [pose proof (MonthFromTime_range t); lia |].
  destruct (pad2_day _ (DateFromTime_range t)) as (c & d & Pd & _).
  unfold Time.utcDayKey, DateFn.getUTCFullYear, DateFn.getUTCMonth, DateFn.getUTCDate.
  rewrite Pm, Pd.
  destruct (JS.ofInt (DateFn.YearFromTime t)) as [| y1 [| y2 [| y3 [| y4 [| y5 r]]]]];
    try discriminate H4. reflexivity.
Qed.

End Rolling.

(** X20. On a reachable state, a check-in on a day that the history does
    not record yet adds its entry at the end; when the history already has
    21 entries, the oldest one, the first, is dropped, and the others keep
    their order. *)
Theorem history_rolls (ops : list Op) (payload : Payload.t) (now : Date)
    (state' : State.t) (user' user : User.t) :
  checkIn (run ops) payload now = Ok (state', user') ->
  UserMap.get (State.users (run ops)) (userKey (Payload.userId payload)) = Some user ->
  (forall e, e ∈ User.checkInHistory user -> HistoryEntry.dayKey e <> Time.utcDayKey now) ->
  User.checkInHistory user'
  = (if decide (length (User.checkInHistory user) = 21%nat)
     then drop 1 (User.checkInHistory user)
     else User.checkInHistory user)
    ++ [{| HistoryEntry.dayKey := Time.utcDayKey now;
           HistoryEntry.at_ := DateFn.toISOString now;
           HistoryEntry.location := asLocation (Payload.location payload);
           HistoryEntry.note := normalizeCheckInNote (Payload.note payload) |}].
Proof.
  intros Hc Hg Hnew. apply checkIn_inv in Hc as (_ & -> & _).
  cbn [checkedIn User.checkInHistory]. rewrite resolved_checkInHistory, Hg.
  cbn [from_option].
  destruct (Inv_lookup _ _ _ (Inv_run ops) Hg) as [_ H2 _ _ _]. cbn [snd] in H2.
  apply pushCheckInHistory_new; [exact H2 |].
  intros Hin. apply historyKeys_elem in Hin as (i & e & Hi & He).
  apply (Hnew e); [apply list_elem_of_lookup; eauto | exact He].
Qed.

Lemma history_rolls_witness :
  exists s u e1 e2,
    checkIn (run [OpCheckIn Scenario.p1_home Scenario.day0]) Scenario.p1
      (Scenario.day0 + Scenario.days 1) = Ok (s, u)
    /\ User.checkInHistory u = [e1; e2]
    /\ HistoryEntry.dayKey e1 = JS.lit "2024-03-01"
    /\ HistoryEntry.dayKey e2 = JS.lit "2024-03-02".
Proof.
  set (ops := [OpCheckIn Scenario.p1_home Scenario.day0]).
  destruct (checkIn (run ops) Scenario.p1 (Scenario.day0 + Scenario.days 1))
    as [[s u] | e] eqn:H; [| vm_compute in H; discriminate H].
  destruct (UserMap.get (State.users (run ops)) (userKey (Payload.userId Scenario.p1)))
    as [user |] eqn:Hg; [| vm_compute in Hg; discriminate Hg].
  assert (Hh : exists e1, User.checkInHistory user = [e1]
                          /\ HistoryEntry.dayKey e1 = JS.lit "2024-03-01").
  { vm_compute in Hg. injection Hg as <-. eexists. split; reflexivity. }
  destruct Hh as (e1 & Hh & Hk).
  pose proof (history_rolls ops _ _ _ _ _ H Hg) as A.
  rewrite Hh in A. cbn [length] in A. rewrite decide_False in A by lia.
  exists s, u, e1. eexists. split; [reflexivity |]. split; [apply A | ].
  - intros e He. apply list_elem_of_singleton in He. subst e. rewrite Hk.
    vm_compute. congruence.
  - split; [exact Hk | vm_compute; reflexivity].
Defined.

(** X21. For a time between the years 1000 and 9999, the day key has the
    ten code units of the form YYYY-MM-DD and is the date part, the first
    ten code units, of what [toISOString] returns: the [dayKey] of a
    history entry is the date of its [at]. *)
Theorem dayKey_is_date_of_at (t : Date) :
  -30610224000000 <= t < 253402300800000 ->
  Time.utcDayKey t = take 10 (DateFn.toISOString t)
  /\ length (Time.utcDayKey t) = 10%nat
  /\ Time.utcDayKey t !! 4%nat = Some 45%N
  /\ Time.utcDayKey t !! 7%nat = Some 45%N
  /\ HistoryEntry.dayKey (newEntry (Time.utcDayKey t) t None None)
     = take 10 (HistoryEntry.at_ (newEntry (Time.utcDayKey t) t None None)).
Proof.
  intros Ht. pose proof (utcDayKey_toISOString t Ht) as Hk.
  split; [exact Hk |].
  pose proof (ofInt_fourDigits _ (YearFromTime_bounds t Ht)) as H4.
  destruct (utcDayKey_parts t) as (m1 & m2 & d1 & d2 & E & _).
  split; [| split; [| split; [| exact Hk]]]; rewrite E;
    destruct (JS.ofInt (DateFn.YearFromTime t)) as [| y1 [| y2 [| y3 [| y4 [| y5 r]]]]];
    try discriminate H4; reflexivity.
Qed.

Lemma dayKey_is_date_of_at_witness :
  Time.utcDayKey Scenario.day0 = take 10 (DateFn.toISOString Scenario.day0)
  /\ Time.utcDayKey Scenario.day0 = JS.lit "2024-03-01".
Proof.
  split; [| vm_compute; reflexivity].
  apply (dayKey_is_date_of_at Scenario.day0). vm_compute. split; congruence.
Defined.

(** ** The sweep of the timer and the database path *)

Section Siblings.

(** On a participant of a reachable state, a turn of the sweep depends on
    [now] through its UTC day only. *)
Lemma sweepUser_day n k user now now' :
  Life (k, user) -> DateFn.Day now = DateFn.Day now' ->
  sweepUser n user now = sweepUser n user now'.
Proof.
  intros HL Hd.
  assert (Ho : forall key, Time.isOlderThanYesterdayDayKey key now
                           = Time.isOlderThanYesterdayDayKey key now').
  { intros key. unfold Time.isOlderThanYesterdayDayKey.
    rewrite !utcYesterdayDayKey_eq, (utcDayKey_Day now now' Hd).
    rewrite (utcDayKey_Day (now - DateFn.msPerDay) (now' - DateFn.msPerDay));
      [reflexivity |]. rewrite !Day_yesterday. now rewrite Hd. }
  unfold sweepUser. rewrite Ho.
  destruct (decide _) as [Hm | Hm]; [reflexivity |].
  destruct (Time.isOlderThanYesterdayDayKey _ now') eqn:Hs; [| reflexivity].
  rewrite !markMissing_fresh by assumption.
  destruct HL as [_ _ _ H4 H5 _ _ _ _]. cbn [fst snd] in *.
  assert (Hu : User.status user <> unknown).
  { intros Hu. destruct (H4 Hu) as (_ & Hn & _). rewrite Hn in Hs. discriminate Hs. }
  destruct (H5 Hu) as (t & e & Ht & _).
  unfold markedMissing, zoneOf. now rewrite Ht.
Qed.

Lemma sweepUsers_day users made now now' :
  Forall Life users -> DateFn.Day now = DateFn.Day now' ->
  sweepUsers users made now = sweepUsers users made now'.
Proof.
  intros Hall Hd. revert made.
  induction Hall as [| [k u] rest Hu Hrest IH]; intros made; [reflexivity |].
  rewrite !sweepUsers_cons, (sweepUser_day made k u now now' Hu Hd). now rewrite IH.
Qed.

Lemma sweep_day ops now now' :
  DateFn.Day now = DateFn.Day now' ->
  sweepForBrokenStreaks (run ops) now = sweepForBrokenStreaks (run ops) now'.
Proof.
  intros Hd. rewrite !sweepForBrokenStreaks_eq.
  now rewrite (sweepUsers_day _ _ now now' (Life_run ops) Hd).
Qed.

Lemma sweep_sweep state now :
  sweepForBrokenStreaks (sweepForBrokenStreaks state now) now
  = sweepForBrokenStreaks state now.
Proof.
  rewrite !sweepForBrokenStreaks_eq. cbn [State.users State.made].
  now rewrite sweepUsers_again.
Qed.

End Siblings.

(** X22. On a reachable state, a sweep depends on its time through the
    UTC day only, so that the timer, which sweeps and then lists the
    danger zones a moment later, gets the state and the list that
    [dangerZones] alone would give, as long as the two times fall on the
    same UTC day. *)
Theorem sweep_then_dangerZones (ops : list Op) (now now' : Date) :
  now / 86400000 = now' / 86400000 ->
  sweepForBrokenStreaks (run ops) now = sweepForBrokenStreaks (run ops) now'
  /\ dangerZones (sweepForBrokenStreaks (run ops) now) now' = dangerZones (run ops) now'.
Proof.
  intros Hd. pose proof (sweep_day ops now now' Hd) as E. split; [exact E |].
  unfold dangerZones. now rewrite E, sweep_sweep.
Qed.

Lemma sweep_then_dangerZones_witness :
  dangerZones
    (sweepForBrokenStreaks Scenario.lostP1 (Scenario.day0 + Scenario.days 5)) 
    (Scenario.day0 + Scenario.days 5 + Scenario.hour)
  = dangerZones Scenario.lostP1 (Scenario.day0 + Scenario.days 5 + Scenario.hour).
Proof.
  apply (sweep_then_dangerZones
           [OpCheckIn Scenario.p1_home Scenario.day0;
            OpSweep (Scenario.day0 + Scenario.days 3)]).
  vm_compute. reflexivity.
Defined.

(** X23. On every participant of a reachable state, the streak rule of
    the database path gives the streak that the in-memory check-in
    leaves; whatever the row holds, it gives a streak of at least 1. *)
Theorem dbNextStreak_agrees (ops : list Op) (k : jsstring) (user : User.t)
    (payload : Payload.t) (now : Date) (key : option jsstring) (prevStreak : Z) :
  1 <= dbNextStreak key prevStreak now
  /\ ((k, user) ∈ State.users (run ops) ->
      dbNextStreak (User.lastCheckInDayKey user) (User.streak user) now
      = User.streak (checkedIn user payload now)).
Proof.
  split.
  - unfold dbNextStreak. cbv zeta. repeat destruct (decide _); lia.
  - intros Hin. destruct (Life_elem _ _ _ Hin) as [_ _ _ H4 H5 _ _ _ _]. cbn [fst snd] in *.
    unfold dbNextStreak. cbv zeta. cbn [checkedIn User.streak].
    destruct (decide (User.status user = unknown)) as [Hs | Hs].
    + destruct (H4 Hs) as (_ & -> & _). cbn [JS.truthy].
      now rewrite !decide_False by discriminate.
    + destruct (H5 Hs) as (t & e & _ & Hk & Hst & _). rewrite Hk.
      pose proof (utcDayKey_nonempty t) as Hne.
      destruct (Time.utcDayKey t) as [| c r] eqn:Et; [congruence |]. cbn [JS.truthy].
      destruct (Z.eqb_spec (User.streak user) 0) as [E0 | E0]; [lia |].
      repeat destruct (decide _); lia.
Qed.

Lemma dbNextStreak_agrees_witness :
  exists k user,
    (k, user) ∈ State.users Scenario.lostP1
    /\ dbNextStreak (User.lastCheckInDayKey user) (User.streak user)
         (Scenario.day0 + Scenario.days 3)
       = User.streak (checkedIn user Scenario.p1 (Scenario.day0 + Scenario.days 3)).
Proof.
  first_entry Scenario.lostP1 k user E Hin.
  exists k, user. split; [apply list_elem_of_here |].
  unfold Scenario.lostP1 in Hin.
  destruct (dbNextStreak_agrees
              [OpCheckIn Scenario.p1_home Scenario.day0;
               OpSweep (Scenario.day0 + Scenario.days 3)]
              k user Scenario.p1 (Scenario.day0 + Scenario.days 3) None 0) as [_ A].
  now apply A.
Defined.

(** ** A check-in that a conversion stops *)

Section Stops.


End Stops.

(** X24. On a request of strings and numbers, as the client sends it, no
    conversion throws, and [checkIn] on any request is the [checkIn] of
    the first part: it returns the same user and leaves the same state,
    or throws the error of a blank id and leaves the state as it was. *)
Theorem checkIn_of_strings (state : State.t) (payload : Payload.t) (now : Date) :
  converts (bodyOf payload) = true
  /\ Raw.checkIn state (Some (bodyOf payload)) now
     = match checkIn state payload now with
       | Ok (state', user') => (state', Raw.Returns user')
       | Throw message => (state, Raw.Throws (Raw.Error message))
       end.
Proof.
  split; [| apply Raw_checkIn_bodyOf].
  destruct payload as [[[| c1 r1] |] [[| c2 r2] |] [[lat lng] |] [[| c3 r3] |]]; reflexivity.
Qed.


